(** * The module upgrade service of his-auto-upgrade, embedded in Rocq

    The repository holds three texts of [UpgradeService]:
    - the fs-extra service, [src/backend/src/upgrade/upgrade.service.ts]
      lines 1-319 (module [FsExtra] below);
    - the node:fs service, same file, lines 321-677 (module [NodeFs]);
    - the service printed in the design note [src/unnamed/part_003]
      (module [Draft]); its private helpers are, line for line, those of
      the fs-extra service.

    The service is asynchronous but strictly sequential (every call is
    awaited), so an [async] method is a state transformer over the host the
    service runs on, completing either by returning or by throwing. *)

From Stdlib Require Import String List Ascii ZArith Lia Bool DecimalString.
Import ListNotations.
Open Scope string_scope.

(** ** JavaScript strings *)

(** White space removed by [String.prototype.trim], on single-byte
    characters: TAB, LF, VT, FF, CR and SPACE. *)
Definition is_space (c : ascii) : bool :=
  match nat_of_ascii c with
  | 9 | 10 | 11 | 12 | 13 | 32 => true
  | _ => false
  end.

Fixpoint trimStart (s : string) : string :=
  match s with
  | EmptyString => EmptyString
  | String c s' => if is_space c then trimStart s' else s
  end.

Fixpoint trimEnd (s : string) : string :=
  match s with
  | EmptyString => EmptyString
  | String c s' =>
      let t := trimEnd s' in
      if is_space c && (t =? "") then EmptyString else String c t
  end.

(** [s.trim()] *)
Definition trim (s : string) : string := trimEnd (trimStart s).

(** [s || d] on strings: the empty string is the only falsy one. *)
Definition or_else (s d : string) : string := if s =? "" then d else s.

(** [v || d] where [v] may be [undefined]. *)
Definition opt_or_else (v : option string) (d : string) : string :=
  match v with
  | Some s => or_else s d
  | None => d
  end.

(** [s.replace(/:/g, "-")] *)
Fixpoint replace_colons (s : string) : string :=
  match s with
  | EmptyString => EmptyString
  | String c s' => String (if Ascii.eqb c ":" then "-"%char else c) (replace_colons s')
  end.

(** [String(n)] for an integer. *)
Definition show_Z (n : Z) : string := NilZero.string_of_int (Z.to_int n).

(** Line terminators, which [.] of a regular expression does not match
    (the two single-byte ones). *)
Definition is_newline (c : ascii) : bool :=
  match nat_of_ascii c with
  | 10 | 13 => true
  | _ => false
  end.

(** The longest prefix made of characters matched by [.]. *)
Fixpoint dot_plus (s : string) : string :=
  match s with
  | EmptyString => EmptyString
  | String c s' => if is_newline c then EmptyString else String c (dot_plus s')
  end.

(** [s.match(/refs\/tags\/(.+)/)]: the first capture group of the leftmost
    match, if any. *)
Fixpoint match_refs_tags (s : string) : option string :=
  match s with
  | EmptyString => None
  | String _ s' =>
      if prefix "refs/tags/" s then
        match dot_plus (substring 10 (String.length s - 10) s) with
        | EmptyString => match_refs_tags s'
        | cap => Some cap
        end
      else match_refs_tags s'
  end.

(** [s.replace(/\^\{\}$/, "")] *)
Fixpoint strip_peel (s : string) : string :=
  match s with
  | EmptyString => EmptyString
  | String c s' => if s =? "^{}" then EmptyString else String c (strip_peel s')
  end.

(** ** Paths

    [path.join] and [path.dirname] of Node's posix [path], on the arguments
    the service gives them: a normal directory and one segment. Empty
    segments are ignored as Node does; [.], [..] and doubled separators are
    not resolved. *)
Definition path_join (a b : string) : string :=
  if a =? "" then (if b =? "" then "." else b)
  else if b =? "" then a
  else a ++ "/" ++ b.

Fixpoint has_slash (s : string) : bool :=
  match s with
  | EmptyString => false
  | String c s' => Ascii.eqb c "/" || has_slash s'
  end.

Fixpoint path_dirname_aux (s : string) : string :=
  match s with
  | EmptyString => EmptyString
  | String c s' =>
      if has_slash s' then String c (path_dirname_aux s')
      else EmptyString
  end.

Definition path_dirname (p : string) : string :=
  if has_slash p then
    match path_dirname_aux p with
    | EmptyString => "/"
    | d => d
    end
  else ".".

(** ** Data model ([ModuleConfig], [UpgradeResult], [ModuleStatus]) *)

Inductive ModuleType := frontend | backend | microfrontend.

Record ModuleConfig := {
  name : string;
  repo : string;
  type : ModuleType;
  deployPath : string;
  buildCommand : string;
  branch : option string
}.

Record UpgradeResult := {
  success : bool;
  module : string;
  message : string;
  timestamp : string;
  version : option string
}.

(** An entry of [getModulesStatus]. [status] is ["up-to-date"],
    ["outdated"] or, in the design note only, ["error"]; [error] is the
    property that only the design note's error entry carries, and
    [lastUpdated] is [None] for JavaScript's [null] and for the absent
    property. *)
Record ModuleStatus := {
  s_name : string;
  s_type : ModuleType;
  currentVersion : string;
  latestVersion : string;
  s_deployPath : string;
  status : string;
  lastUpdated : option string;
  error : option string
}.

(** [PackageJson]: the one property the service reads. *)
Record PackageJson := { pkg_version : option string }.

(** ** The host

    The file system, the clock and the external commands are collaborators
    of the service. A value of [W] is a state of the machine; the
    primitives say what each library call does to it. *)

(** A JavaScript [Error], by its [message]. *)
Definition Error := string.

Inductive Completion (A : Type) : Type :=
| Returned (a : A)
| Thrown (e : Error).
Arguments Returned {A} a.
Arguments Thrown {A} e.

Class Host (W : Type) := {
  (** [fs.pathExists], [existsSync], and whether [fs.access(p, F_OK)] resolves *)
  h_exists : string -> W -> bool;
  (** [fs.ensureDir(p)], [fs.mkdir(p, { recursive: true })] *)
  h_mkdirp : string -> W -> W * Completion unit;
  (** [fs.copy(src, dst)], [fs.cp(src, dst, { recursive: true })] *)
  h_copy : string -> string -> W -> W * Completion unit;
  (** [fs.emptyDir(p)] *)
  h_emptyDir : string -> W -> W * Completion unit;
  (** [fs.remove(p)], [fs.rm(p, { recursive: true, force: true })] *)
  h_remove : string -> W -> W * Completion unit;
  (** [fs.readJson(p)] or [JSON.parse(await fs.readFile(p, 'utf-8'))],
      followed by the read of [.version]; it throws when the file cannot be
      read, is not JSON, or holds [null]. *)
  h_readJson : string -> W -> Completion PackageJson;
  (** [(await fs.stat(p)).mtime], in milliseconds *)
  h_mtime : string -> W -> Completion Z;
  (** [execAsync(cmd, { maxBuffer })]: the standard output when the command
      exits with 0 within the buffer, an error otherwise *)
  h_exec : string -> Z -> W -> W * Completion string;
  (** [Date.now()] *)
  h_now : W -> Z;
  (** [new Date(t).toISOString()] *)
  h_iso : Z -> string
}.

(** What the service did to the host, in order: library calls with their
    outcome, and lines given to the logger. *)
Inductive Call :=
| Probe (p : string)
| MkdirP (p : string)
| CopyTree (src dst : string)
| EmptyDir (p : string)
| RemoveTree (p : string)
| ReadJson (p : string)
| Stat (p : string)
| Exec (cmd : string).

Inductive Level := LogInfo | LogError | LogWarn | ConsoleError.

Inductive Event :=
| Sys (c : Call) (ok : bool)
| Log (l : Level) (msg : string) (err : option Error).

Record State (W : Type) := mkState {
  world : W;
  trace : list Event
}.
Arguments mkState {W} world trace.
Arguments world {W} s.
Arguments trace {W} s.

(** ** The monad of awaited computations *)

Definition M (W A : Type) : Type := State W -> State W * Completion A.

Definition ret {W A} (a : A) : M W A := fun s => (s, Returned a).

Definition throw {W A} (e : Error) : M W A := fun s => (s, Thrown e).

Definition bind {W A B} (m : M W A) (k : A -> M W B) : M W B :=
  fun s =>
    match m s with
    | (s1, Returned a) => k a s1
    | (s1, Thrown e) => (s1, Thrown e)
    end.

Notation "x <- m ;; k" := (bind m (fun x => k))
  (at level 61, m at next level, right associativity).
Notation "m ;; k" := (bind m (fun _ => k))
  (at level 61, right associativity).

(** [try { m } catch (e) { h e }] *)
Definition tryCatch {W A} (m : M W A) (h : Error -> M W A) : M W A :=
  fun s =>
    match m s with
    | (s1, Returned a) => (s1, Returned a)
    | (s1, Thrown e) => h e s1
    end.

(** [try { m } finally { fin }]: [fin] runs on both exits; the completion of
    [m] stands unless [fin] itself throws. *)
Definition tryFinally {W A} (m : M W A) (fin : M W unit) : M W A :=
  fun s =>
    match m s with
    | (s1, c) =>
        match fin s1 with
        | (s2, Returned _) => (s2, c)
        | (s2, Thrown e) => (s2, Thrown e)
        end
    end.

(** [for (const x of xs) { results.push(await f(x)) }]: stops at the first
    throw. *)
Fixpoint forEachPush {W A B} (f : A -> M W B) (xs : list A) : M W (list B) :=
  match xs with
  | [] => ret []
  | x :: rest =>
      r <- f x ;;
      rs <- forEachPush f rest ;;
      ret (r :: rs)
  end.

Section Primitives.
Context {W : Type} `{Host W}.

Definition emit (e : Event) (s : State W) : State W :=
  mkState (world s) (trace s ++ [e]).

Definition is_returned {A} (c : Completion A) : bool :=
  match c with Returned _ => true | Thrown _ => false end.

(** A call that changes the host. *)
Definition effect {A} (c : Call) (op : W -> W * Completion A) : M W A :=
  fun s =>
    let (w, r) := op (world s) in
    (mkState w (trace s ++ [Sys c (is_returned r)]), r).

(** A call that only reads it. *)
Definition observe {A} (c : Call) (op : W -> Completion A) : M W A :=
  fun s => let r := op (world s) in (emit (Sys c (is_returned r)) s, r).

Definition pathExists (p : string) : M W bool :=
  fun s => let b := h_exists p (world s) in (emit (Sys (Probe p) b) s, Returned b).

Definition access (p : string) : M W unit :=
  fun s =>
    let b := h_exists p (world s) in
    (emit (Sys (Probe p) b) s,
     if b then Returned tt
     else Thrown ("ENOENT: no such file or directory, access '" ++ p ++ "'")).

Definition ensureDir (p : string) : M W unit := effect (MkdirP p) (h_mkdirp p).
Definition copy (src dst : string) : M W unit := effect (CopyTree src dst) (h_copy src dst).
Definition emptyDir (p : string) : M W unit := effect (EmptyDir p) (h_emptyDir p).
Definition remove (p : string) : M W unit := effect (RemoveTree p) (h_remove p).
Definition readJson (p : string) : M W PackageJson := observe (ReadJson p) (h_readJson p).
Definition stat_mtime (p : string) : M W Z := observe (Stat p) (h_mtime p).

(** [maxBuffer] defaults to 1 MiB. *)
Definition defaultMaxBuffer : Z := 1024 * 1024.
Definition execAsync (cmd : string) (maxBuffer : Z) : M W string :=
  effect (Exec cmd) (h_exec cmd maxBuffer).

Definition date_now : M W Z := fun s => (s, Returned (h_now (world s))).
Definition new_Date_toISOString : M W string :=
  fun s => (s, Returned (h_iso (h_now (world s)))).

Definition logger (l : Level) (msg : string) (err : option Error) : M W unit :=
  fun s => (emit (Log l msg err) s, Returned tt).
End Primitives.

(** ** The fs-extra service
    ([src/backend/src/upgrade/upgrade.service.ts], lines 1-319) *)
Module FsExtra.
Section Service.
Context {W : Type} `{Host W}.
(** [this.modules] *)
Variable modules : list ModuleConfig.

Definition gitCloneOrPull (module : ModuleConfig) (targetDir : string) : M W unit :=
  let repoUrl := "https://github.com/" ++ repo module ++ ".git" in
  let branch := opt_or_else (branch module) "main" in
  let gitDir := path_join targetDir ".git" in
  b <- pathExists gitDir ;;
  if b then
    execAsync ("cd " ++ targetDir ++ " && git fetch origin && git checkout "
               ++ branch ++ " && git pull origin " ++ branch) defaultMaxBuffer ;;
    ret tt
  else
    execAsync ("git clone --branch " ++ branch ++ " " ++ repoUrl ++ " " ++ targetDir)
              defaultMaxBuffer ;;
    ret tt.

Definition npmInstall (dir : string) : M W unit :=
  let packageJson := path_join dir "package.json" in
  b <- pathExists packageJson ;;
  if b then
    execAsync ("cd " ++ dir ++ " && npm ci --no-audit --no-fund") defaultMaxBuffer ;;
    ret tt
  else ret tt.

Definition buildProject (dir buildCommand : string) : M W unit :=
  execAsync ("cd " ++ dir ++ " && " ++ buildCommand) (1024 * 1024 * 10) ;;
  ret tt.

Definition backupCurrent (deployPath moduleName : string) : M W unit :=
  b <- pathExists deployPath ;;
  if b then
    stamp <- new_Date_toISOString ;;
    let backupDir :=
      path_join (path_join "/var/www/backups" moduleName) (replace_colons stamp) in
    copy deployPath backupDir
  else ret tt.

(** The [for] loop of [deployBuild] over [possibleDirs]; [buildOutput] is
    the value the variable holds when the loop is entered. *)
Fixpoint probeDirs (sourceDir : string) (possibleDirs : list string)
         (buildOutput : string) : M W string :=
  match possibleDirs with
  | [] => ret buildOutput
  | dir :: rest =>
      let testPath := path_join sourceDir dir in
      b <- pathExists testPath ;;
      if b then ret testPath else probeDirs sourceDir rest buildOutput
  end.

(** The first half of [deployBuild]: the value of [buildOutput] when the
    [if (!buildOutput)] test is reached. *)
Definition findBuildOutput (sourceDir : string) (type : ModuleType) : M W string :=
  match type with
  | frontend | microfrontend =>
      probeDirs sourceDir ["dist"; "build"; "out"; "public"] ""
  | backend =>
      let distPath := path_join sourceDir "dist" in
      b <- pathExists distPath ;;
      ret (if b then distPath else sourceDir)
  end.

(** The second half of [deployBuild]: empty or create the target, then
    copy the build output into it. *)
Definition replaceTarget (buildOutput targetDir : string) : M W unit :=
  b <- pathExists targetDir ;;
  (if b then emptyDir targetDir else ensureDir targetDir) ;;
  copy buildOutput targetDir.

Definition deployBuild (sourceDir targetDir : string) (type : ModuleType) : M W unit :=
  buildOutput <- findBuildOutput sourceDir type ;;
  if buildOutput =? "" then throw "未找到构建输出目录"
  else replaceTarget buildOutput targetDir.

Definition getVersion (dir : string) : M W string :=
  tryCatch
    (let packageJson := path_join dir "package.json" in
     b <- pathExists packageJson ;;
     if b then
       pkg <- readJson packageJson ;;
       ret (opt_or_else (pkg_version pkg) "unknown")
     else
       stdout <- execAsync ("cd " ++ dir
                   ++ " && git describe --tags --abbrev=0 || git rev-parse --short HEAD")
                   defaultMaxBuffer ;;
       ret (trim stdout))
    (fun _ => ret "unknown").

Definition getCurrentVersion (deployPath : string) : M W string :=
  let packageJson := path_join deployPath "package.json" in
  b <- pathExists packageJson ;;
  if b then
    pkg <- readJson packageJson ;;
    ret (opt_or_else (pkg_version pkg) "unknown")
  else ret "unknown".

Definition getGitLatestVersion (repo : string) : M W string :=
  tryCatch
    (stdout <- execAsync ("git ls-remote --tags --sort=" ++ String "034" "v:refname"
                 ++ String "034" (" https://github.com/" ++ repo ++ ".git | tail -n1"))
                 defaultMaxBuffer ;;
     match (if stdout =? "" then None else match_refs_tags stdout) with
     | Some tag => ret (strip_peel tag)
     | None =>
         commitStdout <- execAsync ("git ls-remote https://github.com/" ++ repo
                           ++ ".git HEAD | cut -f1") defaultMaxBuffer ;;
         ret (or_else (substring 0 7 (trim commitStdout)) "unknown")
     end)
    (fun _ => ret "unknown").

Definition getLastModifiedTime (dir : string) : M W (option string) :=
  tryCatch
    (mtime <- stat_mtime dir ;;
     ret (Some (h_iso mtime)))
    (fun _ => ret None).

Definition cleanupTemp (tempDir : string) : M W unit :=
  tryCatch
    (remove tempDir)
    (fun error => logger LogWarn ("清理临时目录失败: " ++ tempDir) (Some error)).

(** The [try] block of [upgradeModule]. *)
Definition upgradeSteps (module : ModuleConfig) (moduleName tempDir : string)
           (startTime : Z) : M W UpgradeResult :=
  logger LogInfo ("开始升级模块: " ++ moduleName) None ;;
  ensureDir tempDir ;;
  gitCloneOrPull module tempDir ;;
  npmInstall tempDir ;;
  buildProject tempDir (buildCommand module) ;;
  backupCurrent (deployPath module) moduleName ;;
  deployBuild tempDir (deployPath module) (type module) ;;
  version <- getVersion tempDir ;;
  endTime <- date_now ;;
  let duration := (endTime - startTime)%Z in
  logger LogInfo ("模块 " ++ moduleName ++ " 升级成功，耗时: " ++ show_Z duration ++ "ms")
         None ;;
  stamp <- new_Date_toISOString ;;
  ret {| success := true;
         module := moduleName;
         message := "升级成功，版本: " ++ version;
         timestamp := stamp;
         version := Some version |}.

(** The [catch] block of [upgradeModule]: log, then rethrow. *)
Definition upgradeFailed (moduleName : string) (error : Error) : M W UpgradeResult :=
  logger LogError ("模块 " ++ moduleName ++ " 升级失败:") (Some error) ;;
  throw error.

Definition upgradeModule (moduleName : string) : M W UpgradeResult :=
  match find (fun m => name m =? moduleName) modules with
  | None =>
      stamp <- new_Date_toISOString ;;
      ret {| success := false;
             module := moduleName;
             message := "模块 " ++ moduleName ++ " 未配置";
             timestamp := stamp;
             version := None |}
  | Some module =>
      let tempDir := path_join "/tmp/upgrade" moduleName in
      startTime <- date_now ;;
      tryFinally
        (tryCatch (upgradeSteps module moduleName tempDir startTime)
                  (upgradeFailed moduleName))
        (cleanupTemp tempDir)
  end.

(** [modulesToUpgrade] of [batchUpgrade]; an array, even an empty one, is
    truthy, so only an absent argument selects every module. *)
Definition modulesToUpgrade (moduleNames : option (list string)) : list ModuleConfig :=
  match moduleNames with
  | Some names => filter (fun m => existsb (String.eqb (name m)) names) modules
  | None => modules
  end.

Definition batchUpgrade (moduleNames : option (list string)) : M W (list UpgradeResult) :=
  forEachPush (fun module => upgradeModule (name module)) (modulesToUpgrade moduleNames).

(** The body of the loop of [getModulesStatus]. *)
Definition moduleStatus (module : ModuleConfig) : M W ModuleStatus :=
  tryCatch
    (currentVersion <- getCurrentVersion (deployPath module) ;;
     latestVersion <- getGitLatestVersion (repo module) ;;
     lastUpdated <- getLastModifiedTime (deployPath module) ;;
     ret {| s_name := name module;
            s_type := type module;
            currentVersion := currentVersion;
            latestVersion := latestVersion;
            s_deployPath := deployPath module;
            status := if currentVersion =? latestVersion then "up-to-date" else "outdated";
            lastUpdated := lastUpdated;
            error := None |})
    (fun error =>
       logger ConsoleError "getModulesStatus" (Some error) ;;
       throw error).

Definition getModulesStatus : M W (list ModuleStatus) :=
  forEachPush moduleStatus modules.
End Service.
End FsExtra.

(** ** The node:fs service
    ([src/backend/src/upgrade/upgrade.service.ts], lines 321-677) *)
Module NodeFs.
Section Service.
Context {W : Type} `{Host W}.
(** [this.modules], read from [modules.json] *)
Variable modules : list ModuleConfig.

(** [fs.mkdir(p, { recursive: true })], [fs.cp(src, dst, { recursive: true })]
    and [fs.rm(p, { recursive: true, force: true })] *)
Definition mkdir_recursive (p : string) : M W unit := ensureDir p.
Definition cp_recursive (src dst : string) : M W unit := copy src dst.
Definition rm_recursive_force (p : string) : M W unit := remove p.

(** Lines 479-494; [existsSync] for [fs.pathExists], otherwise the text of
    the fs-extra service. *)
Definition gitCloneOrPull (module : ModuleConfig) (targetDir : string) : M W unit :=
  FsExtra.gitCloneOrPull module targetDir.

Definition npmInstall (dir : string) : M W unit :=
  let packageJson := path_join dir "package.json" in
  tryCatch
    (access packageJson ;;
     execAsync ("cd " ++ dir ++ " && npm ci --no-audit --no-fund") defaultMaxBuffer ;;
     ret tt)
    (fun _ => ret tt).

Definition buildProject (dir buildCommand : string) : M W unit :=
  execAsync ("cd " ++ dir ++ " && " ++ buildCommand) (1024 * 1024 * 10) ;;
  ret tt.

Definition backupCurrent (deployPath moduleName : string) : M W unit :=
  tryCatch
    (access deployPath ;;
     stamp <- new_Date_toISOString ;;
     let backupDir :=
       path_join (path_join "/var/www/backups" moduleName) (replace_colons stamp) in
     mkdir_recursive (path_dirname backupDir) ;;
     cp_recursive deployPath backupDir)
    (fun _ => ret tt).

Fixpoint probeDirs (sourceDir : string) (possibleDirs : list string)
         (buildOutput : string) : M W string :=
  match possibleDirs with
  | [] => ret buildOutput
  | dir :: rest =>
      let testPath := path_join sourceDir dir in
      found <- tryCatch (access testPath ;; ret true) (fun _ => ret false) ;;
      if found then ret testPath else probeDirs sourceDir rest buildOutput
  end.

Definition findBuildOutput (sourceDir : string) (type : ModuleType) : M W string :=
  match type with
  | frontend | microfrontend =>
      probeDirs sourceDir ["dist"; "build"; "out"; "public"] ""
  | backend =>
      let distPath := path_join sourceDir "dist" in
      tryCatch (access distPath ;; ret distPath) (fun _ => ret sourceDir)
  end.

(** The second half of [deployBuild]: remove the target if it is there,
    create it, then copy the build output into it. *)
Definition replaceTarget (buildOutput targetDir : string) : M W unit :=
  tryCatch (access targetDir ;; rm_recursive_force targetDir) (fun _ => ret tt) ;;
  mkdir_recursive targetDir ;;
  cp_recursive buildOutput targetDir.

Definition deployBuild (sourceDir targetDir : string) (type : ModuleType) : M W unit :=
  buildOutput <- findBuildOutput sourceDir type ;;
  if buildOutput =? "" then throw "未找到构建输出目录"
  else replaceTarget buildOutput targetDir.

Definition getVersion (dir : string) : M W string :=
  tryCatch
    (let packageJson := path_join dir "package.json" in
     access packageJson ;;
     pkg <- readJson packageJson ;;
     ret (opt_or_else (pkg_version pkg) "unknown"))
    (fun _ =>
       tryCatch
         (stdout <- execAsync ("cd " ++ dir
                     ++ " && git describe --tags --abbrev=0 || git rev-parse --short HEAD")
                     defaultMaxBuffer ;;
          ret (trim stdout))
         (fun _ => ret "unknown")).

Definition getCurrentVersion (deployPath : string) : M W string :=
  tryCatch
    (let packageJson := path_join deployPath "package.json" in
     access packageJson ;;
     pkg <- readJson packageJson ;;
     ret (opt_or_else (pkg_version pkg) "unknown"))
    (fun _ => ret "unknown").

(** Lines 631-653 and 658-665: the text of the fs-extra service. *)
Definition getGitLatestVersion (repo : string) : M W string :=
  FsExtra.getGitLatestVersion repo.
Definition getLastModifiedTime (dir : string) : M W (option string) :=
  FsExtra.getLastModifiedTime dir.

Definition cleanupTemp (tempDir : string) : M W unit :=
  tryCatch
    (rm_recursive_force tempDir)
    (fun error => logger LogWarn ("清理临时目录失败: " ++ tempDir) (Some error)).

Definition upgradeSteps (module : ModuleConfig) (moduleName tempDir : string)
           (startTime : Z) : M W UpgradeResult :=
  logger LogInfo ("开始升级模块: " ++ moduleName) None ;;
  mkdir_recursive tempDir ;;
  gitCloneOrPull module tempDir ;;
  npmInstall tempDir ;;
  buildProject tempDir (buildCommand module) ;;
  backupCurrent (deployPath module) moduleName ;;
  deployBuild tempDir (deployPath module) (type module) ;;
  version <- getVersion tempDir ;;
  endTime <- date_now ;;
  let duration := (endTime - startTime)%Z in
  logger LogInfo ("模块 " ++ moduleName ++ " 升级成功，耗时: " ++ show_Z duration ++ "ms")
         None ;;
  stamp <- new_Date_toISOString ;;
  ret {| success := true;
         module := moduleName;
         message := "升级成功，版本: " ++ version;
         timestamp := stamp;
         version := Some version |}.

Definition upgradeFailed (moduleName : string) (error : Error) : M W UpgradeResult :=
  logger LogError ("模块 " ++ moduleName ++ " 升级失败:") (Some error) ;;
  throw error.

Definition upgradeModule (moduleName : string) : M W UpgradeResult :=
  match find (fun m => name m =? moduleName) modules with
  | None =>
      stamp <- new_Date_toISOString ;;
      ret {| success := false;
             module := moduleName;
             message := "模块 " ++ moduleName ++ " 未配置";
             timestamp := stamp;
             version := None |}
  | Some module =>
      let tempDir := path_join "/tmp/upgrade" moduleName in
      startTime <- date_now ;;
      tryFinally
        (tryCatch (upgradeSteps module moduleName tempDir startTime)
                  (upgradeFailed moduleName))
        (cleanupTemp tempDir)
  end.

Definition modulesToUpgrade (moduleNames : option (list string)) : list ModuleConfig :=
  match moduleNames with
  | Some names => filter (fun m => existsb (String.eqb (name m)) names) modules
  | None => modules
  end.

Definition batchUpgrade (moduleNames : option (list string)) : M W (list UpgradeResult) :=
  forEachPush (fun module => upgradeModule (name module)) (modulesToUpgrade moduleNames).

Definition moduleStatus (module : ModuleConfig) : M W ModuleStatus :=
  tryCatch
    (currentVersion <- getCurrentVersion (deployPath module) ;;
     latestVersion <- getGitLatestVersion (repo module) ;;
     lastUpdated <- getLastModifiedTime (deployPath module) ;;
     ret {| s_name := name module;
            s_type := type module;
            currentVersion := currentVersion;
            latestVersion := latestVersion;
            s_deployPath := deployPath module;
            status := if currentVersion =? latestVersion then "up-to-date" else "outdated";
            lastUpdated := lastUpdated;
            error := None |})
    (fun error =>
       logger ConsoleError "getModulesStatus" (Some error) ;;
       throw error).

Definition getModulesStatus : M W (list ModuleStatus) :=
  forEachPush moduleStatus modules.
End Service.
End NodeFs.

(** ** The service of the design note ([src/unnamed/part_003], lines 8-366)

    Its private helpers (lines 192-365) are the text of the fs-extra
    service's and are taken from there. *)
Module Draft.
Section Service.
Context {W : Type} `{Host W}.
(** [this.modules]; the note initialises it with [defaultModules]. *)
Variable modules : list ModuleConfig.

Definition upgradeSteps (module : ModuleConfig) (moduleName tempDir : string)
           (startTime : Z) : M W UpgradeResult :=
  FsExtra.upgradeSteps module moduleName tempDir startTime.

(** The [catch] block: log, then return the failure as a result. *)
Definition upgradeFailed (moduleName : string) (error : Error) : M W UpgradeResult :=
  logger LogError ("模块 " ++ moduleName ++ " 升级失败:") (Some error) ;;
  stamp <- new_Date_toISOString ;;
  ret {| success := false;
         module := moduleName;
         message := "升级失败: " ++ error;
         timestamp := stamp;
         version := None |}.

Definition upgradeModule (moduleName : string) : M W UpgradeResult :=
  match find (fun m => name m =? moduleName) modules with
  | None =>
      stamp <- new_Date_toISOString ;;
      ret {| success := false;
             module := moduleName;
             message := "模块 " ++ moduleName ++ " 未配置";
             timestamp := stamp;
             version := None |}
  | Some module =>
      let tempDir := path_join "/tmp/upgrade" moduleName in
      startTime <- date_now ;;
      tryFinally
        (tryCatch (upgradeSteps module moduleName tempDir startTime)
                  (upgradeFailed moduleName))
        (FsExtra.cleanupTemp tempDir)
  end.

Definition modulesToUpgrade (moduleNames : option (list string)) : list ModuleConfig :=
  match moduleNames with
  | Some names => filter (fun m => existsb (String.eqb (name m)) names) modules
  | None => modules
  end.

Definition batchUpgrade (moduleNames : option (list string)) : M W (list UpgradeResult) :=
  forEachPush (fun module => upgradeModule (name module)) (modulesToUpgrade moduleNames).

(** The body of the loop of [getModulesStatus]: the [catch] block pushes an
    error entry. *)
Definition moduleStatus (module : ModuleConfig) : M W ModuleStatus :=
  tryCatch
    (currentVersion <- FsExtra.getCurrentVersion (deployPath module) ;;
     latestVersion <- FsExtra.getGitLatestVersion (repo module) ;;
     lastUpdated <- FsExtra.getLastModifiedTime (deployPath module) ;;
     ret {| s_name := name module;
            s_type := type module;
            currentVersion := currentVersion;
            latestVersion := latestVersion;
            s_deployPath := deployPath module;
            status := if currentVersion =? latestVersion then "up-to-date" else "outdated";
            lastUpdated := lastUpdated;
            error := None |})
    (fun error =>
       ret {| s_name := name module;
              s_type := type module;
              currentVersion := "unknown";
              latestVersion := "unknown";
              s_deployPath := deployPath module;
              status := "error";
              lastUpdated := None;
              error := Some error |}).

Definition getModulesStatus : M W (list ModuleStatus) :=
  forEachPush moduleStatus modules.
End Service.

(** Lines 38-67 of the note. *)
Definition defaultModules : list ModuleConfig :=
[ {| name := "microfrontend-admin"; repo := "your-org/admin-app";
     type := microfrontend; deployPath := "/var/www/microfrontends/admin";
     buildCommand := "npm run build"; branch := None |};
  {| name := "microfrontend-user"; repo := "your-org/user-app";
     type := microfrontend; deployPath := "/var/www/microfrontends/user";
     buildCommand := "npm run build"; branch := None |};
  {| name := "auth-service"; repo := "your-org/auth-service";
     type := backend; deployPath := "/var/www/services/auth";
     buildCommand := "npm run build"; branch := None |};
  {| name := "order-service"; repo := "your-org/order-service";
     type := backend; deployPath := "/var/www/services/order";
     buildCommand := "npm run build"; branch := None |} ].
End Draft.

(** ** A small concrete host

    A machine with a set of existing paths, manifests, directories on a
    full device, paths that cannot be removed, and a table giving what
    external commands do. It instantiates [Host] for the examples. *)
Module Toy.
(** What a command whose text contains [pattern] does. *)
Record Rule := {
  pattern : string;
  outcome : Completion string;
  creates : list string
}.

Record Machine := {
  files : list string;
  manifests : list (string * Completion PackageJson);
  nospace : list string;
  busy : list string;
  commands : list Rule;
  clock : Z
}.

(** Whether the text [t] occurs in [s]. *)
Definition mentions (s t : string) : bool :=
  match index 0 t s with Some _ => true | None => false end.

Definition under (dir p : string) : bool := (p =? dir) || prefix (dir ++ "/") p.

Definition exists_ (p : string) (w : Machine) : bool :=
  existsb (String.eqb p) (files w).

Definition has_room (p : string) (w : Machine) : bool :=
  negb (existsb (fun d => under d p) (nospace w)).

Definition with_files (w : Machine) (fs : list string) : Machine :=
  {| files := fs; manifests := manifests w; nospace := nospace w;
     busy := busy w; commands := commands w; clock := clock w |}.

Definition add_path (p : string) (fs : list string) : list string :=
  if existsb (String.eqb p) fs then fs else fs ++ [p].

Definition mkdirp (p : string) (w : Machine) : Machine * Completion unit :=
  (with_files w (add_path p (files w)), Returned tt).

Definition reroot (src dst p : string) : string :=
  dst ++ substring (String.length src) (String.length p - String.length src) p.

Definition copy (src dst : string) (w : Machine) : Machine * Completion unit :=
  if negb (exists_ src w) then
    (w, Thrown ("ENOENT: no such file or directory, lstat '" ++ src ++ "'"))
  else if has_room dst w then
    (with_files w
       (fold_left (fun fs p => add_path (reroot src dst p) fs)
                  (filter (under src) (files w)) (files w)),
     Returned tt)
  else (w, Thrown ("ENOSPC: no space left on device, copyfile '" ++ src
                   ++ "' -> '" ++ dst ++ "'")).

Definition emptyDir (p : string) (w : Machine) : Machine * Completion unit :=
  (with_files w
     (add_path p (filter (fun q => negb (prefix (p ++ "/") q)) (files w))),
   Returned tt).

Definition remove (p : string) (w : Machine) : Machine * Completion unit :=
  if existsb (fun b => under p b) (busy w) then
    (w, Thrown ("EBUSY: resource busy or locked, rmdir '" ++ p ++ "'"))
  else (with_files w (filter (fun q => negb (under p q)) (files w)), Returned tt).

Fixpoint lookup {A} (p : string) (l : list (string * A)) : option A :=
  match l with
  | [] => None
  | (k, v) :: rest => if k =? p then Some v else lookup p rest
  end.

Definition readJson (p : string) (w : Machine) : Completion PackageJson :=
  match lookup p (manifests w) with
  | Some r => r
  | None => Thrown ("ENOENT: no such file or directory, open '" ++ p ++ "'")
  end.

Definition mtime (p : string) (w : Machine) : Completion Z :=
  if exists_ p w then Returned (clock w)
  else Thrown ("ENOENT: no such file or directory, stat '" ++ p ++ "'").

Definition tick (w : Machine) (fs : list string) : Machine :=
  {| files := fs; manifests := manifests w; nospace := nospace w;
     busy := busy w; commands := commands w; clock := clock w + 1000 |}.

Definition exec (cmd : string) (maxBuffer : Z) (w : Machine)
  : Machine * Completion string :=
  match find (fun r => mentions cmd (pattern r)) (commands w) with
  | Some r =>
      match outcome r with
      | Returned out =>
          if (Z.of_nat (String.length out) <=? maxBuffer)%Z then
            (tick w (fold_left (fun fs p => add_path p fs) (creates r) (files w)),
             Returned out)
          else (tick w (files w), Thrown "stdout maxBuffer length exceeded")
      | Thrown e => (tick w (files w), Thrown e)
      end
  | None => (tick w (files w), Returned "")
  end.

(** The clock of this machine prints the millisecond count. *)
Definition iso (t : Z) : string := "T+" ++ show_Z t ++ "ms".

#[global] Instance host : Host Machine := {
  h_exists := exists_;
  h_mkdirp := mkdirp;
  h_copy := copy;
  h_emptyDir := emptyDir;
  h_remove := remove;
  h_readJson := readJson;
  h_mtime := mtime;
  h_exec := exec;
  h_now := clock;
  h_iso := iso
}.

Definition boot (w : Machine) : State Machine := mkState w [].
End Toy.

(** ** Scenarios used by the examples *)
Module Scenario.
Import Toy.

(** A backend module built with [make]. *)
Definition backendModule (n : string) : ModuleConfig :=
  {| name := n; repo := "org/" ++ n; type := backend;
     deployPath := "/var/www/deployments/" ++ n;
     buildCommand := "make"; branch := None |}.

Definition three : list ModuleConfig :=
  [backendModule "a"; backendModule "b"; backendModule "c"].

(** The remote of [b] cannot be reached; the repositories have no tag. *)
Definition unreachable_b : Machine :=
  {| files := ["/var/www/deployments/a"];
     manifests := [];
     nospace := [];
     busy := [];
     commands :=
       [ {| pattern := "org/b.git";
            outcome := Thrown "fatal: unable to access 'https://github.com/org/b.git/'";
            creates := [] |};
         {| pattern := "git rev-parse --short HEAD";
            outcome := Returned ("9f3c2d1" ++ String "010" "");
            creates := [] |} ];
     clock := 0 |}.

(** The workspace of [a] holds a clone with no manifest and no tag:
    [git describe] prints nothing and fails, and [git rev-parse --short HEAD]
    prints the revision abbreviated to twelve characters, as git does in a
    repository with many objects. *)
Definition untagged_clone : Machine :=
  {| files := ["/tmp/upgrade/a"; "/tmp/upgrade/a/.git"; "/tmp/upgrade/a/Makefile"];
     manifests := [];
     nospace := [];
     busy := [];
     commands :=
       [ {| pattern := "git rev-parse --short HEAD";
            outcome := Returned ("0123456789ab" ++ String "010" "");
            creates := [] |} ];
     clock := 0 |}.

(** The deployed manifest of [b] is not valid JSON. *)
Definition corrupt_manifest : Machine :=
  {| files := ["/var/www/deployments/b"; "/var/www/deployments/b/package.json"];
     manifests :=
       [("/var/www/deployments/b/package.json",
         Thrown "Unexpected token } in JSON at position 17")];
     nospace := [];
     busy := [];
     commands := [];
     clock := 0 |}.

(** [a] is deployed and the device of the backup root is full. *)
Definition backup_no_space : Machine :=
  {| files := ["/var/www/deployments/a"; "/var/www/deployments/a/main.js"];
     manifests := [];
     nospace := ["/var/www/backups"];
     busy := [];
     commands :=
       [ {| pattern := "git rev-parse --short HEAD";
            outcome := Returned ("9f3c2d1" ++ String "010" "");
            creates := [] |} ];
     clock := 0 |}.

(** The clone brings a manifest and [npm ci] exits with 1. *)
Definition npm_fails : Machine :=
  {| files := [];
     manifests :=
       [("/tmp/upgrade/a/package.json", Returned {| pkg_version := Some "1.4.2" |})];
     nospace := [];
     busy := [];
     commands :=
       [ {| pattern := "git clone";
            outcome := Returned "";
            creates := ["/tmp/upgrade/a/.git"; "/tmp/upgrade/a/package.json"] |};
         {| pattern := "npm ci";
            outcome := Thrown "Command failed: cd /tmp/upgrade/a && npm ci --no-audit --no-fund";
            creates := [] |} ];
     clock := 0 |}.

(** The state of [npm_fails] once the clone of [a] is done. *)
Definition npm_fails_cloned : State Machine :=
  fst (FsExtra.gitCloneOrPull (backendModule "a") "/tmp/upgrade/a" (boot npm_fails)).

(** The remote of [a] has no tag: the listing of tags prints nothing and
    the listing of its head prints the revision. *)
Definition head_only : Machine :=
  {| files := [];
     manifests := [];
     nospace := [];
     busy := [];
     commands :=
       [ {| pattern := "git ls-remote --tags";
            outcome := Returned "";
            creates := [] |};
         {| pattern := "HEAD | cut -f1";
            outcome := Returned ("4b825dc642cb6eb9a060e54bf8d69288fbee4904"
                                 ++ String "010" "");
            creates := [] |} ];
     clock := 0 |}.

(** The last tag of the remote of [a] is the peeled [v2.1.0]. *)
Definition tagged_remote : Machine :=
  {| files := [];
     manifests := [];
     nospace := [];
     busy := [];
     commands :=
       [ {| pattern := "git ls-remote --tags";
            outcome := Returned ("1a2b3c4d5e6f7a8b9c0d1e2f3a4b5c6d7e8f9a0b" ++ String "009" "refs/tags/v2.1.0^{}"
                                 ++ String "010" "");
            creates := [] |} ];
     clock := 0 |}.

(** [a] is deployed, its build is ready in the workspace, and the deploy
    path is busy and cannot be removed. *)
Definition busy_deployment : Machine :=
  {| files := ["/var/www/deployments/a"; "/var/www/deployments/a/old.js";
               "/tmp/upgrade/a"; "/tmp/upgrade/a/dist"; "/tmp/upgrade/a/dist/new.js"];
     manifests := [];
     nospace := [];
     busy := ["/var/www/deployments/a"];
     commands := [];
     clock := 0 |}.

(** No remote answers. [git ls-remote] fails, and the two command lines of
    [getGitLatestVersion], which end in [| tail -n1] and [| cut -f1], exit
    with the status of their last command: they resolve and print nothing.
    [a] is deployed at version 1.0.0; [b] and [c] are not deployed. *)
Definition offline : Machine :=
  {| files := ["/var/www/deployments/a"; "/var/www/deployments/a/package.json"];
     manifests :=
       [("/var/www/deployments/a/package.json",
         Returned {| pkg_version := Some "1.0.0" |})];
     nospace := [];
     busy := [];
     commands :=
       [ {| pattern := "git ls-remote";
            outcome := Returned "";
            creates := [] |} ];
     clock := 0 |}.

(** The workspace of [a] cannot be removed. *)
Definition busy_workspace : Machine :=
  {| files := [];
     manifests := [];
     nospace := [];
     busy := ["/tmp/upgrade/a"];
     commands := [];
     clock := 0 |}.
End Scenario.

(** ** Vocabulary of the statements *)

(** The probes the discovery loop of [deployBuild] makes over [dirs], with
    their answers: it stops after the first directory that exists. *)
Fixpoint probeTrace (present : string -> bool) (sourceDir : string)
         (dirs : list string) : list Event :=
  match dirs with
  | [] => []
  | dir :: rest =>
      let testPath := path_join sourceDir dir in
      Sys (Probe testPath) (present testPath)
      :: (if present testPath then [] else probeTrace present sourceDir rest)
  end.

(** [possibleDirs] of [deployBuild]. *)
Definition possibleDirs : list string := ["dist"; "build"; "out"; "public"].

(** The first of [dirs] that exists under [sourceDir], and the state the
    discovery loop leaves: the host untouched, the probes added to the
    trace. *)
Definition firstPresent {W : Type} `{Host W} (sourceDir : string)
           (dirs : list string) (w : W) : option string :=
  find (fun dir => h_exists (path_join sourceDir dir) w) dirs.

Definition afterProbes {W : Type} `{Host W} (sourceDir : string)
           (dirs : list string) (s : State W) : State W :=
  mkState (world s)
          (trace s ++ probeTrace (fun p => h_exists p (world s)) sourceDir dirs).

(** The command line [getVersion] runs when no manifest is read. *)
Definition versionCommand (dir : string) : string :=
  "cd " ++ dir ++ " && git describe --tags --abbrev=0 || git rev-parse --short HEAD".

(** The command line of [npmInstall]. *)
Definition installCommand (dir : string) : string :=
  "cd " ++ dir ++ " && npm ci --no-audit --no-fund".

(** The result of a successful run of the pipeline for [moduleName]. *)
Definition succeeded (moduleName : string) (r : UpgradeResult) : Prop :=
  success r = true /\ module r = moduleName /\
  exists v, version r = Some v /\ message r = "升级成功，版本: " ++ v.

(** The directory [backupCurrent] copies the deployment to, in a state
    [s]. *)
Definition backupDirAt {W : Type} `{Host W} (moduleName : string) (s : State W) : string :=
  path_join (path_join "/var/www/backups" moduleName)
            (replace_colons (h_iso (h_now (world s)))).

(** The loop of [batchUpgrade] over [selected], started in [s], stopped at
    the first module whose upgrade threw: the modules [before] it were
    upgraded, the upgrade of [m] threw [e] and left the state [s'], and the
    modules [after] it were not visited. *)
Definition stopsAtFirstFailure {W : Type} (upgrade : string -> M W UpgradeResult)
           (selected : list ModuleConfig) (s s' : State W) (e : Error) : Prop :=
  exists before m after s0 rs,
    selected = (before ++ m :: after)%list /\
    forEachPush (fun module => upgrade (name module)) before s = (s0, Returned rs) /\
    upgrade (name m) s0 = (s', Thrown e).

(** What a returned result of [upgradeModule] says about the module [x] it
    was asked to upgrade, in the fs-extra and in the node:fs service: it is
    about that name, and for a configured module it is a success. *)
Definition resultFor (modules : list ModuleConfig) (x : ModuleConfig)
           (r : UpgradeResult) : Prop :=
  module r = name x /\ (In x modules -> success r = true).

(** The first command line of [getGitLatestVersion]. *)
Definition tagsCommand (repo : string) : string :=
  "git ls-remote --tags --sort=" ++ String "034" "v:refname"
  ++ String "034" (" https://github.com/" ++ repo ++ ".git | tail -n1").

(** The manifest of a deployment. *)
Definition deployedManifest (module : ModuleConfig) : string :=
  path_join (deployPath module) "package.json".

(** The contract of [fs.remove] and of [fs.rm] with [recursive] and [force]:
    when the call resolves, the path is gone. *)
Definition removal_contract (W : Type) `{Host W} : Prop :=
  forall p w w', h_remove p w = (w', Returned tt) -> h_exists p w' = false.

(** [after] is [before] followed by the cleanup of [tempDir]: the completion
    is the same, the removal is the last call made, a failed removal leaves
    only a warning, and a successful one leaves no directory. *)
Definition cleaned_up {W : Type} `{Host W} {A : Type} (tempDir : string)
           (before after : State W * Completion A) : Prop :=
  snd after = snd before /\
  match h_remove tempDir (world (fst before)) with
  | (w, Returned _) =>
      world (fst after) = w /\
      trace (fst after) = (trace (fst before) ++ [Sys (RemoveTree tempDir) true])%list /\
      h_exists tempDir (world (fst after)) = false
  | (w, Thrown e) =>
      world (fst after) = w /\
      trace (fst after) =
        (trace (fst before)
         ++ [Sys (RemoveTree tempDir) false;
             Log LogWarn ("清理临时目录失败: " ++ tempDir) (Some e)])%list
  end.

(** ** The controller ([src/unnamed/part_000], both texts)

    The controller is given the service by its constructor; [UpgradeService]
    is what it uses of it. *)
Class UpgradeService (W : Type) := {
  svc_upgradeModule : string -> M W UpgradeResult;
  svc_batchUpgrade : option (list string) -> M W (list UpgradeResult);
  svc_getModulesStatus : M W (list ModuleStatus)
}.

(** The body of [POST upgrade]: [{ module?: string; modules?: string[] }]. *)
Record UpgradeBody := {
  body_module : option string;
  body_modules : option (list string)
}.

(** [UpgradeResult | UpgradeResult[]] *)
Inductive UpgradeResponse :=
| Single (r : UpgradeResult)
| Many (rs : list UpgradeResult).

Module UpgradeController.
Section Controller.
Context {W : Type} `{Host W}.
(** [this.upgradeService] *)
Variable upgradeService : UpgradeService W.

(** [if (body.module) ... else if (body.modules) ... else ...]: an absent
    and an empty [module] are both falsy; an array is truthy even when
    empty. *)
Definition upgrade (body : UpgradeBody) : M W UpgradeResponse :=
  let otherwise :=
    match body_modules body with
    | Some modules => rs <- svc_batchUpgrade (Some modules) ;; ret (Many rs)
    | None => rs <- svc_batchUpgrade None ;; ret (Many rs)
    end in
  match body_module body with
  | Some moduleName =>
      if moduleName =? "" then otherwise
      else r <- svc_upgradeModule moduleName ;; ret (Single r)
  | None => otherwise
  end.
End Controller.
End UpgradeController.

(** The three services, as the controller sees them. *)
Definition FsExtra_service {W : Type} `{Host W} (modules : list ModuleConfig)
  : UpgradeService W :=
  {| svc_upgradeModule := FsExtra.upgradeModule modules;
     svc_batchUpgrade := FsExtra.batchUpgrade modules;
     svc_getModulesStatus := FsExtra.getModulesStatus modules |}.

Definition NodeFs_service {W : Type} `{Host W} (modules : list ModuleConfig)
  : UpgradeService W :=
  {| svc_upgradeModule := NodeFs.upgradeModule modules;
     svc_batchUpgrade := NodeFs.batchUpgrade modules;
     svc_getModulesStatus := NodeFs.getModulesStatus modules |}.

Definition Draft_service {W : Type} `{Host W} (modules : list ModuleConfig)
  : UpgradeService W :=
  {| svc_upgradeModule := Draft.upgradeModule modules;
     svc_batchUpgrade := Draft.batchUpgrade modules;
     svc_getModulesStatus := Draft.getModulesStatus modules |}.

(** ** A logic of traces

    [ensures P Q m]: whatever the host does, running [m] only adds events
    satisfying [P] to the trace, and a value it returns satisfies [Q]. *)
Definition grows {W : Type} (P : Event -> Prop) (s s' : State W) : Prop :=
  exists evs, trace s' = (trace s ++ evs)%list /\ Forall P evs.

Definition ensures {W A : Type} (P : Event -> Prop) (Q : A -> Prop) (m : M W A) : Prop :=
  forall s, grows P s (fst (m s)) /\ (forall a, snd (m s) = Returned a -> Q a).

Definition anything {A : Type} (_ : A) : Prop := True.

(** Calls that only read the file system, the listing of a remote by
    [git ls-remote], and lines given to the logger. *)
Definition readOnly (e : Event) : Prop :=
  match e with
  | Sys (Probe _) _ | Sys (ReadJson _) _ | Sys (Stat _) _ => True
  | Sys (Exec cmd) _ => prefix "git ls-remote " cmd = true
  | Sys _ _ => False
  | Log _ _ _ => True
  end.

(** Calls that copy, empty or remove nothing. *)
Definition quiet (e : Event) : Prop :=
  match e with
  | Sys (CopyTree _ _) _ | Sys (EmptyDir _) _ | Sys (RemoveTree _) _ => False
  | _ => True
  end.

(** The workspace, the backup directory and the candidate build outputs of
    a module. *)
Definition workspaceOf (moduleName : string) : string :=
  path_join "/tmp/upgrade" moduleName.

Definition backupRootOf (moduleName : string) : string :=
  path_join "/var/www/backups" moduleName.

Definition isBuildOutput (moduleName src : string) : Prop :=
  src = workspaceOf moduleName \/
  exists dir, In dir possibleDirs /\ src = path_join (workspaceOf moduleName) dir.

(** Where the fs-extra service writes when it upgrades [module] under the
    name [moduleName]: it creates the workspace and the deploy path, copies
    the deployment to a backup directory of the module and a build output
    to the deploy path, empties the deploy path, and removes the workspace;
    nothing else. *)
Definition confined_FsExtra (module : ModuleConfig) (moduleName : string)
           (e : Event) : Prop :=
  match e with
  | Sys (MkdirP p) _ => p = workspaceOf moduleName \/ p = deployPath module
  | Sys (CopyTree src dst) _ =>
      (src = deployPath module /\
       exists stamp, dst = path_join (backupRootOf moduleName) (replace_colons stamp)) \/
      (isBuildOutput moduleName src /\ dst = deployPath module)
  | Sys (EmptyDir p) _ => p = deployPath module
  | Sys (RemoveTree p) _ => p = workspaceOf moduleName
  | _ => True
  end.

(** The same for the node:fs service, which also creates the parent of the
    backup directory and removes the deploy path, and empties nothing. *)
Definition confined_NodeFs (module : ModuleConfig) (moduleName : string)
           (e : Event) : Prop :=
  match e with
  | Sys (MkdirP p) _ =>
      p = workspaceOf moduleName \/ p = deployPath module \/
      exists stamp,
        p = path_dirname (path_join (backupRootOf moduleName) (replace_colons stamp))
  | Sys (CopyTree src dst) _ =>
      (src = deployPath module /\
       exists stamp, dst = path_join (backupRootOf moduleName) (replace_colons stamp)) \/
      (isBuildOutput moduleName src /\ dst = deployPath module)
  | Sys (EmptyDir p) _ => False
  | Sys (RemoveTree p) _ => p = workspaceOf moduleName \/ p = deployPath module
  | _ => True
  end.

(** The events [evs] are gated by [gate]: either none of them copies,
    empties or removes anything, or [gate] occurs among them and none
    before it does. *)
Definition gatedBy (gate : Event) (evs : list Event) : Prop :=
  Forall quiet evs \/
  exists before after, evs = (before ++ gate :: after)%list /\ Forall quiet before.

(** The command line of [buildProject]. *)
Definition buildCommandLine (dir buildCommand : string) : string :=
  "cd " ++ dir ++ " && " ++ buildCommand.

(** The second command line of [getGitLatestVersion]. *)
Definition headCommand (repo : string) : string :=
  "git ls-remote https://github.com/" ++ repo ++ ".git HEAD | cut -f1".

(** The rule of [getModulesStatus] for an entry that is not an error
    entry: ["up-to-date"] exactly when the two versions are the same
    string. *)
Definition statusRule (st : ModuleStatus) : Prop :=
  error st = None ->
  (status st = "up-to-date" /\ currentVersion st = latestVersion st) \/
  (status st = "outdated" /\ currentVersion st <> latestVersion st).

(** No character of [s] is [c]. *)
Fixpoint lacks (c : ascii) (s : string) : bool :=
  match s with
  | EmptyString => true
  | String x s' => negb (Ascii.eqb x c) && lacks c s'
  end.

(** No character of [s] ends a line. *)
Fixpoint one_line (s : string) : bool :=
  match s with
  | EmptyString => true
  | String x s' => negb (is_newline x) && one_line s'
  end.

(** Probes, reads of a manifest, commands and log lines are allowed by
    [P]. *)
Definition harmless (P : Event -> Prop) : Prop :=
  (forall p ok, P (Sys (Probe p) ok)) /\
  (forall p ok, P (Sys (ReadJson p) ok)) /\
  (forall cmd ok, P (Sys (Exec cmd) ok)) /\
  (forall l msg err, P (Log l msg err)).

(** The end of a run of [upgradeModule]: the removal of the workspace and,
    when it failed, the warning. *)
Definition cleanupEvents (workspace : string) (evs : list Event) : Prop :=
  evs = [Sys (RemoveTree workspace) true] \/
  exists err,
    evs = [Sys (RemoveTree workspace) false;
           Log LogWarn ("清理临时目录失败: " ++ workspace) (Some err)].

(** Calls that empty no directory. *)
Definition emptiesNothing (e : Event) : Prop :=
  match e with
  | Sys (EmptyDir _) _ => False
  | _ => True
  end.

(** A successful copy of the deployment of [module] into a backup
    directory of [moduleName]. *)
Definition isBackup (module : ModuleConfig) (moduleName : string) (e : Event) : Prop :=
  exists stamp,
    e = Sys (CopyTree (deployPath module)
                      (path_join (backupRootOf moduleName) (replace_colons stamp))) true.

(** Among [evs], no directory is emptied before a backup was made. *)
Definition backedUpFirst (module : ModuleConfig) (moduleName : string)
           (evs : list Event) : Prop :=
  Forall emptiesNothing evs \/
  exists before backup after,
    evs = (before ++ backup :: after)%list /\
    isBackup module moduleName backup /\ Forall emptiesNothing before.

(** An event within what some configured module may write. *)
Definition confinedToSome (confined : ModuleConfig -> string -> Event -> Prop)
           (modules : list ModuleConfig) (e : Event) : Prop :=
  exists module, In module modules /\ confined module (name module) e.

(** ** The status report, module by module *)

(** The loop of a status call over [modules], started in [s], comes to the
    module [m] in the state [s0], once the entries of the modules [before]
    it are pushed; [status] is the body of the loop. *)
Definition comesTo {W : Type} (status : ModuleConfig -> M W ModuleStatus)
           (modules : list ModuleConfig) (s : State W)
           (before : list ModuleConfig) (m : ModuleConfig) (s0 : State W) : Prop :=
  exists after rs,
    modules = (before ++ m :: after)%list /\
    forEachPush status before s = (s0, Returned rs).

(** In the list [l] a status call returned, the entry of the module the
    loop came to after [before]. *)
Definition entryOf (before : list ModuleConfig) (l : list ModuleStatus)
  : option ModuleStatus :=
  nth_error l (List.length before).

(** The manifest of the deployment of [module] is there, and reading it
    fails with [e]. *)
Definition manifestUnreadable {W : Type} `{Host W} (module : ModuleConfig)
           (w : W) (e : Error) : Prop :=
  h_exists (deployedManifest module) w = true /\
  h_readJson (deployedManifest module) w = Thrown e.

(** What the failed read of the manifest of [module] leaves in the trace. *)
Definition failedRead (module : ModuleConfig) : list Event :=
  [Sys (Probe (deployedManifest module)) true;
   Sys (ReadJson (deployedManifest module)) false].

(** The entry the [try] block of the loop pushes for [module], from the two
    versions and the time of the last change. *)
Definition entry (module : ModuleConfig) (current latest : string)
           (lastUpdated : option string) : ModuleStatus :=
  {| s_name := name module;
     s_type := type module;
     currentVersion := current;
     latestVersion := latest;
     s_deployPath := deployPath module;
     status := if current =? latest then "up-to-date" else "outdated";
     lastUpdated := lastUpdated;
     error := None |}.

(** The entry the [catch] block of the design note's loop pushes for
    [module]. *)
Definition errorEntry (module : ModuleConfig) (e : Error) : ModuleStatus :=
  {| s_name := name module;
     s_type := type module;
     currentVersion := "unknown";
     latestVersion := "unknown";
     s_deployPath := deployPath module;
     status := "error";
     lastUpdated := None;
     error := Some e |}.

(** The host [w] gives no listing of [repo]. The command line that lists
    the tags rejects; or it resolves, as a pipeline does whose first command
    failed, with an output that names no tag, and the command line that
    lists the head rejects or resolves with a blank output. *)
Definition unlisted {W : Type} `{Host W} (repo : string) (w : W) : Prop :=
  match h_exec (tagsCommand repo) defaultMaxBuffer w with
  | (_, Thrown _) => True
  | (w1, Returned tags) =>
      match_refs_tags tags = None /\
      match h_exec (headCommand repo) defaultMaxBuffer w1 with
      | (_, Thrown _) => True
      | (_, Returned head) => trim head = ""
      end
  end.

(** On the host [w] the listing of the tags of [repo] names no tag, and the
    listing of its head prints [head]. *)
Definition listsHead {W : Type} `{Host W} (repo : string) (w : W) (head : string)
  : Prop :=
  exists w1 tags w2,
    h_exec (tagsCommand repo) defaultMaxBuffer w = (w1, Returned tags) /\
    match_refs_tags tags = None /\
    h_exec (headCommand repo) defaultMaxBuffer w1 = (w2, Returned head).

(** What an entry without [error] says of [module] when its versions were
    resolved on the host [w]. *)
Definition resolvedOn {W : Type} `{Host W} (module : ModuleConfig) (w : W)
           (st : ModuleStatus) : Prop :=
  s_name st = name module /\ error st = None /\
  status st
  = (if currentVersion st =? latestVersion st then "up-to-date" else "outdated") /\
  (h_exists (deployedManifest module) w = false -> currentVersion st = "unknown") /\
  (unlisted (repo module) w -> latestVersion st = "unknown") /\
  (forall head,
     listsHead (repo module) w head ->
     latestVersion st = or_else (substring 0 7 (trim head)) "unknown").

(** A segment that [path.join] only appends after a separator: not empty,
    without separator, and neither [.] nor [..]. *)
Definition plainSegment (s : string) : bool :=
  negb (s =? "") && negb (has_slash s) && negb (s =? ".") && negb (s =? "..").

(** * Properties *)

(** ** Laws of the combinators *)

Section CombinatorLaws.
Context {W : Type} `{Host W}.

(** A handler that always returns makes the whole [try] return. *)
Lemma tryCatch_total {A} (m : M W A) (h : Error -> M W A) s :
  (forall e s1, exists s2 a, h e s1 = (s2, Returned a)) ->
  exists s2 a, tryCatch m h s = (s2, Returned a).
Proof.
  intros Hh. unfold tryCatch. destruct (m s) as [s1 [a|e]].
  - now exists s1, a.
  - apply Hh.
Qed.

(** A [finally] block that cannot throw leaves the completion alone. *)
Lemma tryFinally_quiet {A} (m : M W A) (fin : M W unit) s :
  (forall s1, exists s2, fin s1 = (s2, Returned tt)) ->
  tryFinally m fin s = (fst (fin (fst (m s))), snd (m s)).
Proof.
  intros Hfin. unfold tryFinally. destruct (m s) as [s1 c]. simpl.
  destruct (Hfin s1) as [s2 E]. now rewrite E.
Qed.

Lemma forEachPush_cons {A B} (f : A -> M W B) x xs s :
  forEachPush f (x :: xs) s =
  match f x s with
  | (s1, Returned r) =>
      match forEachPush f xs s1 with
      | (s2, Returned rs) => (s2, Returned (r :: rs))
      | (s2, Thrown e) => (s2, Thrown e)
      end
  | (s1, Thrown e) => (s1, Thrown e)
  end.
Proof.
  simpl. unfold bind, ret. destruct (f x s) as [s1 [r|e]]; [|reflexivity].
  destruct (forEachPush f xs s1) as [s2 [rs|e]]; reflexivity.
Qed.

(** When the body cannot throw, the loop returns one result per element, in
    order. *)
Lemma forEachPush_total {A B} (f : A -> M W B) (P : A -> B -> Prop) xs :
  (forall x s, exists s1 r, f x s = (s1, Returned r) /\ P x r) ->
  forall s, exists s1 rs, forEachPush f xs s = (s1, Returned rs) /\ Forall2 P xs rs.
Proof.
  intros Hf. induction xs as [|x xs IH]; intros s.
  - exists s, []. split; [reflexivity | constructor].
  - rewrite forEachPush_cons.
    destruct (Hf x s) as (s1 & r & E & Pr). rewrite E.
    destruct (IH s1) as (s2 & rs & E2 & Prs). rewrite E2.
    exists s2, (r :: rs). split; [reflexivity | now constructor].
Qed.

(** In general the loop either returns one result per element, or stops at
    the first element whose body throws: the state it ends in is the state
    that body left, and the elements after it are not visited. *)
Lemma forEachPush_cases {A B} (f : A -> M W B) (P : A -> B -> Prop) xs :
  (forall x s s1 r, f x s = (s1, Returned r) -> P x r) ->
  forall s,
    match forEachPush f xs s with
    | (s', Returned rs) => Forall2 P xs rs
    | (s', Thrown e) =>
        exists before x after s0 rs,
          xs = (before ++ x :: after)%list /\
          forEachPush f before s = (s0, Returned rs) /\
          f x s0 = (s', Thrown e)
    end.
Proof.
  intros Hf. induction xs as [|x xs IH]; intros s.
  - simpl. constructor.
  - rewrite forEachPush_cons. destruct (f x s) as [s1 [r|e]] eqn:E.
    + specialize (IH s1). destruct (forEachPush f xs s1) as [s2 [rs|e]] eqn:E2.
      * constructor; eauto.
      * destruct IH as (before & y & after & s0 & rs & -> & Eb & Ey).
        exists (x :: before), y, after, s0, (r :: rs). repeat split; auto.
        rewrite forEachPush_cons, E, Eb. reflexivity.
    + exists [], x, xs, s, []. repeat split; auto.
Qed.

(** The loop over a list in two parts. *)
Lemma forEachPush_app {A B} (f : A -> M W B) xs ys s :
  forEachPush f (xs ++ ys) s =
  match forEachPush f xs s with
  | (s0, Returned rs) =>
      match forEachPush f ys s0 with
      | (s1, Returned rs') => (s1, Returned (rs ++ rs')%list)
      | (s1, Thrown e) => (s1, Thrown e)
      end
  | (s0, Thrown e) => (s0, Thrown e)
  end.
Proof.
  revert s. induction xs as [|x xs IH]; intros s.
  - simpl. unfold ret. destruct (forEachPush f ys s) as [s1 [rs|e]]; reflexivity.
  - change ((x :: xs) ++ ys)%list with (x :: (xs ++ ys))%list.
    rewrite !forEachPush_cons. destruct (f x s) as [s1 [r|e]]; [|reflexivity].
    rewrite IH. destruct (forEachPush f xs s1) as [s2 [rs|e]]; [|reflexivity].
    destruct (forEachPush f ys s2) as [s3 [rs'|e]]; reflexivity.
Qed.

(** The loop at the element it comes to after [before]. *)
Lemma forEachPush_at {A B} (f : A -> M W B) before x after s s0 rs :
  forEachPush f before s = (s0, Returned rs) ->
  forEachPush f (before ++ x :: after) s =
  match f x s0 with
  | (s1, Returned r) =>
      match forEachPush f after s1 with
      | (s2, Returned rs') => (s2, Returned (rs ++ r :: rs')%list)
      | (s2, Thrown e) => (s2, Thrown e)
      end
  | (s1, Thrown e) => (s1, Thrown e)
  end.
Proof.
  intros Eb. rewrite forEachPush_app, Eb, forEachPush_cons.
  destruct (f x s0) as [s1 [r|e]]; [|reflexivity].
  destruct (forEachPush f after s1) as [s2 [rs'|e]]; reflexivity.
Qed.

Lemma forEachPush_length {A B} (f : A -> M W B) xs s s' rs :
  forEachPush f xs s = (s', Returned rs) -> List.length rs = List.length xs.
Proof.
  intros E.
  pose proof (forEachPush_cases f (fun _ _ => True) xs (fun _ _ _ _ _ => I) s) as C.
  rewrite E in C. symmetry. eapply Forall2_length; eauto.
Qed.

(** When the loop returns, the result of the element it came to after
    [before] stands at that position of the list. *)
Lemma forEachPush_entry {A B} (f : A -> M W B) before x after s s0 rs s' l :
  forEachPush f before s = (s0, Returned rs) ->
  forEachPush f (before ++ x :: after) s = (s', Returned l) ->
  exists s1 r, f x s0 = (s1, Returned r) /\ nth_error l (List.length before) = Some r.
Proof.
  intros Eb E. rewrite (forEachPush_at f before x after s s0 rs Eb) in E.
  destruct (f x s0) as [s1 [r|e]]; [|discriminate].
  destruct (forEachPush f after s1) as [s2 [rs'|e]]; [|discriminate].
  inversion E; subst. exists s1, r. split; [reflexivity|].
  rewrite <- (forEachPush_length f before s s0 rs Eb).
  rewrite nth_error_app2 by lia. now rewrite Nat.sub_diag.
Qed.

Lemma Forall2_map_eq {A B C} (f : A -> C) (g : B -> C) xs ys :
  Forall2 (fun x y => g y = f x) xs ys -> map g ys = map f xs.
Proof. induction 1; simpl; congruence. Qed.
End CombinatorLaws.

(** ** Facts about the helpers shared by the three services *)

Section Helpers.
Context {W : Type} `{Host W}.

Lemma path_join_nonempty a b : path_join a b <> "".
Proof.
  unfold path_join. destruct a as [|c a]; simpl.
  - destruct b; simpl; discriminate.
  - destruct b; simpl; discriminate.
Qed.

(** The workspace of a module is never the empty path. *)
Lemma workspace_path_nonempty moduleName :
  (path_join "/tmp/upgrade" moduleName =? "") = false.
Proof. apply String.eqb_neq, path_join_nonempty. Qed.

(** [cleanupTemp] never throws: it removes the directory, or logs a
    warning when the removal fails. *)
Lemma cleanupTemp_cases tempDir (s : State W) :
  FsExtra.cleanupTemp tempDir s =
  match h_remove tempDir (world s) with
  | (w, Returned _) =>
      (mkState w (trace s ++ [Sys (RemoveTree tempDir) true]), Returned tt)
  | (w, Thrown e) =>
      (mkState w (trace s ++ [Sys (RemoveTree tempDir) false]
                          ++ [Log LogWarn ("清理临时目录失败: " ++ tempDir) (Some e)]),
       Returned tt)
  end.
Proof.
  unfold FsExtra.cleanupTemp, tryCatch, remove, effect, logger, emit.
  destruct (h_remove tempDir (world s)) as [w [[]|e]]; simpl; [reflexivity|].
  now rewrite <- app_assoc.
Qed.

Lemma cleanupTemp_returns tempDir (s : State W) :
  exists s', FsExtra.cleanupTemp tempDir s = (s', Returned tt).
Proof.
  rewrite cleanupTemp_cases.
  destruct (h_remove tempDir (world s)) as [w [[]|e]]; eauto.
Qed.

Lemma find_name_none (modules : list ModuleConfig) n :
  ~ In n (map name modules) ->
  find (fun m => name m =? n) modules = None.
Proof.
  induction modules as [|m ms IH]; simpl; intros Hn; [reflexivity|].
  destruct (String.eqb_spec (name m) n) as [E|E].
  - exfalso. apply Hn. now left.
  - apply IH. intros Hin. apply Hn. now right.
Qed.

Lemma find_name_some (modules : list ModuleConfig) m :
  In m modules ->
  exists m', find (fun x => name x =? name m) modules = Some m' /\ name m' = name m.
Proof.
  induction modules as [|x ms IH]; simpl; intros Hin; [contradiction|].
  destruct (String.eqb_spec (name x) (name m)) as [E|E].
  - now exists x.
  - destruct Hin as [->|Hin]; [congruence | now apply IH].
Qed.
End Helpers.

(** ** Unknown module names *)

Lemma unknown_name_refused {W : Type} `{Host W}
    (modules : list ModuleConfig) (moduleName : string) (s : State W) :
  ~ In moduleName (map name modules) ->
  let refusal :=
    {| success := false;
       module := moduleName;
       message := "模块 " ++ moduleName ++ " 未配置";
       timestamp := h_iso (h_now (world s));
       version := None |} in
  FsExtra.upgradeModule modules moduleName s = (s, Returned refusal) /\
  NodeFs.upgradeModule modules moduleName s = (s, Returned refusal) /\
  Draft.upgradeModule modules moduleName s = (s, Returned refusal).
Proof.
  intros Hn refusal.
  unfold FsExtra.upgradeModule, NodeFs.upgradeModule, Draft.upgradeModule.
  rewrite (find_name_none modules moduleName Hn).
  repeat split.
Qed.

(** C7. For a module name with no matching configuration, [upgradeModule]
    returns [success = false] at once, in each of the three services: the
    state it returns is the state it was called in, so no workspace was
    created, no call was made to the file system or to a command, nothing
    was logged and no cleanup ran. *)
Theorem upgradeModule_unknown_touches_nothing {W : Type} `{Host W}
    (modules : list ModuleConfig) (moduleName : string) (s : State W) :
  ~ In moduleName (map name modules) ->
  let refusal :=
    {| success := false;
       module := moduleName;
       message := "模块 " ++ moduleName ++ " 未配置";
       timestamp := h_iso (h_now (world s));
       version := None |} in
  FsExtra.upgradeModule modules moduleName s = (s, Returned refusal) /\
  NodeFs.upgradeModule modules moduleName s = (s, Returned refusal) /\
  Draft.upgradeModule modules moduleName s = (s, Returned refusal).
Proof.
  intros Hn refusal.
  pose proof (find_name_none modules moduleName Hn) as Hfind.
  unfold FsExtra.upgradeModule, NodeFs.upgradeModule, Draft.upgradeModule.
  rewrite Hfind. unfold bind, new_Date_toISOString, ret. subst refusal.
  split; [reflexivity | split; reflexivity].
Qed.

Lemma upgradeModule_unknown_witness :
  ~ In "ghost" (map name Draft.defaultModules) /\
  FsExtra.upgradeModule Draft.defaultModules "ghost" (Toy.boot Scenario.unreachable_b)
  = (Toy.boot Scenario.unreachable_b,
     Returned {| success := false; module := "ghost";
                 message := "模块 ghost 未配置";
                 timestamp := "T+0ms"; version := None |}).
Proof.
  assert (Hn : ~ In "ghost" (map name Draft.defaultModules)).
  { simpl. intros [E|[E|[E|[E|[]]]]]; discriminate E. }
  split; [exact Hn|].
  exact (proj1 (upgradeModule_unknown_touches_nothing
                  Draft.defaultModules "ghost" (Toy.boot Scenario.unreachable_b) Hn)).
Defined.

(** ** Cleanup of the workspace *)

Section Cleanup.
Context {W : Type} `{Host W}.

Lemma tryFinally_cleanupTemp {A} (m : M W A) tempDir (s : State W) :
  removal_contract W ->
  cleaned_up tempDir (m s) (tryFinally m (FsExtra.cleanupTemp tempDir) s).
Proof.
  intros Hrm. unfold cleaned_up.
  rewrite tryFinally_quiet by (intros; apply cleanupTemp_returns).
  destruct (m s) as [s1 c]. simpl. rewrite cleanupTemp_cases.
  destruct (h_remove tempDir (world s1)) as [w [[]|e]] eqn:E; simpl.
  - repeat split. eapply Hrm; eauto.
  - repeat split.
Qed.
End Cleanup.

Lemma Toy_removal_contract : removal_contract Toy.Machine.
Proof.
  intros p w w' E. simpl in E. unfold Toy.remove in E.
  destruct (existsb (fun b => Toy.under p b) (Toy.busy w)); inversion E; subst; clear E.
  simpl. unfold Toy.exists_. simpl.
  induction (Toy.files w) as [|q fs IH]; simpl; [reflexivity|].
  destruct (Toy.under p q) eqn:U; simpl; [exact IH|].
  rewrite IH, orb_false_r.
  unfold Toy.under in U. apply orb_false_iff in U. destruct U as [U _].
  now rewrite String.eqb_sym.
Qed.

(** C6. A run of [upgradeModule] for a configured module is its guarded
    part (the [try] block with its [catch]) followed by the cleanup of the
    module's workspace, whatever the guarded part did and wherever it
    failed: the removal of [/tmp/upgrade/<name>] is the last call made; when
    it succeeds the directory does not exist in the state the call returns
    in; when it fails a warning is logged; in both cases the completion of
    the call is the completion of the guarded part. This holds in the three
    services. *)
Theorem workspace_cleanup_on_every_exit {W : Type} `{Host W}
    (modules : list ModuleConfig) (moduleName : string) (module : ModuleConfig)
    (s : State W) :
  removal_contract W ->
  find (fun m => name m =? moduleName) modules = Some module ->
  let tempDir := path_join "/tmp/upgrade" moduleName in
  let startTime := h_now (world s) in
  cleaned_up tempDir
    (tryCatch (FsExtra.upgradeSteps module moduleName tempDir startTime)
              (FsExtra.upgradeFailed moduleName) s)
    (FsExtra.upgradeModule modules moduleName s) /\
  cleaned_up tempDir
    (tryCatch (NodeFs.upgradeSteps module moduleName tempDir startTime)
              (NodeFs.upgradeFailed moduleName) s)
    (NodeFs.upgradeModule modules moduleName s) /\
  cleaned_up tempDir
    (tryCatch (Draft.upgradeSteps module moduleName tempDir startTime)
              (Draft.upgradeFailed moduleName) s)
    (Draft.upgradeModule modules moduleName s).
Proof.
  intros Hrm Hfind tempDir startTime.
  unfold FsExtra.upgradeModule, NodeFs.upgradeModule, Draft.upgradeModule.
  rewrite Hfind.
  repeat split; apply (tryFinally_cleanupTemp _ tempDir s Hrm).
Qed.

Lemma workspace_cleanup_witness :
  removal_contract Toy.Machine /\
  find (fun m => name m =? "a") Scenario.three = Some (Scenario.backendModule "a") /\
  cleaned_up "/tmp/upgrade/a"
    (tryCatch (FsExtra.upgradeSteps (Scenario.backendModule "a") "a" "/tmp/upgrade/a" 0)
              (FsExtra.upgradeFailed "a") (Toy.boot Scenario.busy_workspace))
    (FsExtra.upgradeModule Scenario.three "a" (Toy.boot Scenario.busy_workspace)).
Proof.
  split; [exact Toy_removal_contract|].
  split; [reflexivity|].
  exact (proj1 (workspace_cleanup_on_every_exit Scenario.three "a"
                  (Scenario.backendModule "a") (Toy.boot Scenario.busy_workspace)
                  Toy_removal_contract eq_refl)).
Defined.

(** ** Discovery of the build output *)

Section Discovery.
Context {W : Type} `{Host W}.

Lemma probeDirs_FsExtra sourceDir dirs buildOutput (s : State W) :
  FsExtra.probeDirs sourceDir dirs buildOutput s =
  (afterProbes sourceDir dirs s,
   Returned match firstPresent sourceDir dirs (world s) with
            | Some dir => path_join sourceDir dir
            | None => buildOutput
            end).
Proof.
  revert s. induction dirs as [|dir rest IH]; intros s.
  - unfold afterProbes. simpl. rewrite app_nil_r. now destruct s.
  - simpl. unfold bind, pathExists, emit, afterProbes. simpl.
    destruct (h_exists (path_join sourceDir dir) (world s)) eqn:E.
    + reflexivity.
    + rewrite IH. unfold afterProbes. simpl. now rewrite <- app_assoc.
Qed.

Lemma probeDirs_NodeFs sourceDir dirs buildOutput (s : State W) :
  NodeFs.probeDirs sourceDir dirs buildOutput s =
  FsExtra.probeDirs sourceDir dirs buildOutput s.
Proof.
  revert s. induction dirs as [|dir rest IH]; intros s; [reflexivity|].
  simpl. unfold bind, tryCatch, access, pathExists, ret, emit.
  destruct (h_exists (path_join sourceDir dir) (world s)); [reflexivity|].
  apply IH.
Qed.
End Discovery.

(** C8. Discovery of the build output by [deployBuild], in the fs-extra
    and in the node:fs service. For a [frontend] or [microfrontend] module
    the subdirectories [dist], [build], [out], [public] of the workspace are
    probed in that order and nothing else is done; the first that exists is
    the build output, and the target is then replaced with it; when none
    exists the step throws the output-not-found error. For a [backend]
    module only [dist] is probed; the build output is [dist] when it exists
    and the workspace itself otherwise, so discovery cannot fail and the
    target is replaced; this uses that the workspace path is not empty,
    which [workspace_path_nonempty] shows of the path [upgradeModule]
    passes. *)
Theorem build_output_discovery {W : Type} `{Host W}
    (sourceDir targetDir : string) (type : ModuleType) (s : State W) :
  match type with
  | frontend | microfrontend =>
      let s1 := afterProbes sourceDir possibleDirs s in
      match firstPresent sourceDir possibleDirs (world s) with
      | Some dir =>
          FsExtra.findBuildOutput sourceDir type s = (s1, Returned (path_join sourceDir dir)) /\
          NodeFs.findBuildOutput sourceDir type s = (s1, Returned (path_join sourceDir dir)) /\
          FsExtra.deployBuild sourceDir targetDir type s
          = FsExtra.replaceTarget (path_join sourceDir dir) targetDir s1 /\
          NodeFs.deployBuild sourceDir targetDir type s
          = NodeFs.replaceTarget (path_join sourceDir dir) targetDir s1
      | None =>
          FsExtra.deployBuild sourceDir targetDir type s = (s1, Thrown "未找到构建输出目录") /\
          NodeFs.deployBuild sourceDir targetDir type s = (s1, Thrown "未找到构建输出目录")
      end
  | backend =>
      (sourceDir =? "") = false ->
      let distPath := path_join sourceDir "dist" in
      let found := h_exists distPath (world s) in
      let s1 := emit (Sys (Probe distPath) found) s in
      let buildOutput := if found then distPath else sourceDir in
      FsExtra.findBuildOutput sourceDir type s = (s1, Returned buildOutput) /\
      NodeFs.findBuildOutput sourceDir type s = (s1, Returned buildOutput) /\
      FsExtra.deployBuild sourceDir targetDir type s
      = FsExtra.replaceTarget buildOutput targetDir s1 /\
      NodeFs.deployBuild sourceDir targetDir type s
      = NodeFs.replaceTarget buildOutput targetDir s1
  end.
Proof.
  assert (Hne : forall p, p <> "" -> (p =? "") = false)
    by (intros p Hp; now apply String.eqb_neq).
  assert (Front : forall ty, ty <> backend ->
            FsExtra.findBuildOutput sourceDir ty s
            = FsExtra.probeDirs sourceDir possibleDirs "" s /\
            NodeFs.findBuildOutput sourceDir ty s
            = FsExtra.probeDirs sourceDir possibleDirs "" s).
  { intros ty Hty. destruct ty; try congruence;
      (split; [reflexivity | apply probeDirs_NodeFs]). }
  assert (Probing : forall ty, ty <> backend ->
    let s1 := afterProbes sourceDir possibleDirs s in
    match firstPresent sourceDir possibleDirs (world s) with
    | Some dir =>
        FsExtra.findBuildOutput sourceDir ty s = (s1, Returned (path_join sourceDir dir)) /\
        NodeFs.findBuildOutput sourceDir ty s = (s1, Returned (path_join sourceDir dir)) /\
        FsExtra.deployBuild sourceDir targetDir ty s
        = FsExtra.replaceTarget (path_join sourceDir dir) targetDir s1 /\
        NodeFs.deployBuild sourceDir targetDir ty s
        = NodeFs.replaceTarget (path_join sourceDir dir) targetDir s1
    | None =>
        FsExtra.deployBuild sourceDir targetDir ty s = (s1, Thrown "未找到构建输出目录") /\
        NodeFs.deployBuild sourceDir targetDir ty s = (s1, Thrown "未找到构建输出目录")
    end).
  { intros ty Hty s1. destruct (Front ty Hty) as [Ea Eb].
    unfold FsExtra.deployBuild, NodeFs.deployBuild, bind.
    rewrite Ea, Eb, probeDirs_FsExtra. fold s1.
    destruct (firstPresent sourceDir possibleDirs (world s)) as [dir|].
    - rewrite (Hne _ (path_join_nonempty sourceDir dir)). repeat split.
    - split; reflexivity. }
  destruct type; try (apply Probing; discriminate).
  intros Hsrc. cbv zeta.
  assert (Ea : FsExtra.findBuildOutput sourceDir backend s
               = (emit (Sys (Probe (path_join sourceDir "dist"))
                            (h_exists (path_join sourceDir "dist") (world s))) s,
                  Returned (if h_exists (path_join sourceDir "dist") (world s)
                            then path_join sourceDir "dist" else sourceDir))).
  { reflexivity. }
  assert (Eb : NodeFs.findBuildOutput sourceDir backend s
               = (emit (Sys (Probe (path_join sourceDir "dist"))
                            (h_exists (path_join sourceDir "dist") (world s))) s,
                  Returned (if h_exists (path_join sourceDir "dist") (world s)
                            then path_join sourceDir "dist" else sourceDir))).
  { unfold NodeFs.findBuildOutput, tryCatch, bind, access, ret.
    destruct (h_exists (path_join sourceDir "dist") (world s)); reflexivity. }
  unfold FsExtra.deployBuild, NodeFs.deployBuild, bind.
  rewrite Ea, Eb.
  destruct (h_exists (path_join sourceDir "dist") (world s)).
  - rewrite (Hne _ (path_join_nonempty sourceDir "dist")). repeat split.
  - rewrite Hsrc. repeat split.
Qed.

Lemma build_output_discovery_witness :
  ("/tmp/upgrade/a" =? "") = false /\
  FsExtra.findBuildOutput "/tmp/upgrade/a" backend (Toy.boot Scenario.backup_no_space)
  = (mkState Scenario.backup_no_space [Sys (Probe "/tmp/upgrade/a/dist") false],
     Returned "/tmp/upgrade/a").
Proof.
  split; [reflexivity|].
  exact (proj1 (build_output_discovery "/tmp/upgrade/a" "/var/www/deployments/a"
                  backend (Toy.boot Scenario.backup_no_space) eq_refl)).
Defined.

(** ** Version of the build *)

(** C9, as stated, fails: with no manifest and no tag, [getVersion] returns
    what [git rev-parse --short HEAD] prints, here twelve characters. *)
Lemma getVersion_twelve_character_identifier :
  h_exists (path_join "/tmp/upgrade/a" "package.json") Scenario.untagged_clone = false /\
  snd (FsExtra.getVersion "/tmp/upgrade/a" (Toy.boot Scenario.untagged_clone))
  = Returned "0123456789ab" /\
  snd (NodeFs.getVersion "/tmp/upgrade/a" (Toy.boot Scenario.untagged_clone))
  = Returned "0123456789ab" /\
  String.length "0123456789ab" <> 7 /\
  "0123456789ab" <> "unknown".
Proof.
  repeat split; try reflexivity; discriminate.
Qed.

(** C9, amended. With no manifest at the workspace root, [getVersion] (of
    the fs-extra and of the node:fs service) returns the trimmed standard
    output of [git describe --tags --abbrev=0 || git rev-parse --short HEAD]
    when the command succeeds, and ["unknown"] when it fails; it always
    returns and never throws. The identifier is not cut: it has 7 characters
    exactly when git prints 7. *)
Theorem getVersion_without_manifest {W : Type} `{Host W} (dir : string) (s : State W) :
  h_exists (path_join dir "package.json") (world s) = false ->
  let resolved :=
    match snd (h_exec (versionCommand dir) defaultMaxBuffer (world s)) with
    | Returned stdout => trim stdout
    | Thrown _ => "unknown"
    end in
  snd (FsExtra.getVersion dir s) = Returned resolved /\
  snd (NodeFs.getVersion dir s) = Returned resolved.
Proof.
  intros Habsent resolved. subst resolved.
  unfold FsExtra.getVersion, NodeFs.getVersion, tryCatch, bind, pathExists, access,
    execAsync, effect, ret, versionCommand.
  rewrite Habsent. simpl.
  destruct (h_exec _ defaultMaxBuffer (world s)) as [w [out|e]]; simpl; split; reflexivity.
Qed.

Lemma getVersion_without_manifest_witness :
  h_exists (path_join "/tmp/upgrade/a" "package.json") Scenario.untagged_clone = false /\
  snd (FsExtra.getVersion "/tmp/upgrade/a" (Toy.boot Scenario.untagged_clone))
  = Returned (trim ("0123456789ab" ++ String "010" "")).
Proof.
  split; [reflexivity|].
  exact (proj1 (getVersion_without_manifest "/tmp/upgrade/a"
                  (Toy.boot Scenario.untagged_clone) eq_refl)).
Defined.

(** ** Installation of the dependencies *)

Section Install.
Context {W : Type} `{Host W}.

(** With no manifest both services skip the installation. *)
Lemma npmInstall_without_manifest dir (s : State W) :
  h_exists (path_join dir "package.json") (world s) = false ->
  let s1 := emit (Sys (Probe (path_join dir "package.json")) false) s in
  FsExtra.npmInstall dir s = (s1, Returned tt) /\
  NodeFs.npmInstall dir s = (s1, Returned tt).
Proof.
  intros Habsent.
  unfold FsExtra.npmInstall, NodeFs.npmInstall, tryCatch, bind, pathExists, access, ret.
  rewrite Habsent. split; reflexivity.
Qed.

(** With a manifest, the fs-extra service lets the failure of [npm ci]
    through. *)
Lemma npmInstall_FsExtra_propagates dir (s : State W) w e :
  h_exists (path_join dir "package.json") (world s) = true ->
  h_exec (installCommand dir) defaultMaxBuffer (world s) = (w, Thrown e) ->
  snd (FsExtra.npmInstall dir s) = Thrown e.
Proof.
  intros Hpresent Hfail.
  unfold FsExtra.npmInstall, bind, pathExists, execAsync, effect, emit.
  rewrite Hpresent. unfold installCommand in Hfail. cbn [world].
  now rewrite Hfail.
Qed.

(** The node:fs service returns normally whatever [npm ci] does. *)
Lemma npmInstall_NodeFs_always_returns dir (s : State W) :
  snd (NodeFs.npmInstall dir s) = Returned tt.
Proof.
  unfold NodeFs.npmInstall, tryCatch, bind, access, execAsync, effect, ret.
  destruct (h_exists _ (world s)); simpl; [|reflexivity].
  destruct (h_exec _ defaultMaxBuffer (world s)) as [w [out|e]]; reflexivity.
Qed.
End Install.

(** C5, at the failing input: the clone brings a [package.json] and
    [npm ci] exits with 1. The node:fs service goes on to build and deploy
    and reports success; the fs-extra service reports the failure of the
    installation. *)
Theorem npmInstall_failure_swallowed_by_NodeFs :
  h_exists "/tmp/upgrade/a/package.json" (world Scenario.npm_fails_cloned) = true /\
  snd (h_exec (installCommand "/tmp/upgrade/a") defaultMaxBuffer
         (world Scenario.npm_fails_cloned))
  = Thrown "Command failed: cd /tmp/upgrade/a && npm ci --no-audit --no-fund" /\
  snd (NodeFs.npmInstall "/tmp/upgrade/a" Scenario.npm_fails_cloned) = Returned tt /\
  snd (NodeFs.upgradeModule [Scenario.backendModule "a"] "a" (Toy.boot Scenario.npm_fails))
  = Returned {| success := true; module := "a";
                message := "升级成功，版本: 1.4.2";
                timestamp := "T+3000ms"; version := Some "1.4.2" |} /\
  snd (FsExtra.upgradeModule [Scenario.backendModule "a"] "a" (Toy.boot Scenario.npm_fails))
  = Thrown "Command failed: cd /tmp/upgrade/a && npm ci --no-audit --no-fund".
Proof.
  repeat split; vm_compute; reflexivity.
Qed.

(** ** Backup of the current deployment *)

Section Backup.
Context {W : Type} `{Host W}.

(** When [deployPath] does not exist the step only probes it and
    succeeds, in both services. *)
Lemma backupCurrent_without_deployment deployPath moduleName (s : State W) :
  h_exists deployPath (world s) = false ->
  let s1 := emit (Sys (Probe deployPath) false) s in
  FsExtra.backupCurrent deployPath moduleName s = (s1, Returned tt) /\
  NodeFs.backupCurrent deployPath moduleName s = (s1, Returned tt).
Proof.
  intros Habsent.
  unfold FsExtra.backupCurrent, NodeFs.backupCurrent, tryCatch, bind, pathExists,
    access, ret.
  rewrite Habsent. split; reflexivity.
Qed.

(** The fs-extra service lets a failure of the copy through. *)
Lemma backupCurrent_FsExtra_propagates deployPath moduleName (s : State W) w e :
  h_exists deployPath (world s) = true ->
  h_copy deployPath (backupDirAt moduleName s) (world s) = (w, Thrown e) ->
  snd (FsExtra.backupCurrent deployPath moduleName s) = Thrown e.
Proof.
  intros Hpresent Hfail.
  unfold FsExtra.backupCurrent, bind, pathExists, new_Date_toISOString, copy, effect, emit.
  rewrite Hpresent. unfold backupDirAt in Hfail. cbn [world].
  now rewrite Hfail.
Qed.

(** The node:fs service returns normally whatever the copy does. *)
Lemma backupCurrent_NodeFs_always_returns deployPath moduleName (s : State W) :
  snd (NodeFs.backupCurrent deployPath moduleName s) = Returned tt.
Proof.
  unfold NodeFs.backupCurrent, NodeFs.mkdir_recursive, NodeFs.cp_recursive,
    tryCatch, bind, access, new_Date_toISOString, ensureDir, copy, effect, ret.
  destruct (h_exists deployPath (world s)); cbn [world]; [|reflexivity].
  match goal with
  | |- context [h_mkdirp ?p ?w] => destruct (h_mkdirp p w) as [w1 [[]|e1]]
  end; cbn [world]; [|reflexivity].
  match goal with
  | |- context [h_copy ?src ?dst ?w] => destruct (h_copy src dst w) as [w2 [[]|e2]]
  end; reflexivity.
Qed.
End Backup.

(** C4, at the failing input: [a] is deployed and the copy into
    [/var/www/backups/a/<stamp>] fails for lack of space. The node:fs
    service goes on: it removes the deployment, deploys the new build and
    reports success. The fs-extra service stops at the backup and reports
    its error. *)
Theorem backup_failure_swallowed_by_NodeFs :
  h_exists "/var/www/deployments/a" Scenario.backup_no_space = true /\
  trace (fst (NodeFs.upgradeModule [Scenario.backendModule "a"] "a"
                (Toy.boot Scenario.backup_no_space)))
  = [ Log LogInfo "开始升级模块: a" None;
      Sys (MkdirP "/tmp/upgrade/a") true;
      Sys (Probe "/tmp/upgrade/a/.git") false;
      Sys (Exec "git clone --branch main https://github.com/org/a.git /tmp/upgrade/a") true;
      Sys (Probe "/tmp/upgrade/a/package.json") false;
      Sys (Exec "cd /tmp/upgrade/a && make") true;
      Sys (Probe "/var/www/deployments/a") true;
      Sys (MkdirP "/var/www/backups/a") true;
      Sys (CopyTree "/var/www/deployments/a" "/var/www/backups/a/T+2000ms") false;
      Sys (Probe "/tmp/upgrade/a/dist") false;
      Sys (Probe "/var/www/deployments/a") true;
      Sys (RemoveTree "/var/www/deployments/a") true;
      Sys (MkdirP "/var/www/deployments/a") true;
      Sys (CopyTree "/tmp/upgrade/a" "/var/www/deployments/a") true;
      Sys (Probe "/tmp/upgrade/a/package.json") false;
      Sys (Exec (versionCommand "/tmp/upgrade/a")) true;
      Log LogInfo "模块 a 升级成功，耗时: 3000ms" None;
      Sys (RemoveTree "/tmp/upgrade/a") true ] /\
  snd (NodeFs.upgradeModule [Scenario.backendModule "a"] "a"
         (Toy.boot Scenario.backup_no_space))
  = Returned {| success := true; module := "a";
                message := "升级成功，版本: 9f3c2d1";
                timestamp := "T+3000ms"; version := Some "9f3c2d1" |} /\
  trace (fst (FsExtra.upgradeModule [Scenario.backendModule "a"] "a"
                (Toy.boot Scenario.backup_no_space)))
  = [ Log LogInfo "开始升级模块: a" None;
      Sys (MkdirP "/tmp/upgrade/a") true;
      Sys (Probe "/tmp/upgrade/a/.git") false;
      Sys (Exec "git clone --branch main https://github.com/org/a.git /tmp/upgrade/a") true;
      Sys (Probe "/tmp/upgrade/a/package.json") false;
      Sys (Exec "cd /tmp/upgrade/a && make") true;
      Sys (Probe "/var/www/deployments/a") true;
      Sys (CopyTree "/var/www/deployments/a" "/var/www/backups/a/T+2000ms") false;
      Log LogError "模块 a 升级失败:"
          (Some ("ENOSPC: no space left on device, copyfile '/var/www/deployments/a'"
                 ++ " -> '/var/www/backups/a/T+2000ms'"));
      Sys (RemoveTree "/tmp/upgrade/a") true ] /\
  snd (FsExtra.upgradeModule [Scenario.backendModule "a"] "a"
         (Toy.boot Scenario.backup_no_space))
  = Thrown ("ENOSPC: no space left on device, copyfile '/var/www/deployments/a'"
            ++ " -> '/var/www/backups/a/T+2000ms'").
Proof.
  repeat split; vm_compute; reflexivity.
Qed.

(** ** The outcome of one upgrade *)

Section Pipeline.
Context {W : Type} `{Host W}.
Variable modules : list ModuleConfig.

Lemma bind_inv_returned {A B} (m : M W A) (k : A -> M W B) s s' b :
  bind m k s = (s', Returned b) ->
  exists s1 a, m s = (s1, Returned a) /\ k a s1 = (s', Returned b).
Proof.
  unfold bind. destruct (m s) as [s1 [a|e]]; intros E; [eauto | discriminate].
Qed.

Ltac step E :=
  apply bind_inv_returned in E;
  let s1 := fresh "s" in let a := fresh "a" in let E1 := fresh "E" in
  destruct E as (s1 & a & E1 & E); clear E1.

(** A run of the [try] block that reaches its [return] yields a success
    carrying the version. *)
Lemma upgradeSteps_FsExtra_returns module moduleName tempDir startTime (s s' : State W) r :
  FsExtra.upgradeSteps module moduleName tempDir startTime s = (s', Returned r) ->
  succeeded moduleName r.
Proof.
  unfold FsExtra.upgradeSteps. intros E.
  do 7 step E.
  apply bind_inv_returned in E. destruct E as (s7 & v & _ & E).
  do 3 step E.
  unfold ret in E. inversion E; subst. unfold succeeded; simpl. eauto.
Qed.

Lemma upgradeSteps_NodeFs_returns module moduleName tempDir startTime (s s' : State W) r :
  NodeFs.upgradeSteps module moduleName tempDir startTime s = (s', Returned r) ->
  succeeded moduleName r.
Proof.
  unfold NodeFs.upgradeSteps. intros E.
  do 7 step E.
  apply bind_inv_returned in E. destruct E as (s7 & v & _ & E).
  do 3 step E.
  unfold ret in E. inversion E; subst. unfold succeeded; simpl. eauto.
Qed.

(** The [catch] block of the two services rethrows: the guarded part
    completes as the [try] block did. *)
Lemma guarded_FsExtra (m : M W UpgradeResult) moduleName (s : State W) :
  snd (tryCatch m (FsExtra.upgradeFailed moduleName) s) = snd (m s).
Proof. unfold tryCatch. now destruct (m s) as [s1 [r|e]]. Qed.

Lemma guarded_NodeFs (m : M W UpgradeResult) moduleName (s : State W) :
  snd (tryCatch m (NodeFs.upgradeFailed moduleName) s) = snd (m s).
Proof. unfold tryCatch. now destruct (m s) as [s1 [r|e]]. Qed.

(** The [catch] block of the design note returns a failure. *)
Lemma guarded_Draft (m : M W UpgradeResult) moduleName (s : State W) :
  match m s with
  | (s1, Returned r) => tryCatch m (Draft.upgradeFailed moduleName) s = (s1, Returned r)
  | (s1, Thrown e) =>
      snd (tryCatch m (Draft.upgradeFailed moduleName) s)
      = Returned {| success := false;
                    module := moduleName;
                    message := "升级失败: " ++ e;
                    timestamp := h_iso (h_now (world s1));
                    version := None |}
  end.
Proof. unfold tryCatch. now destruct (m s) as [s1 [r|e]]. Qed.

(** The cleanup does not change the completion. *)
Lemma finally_keeps_completion {A} (m : M W A) tempDir (s : State W) :
  snd (tryFinally m (FsExtra.cleanupTemp tempDir) s) = snd (m s).
Proof.
  now rewrite tryFinally_quiet by (intros; apply cleanupTemp_returns).
Qed.

Lemma upgradeModule_FsExtra_configured moduleName module (s : State W) :
  find (fun m => name m =? moduleName) modules = Some module ->
  snd (FsExtra.upgradeModule modules moduleName s)
  = snd (FsExtra.upgradeSteps module moduleName (path_join "/tmp/upgrade" moduleName)
           (h_now (world s)) s).
Proof.
  intros Hfind. unfold FsExtra.upgradeModule. rewrite Hfind.
  unfold bind at 1, date_now.
  now rewrite finally_keeps_completion, guarded_FsExtra.
Qed.

Lemma upgradeModule_NodeFs_configured moduleName module (s : State W) :
  find (fun m => name m =? moduleName) modules = Some module ->
  snd (NodeFs.upgradeModule modules moduleName s)
  = snd (NodeFs.upgradeSteps module moduleName (path_join "/tmp/upgrade" moduleName)
           (h_now (world s)) s).
Proof.
  intros Hfind. unfold NodeFs.upgradeModule. rewrite Hfind.
  unfold bind at 1, date_now.
  change (NodeFs.cleanupTemp (path_join "/tmp/upgrade" moduleName))
    with (FsExtra.cleanupTemp (W:=W) (path_join "/tmp/upgrade" moduleName)).
  now rewrite finally_keeps_completion, guarded_NodeFs.
Qed.

Lemma upgradeModule_Draft_configured moduleName module (s : State W) :
  find (fun m => name m =? moduleName) modules = Some module ->
  snd (Draft.upgradeModule modules moduleName s)
  = snd (tryCatch (Draft.upgradeSteps module moduleName
                     (path_join "/tmp/upgrade" moduleName) (h_now (world s)))
                  (Draft.upgradeFailed moduleName) s).
Proof.
  intros Hfind. unfold Draft.upgradeModule. rewrite Hfind.
  unfold bind at 1, date_now.
  now rewrite finally_keeps_completion.
Qed.
End Pipeline.

(** C2, as stated, fails: the remote of the configured module [b] cannot be
    reached, and [upgradeModule] of the fs-extra and of the node:fs service
    throws the error of the clone instead of returning a result. *)
Lemma upgradeModule_rethrows_clone_failure :
  find (fun m => name m =? "b") Scenario.three = Some (Scenario.backendModule "b") /\
  snd (FsExtra.upgradeModule Scenario.three "b" (Toy.boot Scenario.unreachable_b))
  = Thrown "fatal: unable to access 'https://github.com/org/b.git/'" /\
  snd (NodeFs.upgradeModule Scenario.three "b" (Toy.boot Scenario.unreachable_b))
  = Thrown "fatal: unable to access 'https://github.com/org/b.git/'" /\
  (forall r, snd (FsExtra.upgradeModule Scenario.three "b" (Toy.boot Scenario.unreachable_b))
             <> Returned r).
Proof.
  repeat split; try (vm_compute; reflexivity).
  intros r. vm_compute. discriminate.
Qed.

(** C2, amended. For a configured module, when the [try] block of
    [upgradeModule] runs to its end the call returns its result, which has
    [success = true], the resolved version, and a message naming it. When a
    step throws, the fs-extra and the node:fs service log the error and
    throw it again (the caller gets the error, not a result), while the
    service of the design note returns a result with [success = false] and
    the message of the failing step's error. *)
Theorem upgradeModule_outcome {W : Type} `{Host W}
    (modules : list ModuleConfig) (moduleName : string) (module : ModuleConfig)
    (s : State W) :
  find (fun m => name m =? moduleName) modules = Some module ->
  let tempDir := path_join "/tmp/upgrade" moduleName in
  let startTime := h_now (world s) in
  match FsExtra.upgradeSteps module moduleName tempDir startTime s with
  | (_, Returned r) =>
      snd (FsExtra.upgradeModule modules moduleName s) = Returned r /\ succeeded moduleName r
  | (_, Thrown e) =>
      snd (FsExtra.upgradeModule modules moduleName s) = Thrown e
  end /\
  match NodeFs.upgradeSteps module moduleName tempDir startTime s with
  | (_, Returned r) =>
      snd (NodeFs.upgradeModule modules moduleName s) = Returned r /\ succeeded moduleName r
  | (_, Thrown e) =>
      snd (NodeFs.upgradeModule modules moduleName s) = Thrown e
  end /\
  match Draft.upgradeSteps module moduleName tempDir startTime s with
  | (_, Returned r) =>
      snd (Draft.upgradeModule modules moduleName s) = Returned r /\ succeeded moduleName r
  | (s1, Thrown e) =>
      snd (Draft.upgradeModule modules moduleName s)
      = Returned {| success := false;
                    module := moduleName;
                    message := "升级失败: " ++ e;
                    timestamp := h_iso (h_now (world s1));
                    version := None |}
  end.
Proof.
  intros Hfind tempDir startTime.
  rewrite (upgradeModule_FsExtra_configured modules moduleName module s Hfind).
  rewrite (upgradeModule_NodeFs_configured modules moduleName module s Hfind).
  rewrite (upgradeModule_Draft_configured modules moduleName module s Hfind).
  fold tempDir startTime.
  repeat split.
  - destruct (FsExtra.upgradeSteps module moduleName tempDir startTime s)
      as [s1 [r|e]] eqn:E; simpl; [split; [reflexivity|] | reflexivity].
    eapply upgradeSteps_FsExtra_returns; eauto.
  - destruct (NodeFs.upgradeSteps module moduleName tempDir startTime s)
      as [s1 [r|e]] eqn:E; simpl; [split; [reflexivity|] | reflexivity].
    eapply upgradeSteps_NodeFs_returns; eauto.
  - pose proof (guarded_Draft (Draft.upgradeSteps module moduleName tempDir startTime)
                  moduleName s) as G.
    destruct (Draft.upgradeSteps module moduleName tempDir startTime s)
      as [s1 [r|e]] eqn:E.
    + rewrite G. simpl. split; [reflexivity|].
      eapply upgradeSteps_FsExtra_returns; eauto.
    + exact G.
Qed.

Lemma upgradeModule_outcome_witness :
  find (fun m => name m =? "b") Scenario.three = Some (Scenario.backendModule "b") /\
  snd (FsExtra.upgradeModule Scenario.three "b" (Toy.boot Scenario.unreachable_b))
  = Thrown "fatal: unable to access 'https://github.com/org/b.git/'".
Proof.
  split; [reflexivity|].
  exact (proj1 (upgradeModule_outcome Scenario.three "b" (Scenario.backendModule "b")
                  (Toy.boot Scenario.unreachable_b) eq_refl)).
Defined.

(** ** Batches *)

Section Batch.
Context {W : Type} `{Host W}.
Variable modules : list ModuleConfig.

Lemma upgradeModule_FsExtra_result x (s s' : State W) r :
  FsExtra.upgradeModule modules (name x) s = (s', Returned r) -> resultFor modules x r.
Proof.
  intros E. assert (E' := f_equal snd E). simpl in E'. clear E.
  destruct (find (fun m => name m =? name x) modules) as [module|] eqn:Hfind.
  - rewrite (upgradeModule_FsExtra_configured modules _ module s Hfind) in E'.
    destruct (FsExtra.upgradeSteps module (name x) _ _ s) as [s1 c] eqn:Es.
    simpl in E'. subst c.
    destruct (upgradeSteps_FsExtra_returns _ _ _ _ _ _ _ Es) as (Hs & Hm & _).
    split; auto.
  - unfold FsExtra.upgradeModule in E'. rewrite Hfind in E'.
    inversion E'; subst; clear E'. split; [reflexivity|].
    intros Hin. destruct (find_name_some modules x Hin) as (m' & E & _). congruence.
Qed.

Lemma upgradeModule_NodeFs_result x (s s' : State W) r :
  NodeFs.upgradeModule modules (name x) s = (s', Returned r) -> resultFor modules x r.
Proof.
  intros E. assert (E' := f_equal snd E). simpl in E'. clear E.
  destruct (find (fun m => name m =? name x) modules) as [module|] eqn:Hfind.
  - rewrite (upgradeModule_NodeFs_configured modules _ module s Hfind) in E'.
    destruct (NodeFs.upgradeSteps module (name x) _ _ s) as [s1 c] eqn:Es.
    simpl in E'. subst c.
    destruct (upgradeSteps_NodeFs_returns _ _ _ _ _ _ _ Es) as (Hs & Hm & _).
    split; auto.
  - unfold NodeFs.upgradeModule in E'. rewrite Hfind in E'.
    inversion E'; subst; clear E'. split; [reflexivity|].
    intros Hin. destruct (find_name_some modules x Hin) as (m' & E & _). congruence.
Qed.

(** [upgradeModule] of the design note always returns a result about the
    requested name. *)
Lemma upgradeModule_Draft_returns moduleName (s : State W) :
  exists s' r, Draft.upgradeModule modules moduleName s = (s', Returned r)
               /\ module r = moduleName.
Proof.
  destruct (Draft.upgradeModule modules moduleName s) as [s' c] eqn:E.
  assert (E' := f_equal snd E). simpl in E'.
  destruct (find (fun m => name m =? moduleName) modules) as [module|] eqn:Hfind.
  - rewrite (upgradeModule_Draft_configured modules _ module s Hfind) in E'.
    pose proof (guarded_Draft (Draft.upgradeSteps module moduleName
                  (path_join "/tmp/upgrade" moduleName) (h_now (world s)))
                  moduleName s) as G.
    destruct (Draft.upgradeSteps module moduleName _ _ s) as [s1 [r|e]] eqn:Es.
    + rewrite G in E'. simpl in E'. subst c. exists s', r. split; [reflexivity|].
      now destruct (upgradeSteps_FsExtra_returns _ _ _ _ _ _ _ Es) as (_ & Hm & _).
    + rewrite G in E'. subst c. eexists _, _. split; reflexivity.
  - unfold Draft.upgradeModule in E. rewrite Hfind in E.
    inversion E; subst. eexists _, _. split; reflexivity.
Qed.

Lemma modulesToUpgrade_incl moduleNames x :
  In x (FsExtra.modulesToUpgrade modules moduleNames) -> In x modules.
Proof.
  destruct moduleNames as [names|]; simpl; [|auto].
  intros Hin. now apply filter_In in Hin.
Qed.

Lemma resultFor_all xs rs :
  Forall2 (resultFor modules) xs rs ->
  (forall x, In x xs -> In x modules) ->
  map module rs = map name xs /\ Forall (fun r => success r = true) rs.
Proof.
  induction 1 as [|x r xs rs [Hm Hs] _ IH]; intros Hincl; simpl.
  - split; constructor.
  - destruct IH as [IHm IHs]; [intros; apply Hincl; now right|].
    split; [congruence|]. constructor; [apply Hs, Hincl; now left | assumption].
Qed.

(** The loop over the selected modules, in the two services. *)
Lemma batch_loop_cases (upgrade : string -> M W UpgradeResult) moduleNames (s : State W) :
  (forall x s s' r, upgrade (name x) s = (s', Returned r) -> resultFor modules x r) ->
  match forEachPush (fun module => upgrade (name module))
                    (FsExtra.modulesToUpgrade modules moduleNames) s with
  | (_, Returned rs) =>
      map module rs = map name (FsExtra.modulesToUpgrade modules moduleNames) /\
      Forall (fun r => success r = true) rs
  | (s', Thrown e) =>
      stopsAtFirstFailure upgrade (FsExtra.modulesToUpgrade modules moduleNames) s s' e
  end.
Proof.
  intros Hup.
  pose proof (forEachPush_cases (fun module => upgrade (name module)) (resultFor modules)
                (FsExtra.modulesToUpgrade modules moduleNames)
                (fun x s s1 r => Hup x s s1 r) s) as C.
  destruct (forEachPush _ _ s) as [s' [rs|e]].
  - apply resultFor_all; [exact C | apply modulesToUpgrade_incl].
  - exact C.
Qed.

Lemma batchUpgrade_Draft_returns moduleNames (s : State W) :
  exists s' rs,
    Draft.batchUpgrade modules moduleNames s = (s', Returned rs) /\
    map module rs = map name (Draft.modulesToUpgrade modules moduleNames).
Proof.
  destruct (forEachPush_total (fun module => Draft.upgradeModule modules (name module))
              (fun x r => module r = name x)
              (Draft.modulesToUpgrade modules moduleNames)) with (s := s)
    as (s' & rs & E & F).
  - intros x s0. destruct (upgradeModule_Draft_returns (name x) s0) as (s1 & r & E & Hm).
    eauto.
  - exists s', rs. split; [exact E|]. now apply Forall2_map_eq.
Qed.

(** In each service, a returned batch names the selected modules, in
    the order of the configuration. *)
Lemma batchUpgrade_returned_names moduleNames (s : State W) rs :
  snd (FsExtra.batchUpgrade modules moduleNames s) = Returned rs \/
  snd (NodeFs.batchUpgrade modules moduleNames s) = Returned rs \/
  snd (Draft.batchUpgrade modules moduleNames s) = Returned rs ->
  map module rs = map name (FsExtra.modulesToUpgrade modules moduleNames).
Proof.
  intros [E|[E|E]].
  - pose proof (batch_loop_cases (FsExtra.upgradeModule modules) moduleNames s
                  upgradeModule_FsExtra_result) as C.
    unfold FsExtra.batchUpgrade in E.
    destruct (forEachPush _ _ s) as [s' [rs'|e]]; simpl in E; [|discriminate].
    inversion E; subst. apply C.
  - pose proof (batch_loop_cases (NodeFs.upgradeModule modules) moduleNames s
                  upgradeModule_NodeFs_result) as C.
    unfold NodeFs.batchUpgrade in E.
    change (NodeFs.modulesToUpgrade modules moduleNames)
      with (FsExtra.modulesToUpgrade modules moduleNames) in E.
    destruct (forEachPush _ _ s) as [s' [rs'|e]]; simpl in E; [|discriminate].
    inversion E; subst. apply C.
  - destruct (batchUpgrade_Draft_returns moduleNames s) as (s' & rs' & E' & Hn).
    rewrite E' in E. simpl in E. inversion E; subst. exact Hn.
Qed.
End Batch.


(** The batch of three modules whose second cannot be cloned, run by the
    service of the design note: three outcomes, in order, the second one
    failed. *)
Example batchUpgrade_Draft_second_fails :
  snd (Draft.batchUpgrade Scenario.three None (Toy.boot Scenario.unreachable_b))
  = Returned
      [ {| success := true; module := "a";
           message := "升级成功，版本: 9f3c2d1";
           timestamp := "T+3000ms"; version := Some "9f3c2d1" |};
        {| success := false; module := "b";
           message := "升级失败: fatal: unable to access 'https://github.com/org/b.git/'";
           timestamp := "T+4000ms"; version := None |};
        {| success := true; module := "c";
           message := "升级成功，版本: 9f3c2d1";
           timestamp := "T+7000ms"; version := Some "9f3c2d1" |} ].
Proof. vm_compute. reflexivity. Qed.


Section Selection.
Variable modules : list ModuleConfig.

Lemma count_occ_names_filter (f : ModuleConfig -> bool) (l : list ModuleConfig) n :
  count_occ string_dec (map name (filter f l)) n <= count_occ string_dec (map name l) n.
Proof.
  induction l as [|x l IH]; simpl; [lia|].
  destruct (f x); simpl; destruct (string_dec (name x) n); lia.
Qed.

Lemma NoDup_names_filter (f : ModuleConfig -> bool) (l : list ModuleConfig) :
  NoDup (map name l) -> NoDup (map name (filter f l)).
Proof.
  induction l as [|x l IH]; simpl; intros Hnd; [constructor|].
  inversion Hnd as [|? ? Hx Hl]; subst.
  destruct (f x); simpl; [|auto].
  constructor; [|auto].
  intros Hin. apply Hx. apply in_map_iff in Hin. destruct Hin as (y & E & Hy).
  apply filter_In in Hy. apply in_map_iff. exists y. tauto.
Qed.

(** Only the set of requested names matters. *)
Lemma modulesToUpgrade_same_names names names' :
  (forall n, In n names <-> In n names') ->
  FsExtra.modulesToUpgrade modules (Some names')
  = FsExtra.modulesToUpgrade modules (Some names).
Proof.
  intros Hsame. simpl. apply filter_ext. intros m.
  destruct (existsb (String.eqb (name m)) names) eqn:E.
  - apply existsb_exists in E. destruct E as (n & Hn & E).
    apply existsb_exists. exists n. split; [now apply Hsame | exact E].
  - apply not_true_is_false. intros E'. apply existsb_exists in E'.
    destruct E' as (n & Hn & E'). apply Hsame in Hn.
    assert (existsb (String.eqb (name m)) names = true)
      by (apply existsb_exists; eauto).
    congruence.
Qed.

(** With distinct configured names, a request naming an unknown module
    selects fewer modules than it names. *)
Lemma modulesToUpgrade_shorter names ghost :
  NoDup (map name modules) ->
  In ghost names -> ~ In ghost (map name modules) ->
  List.length (FsExtra.modulesToUpgrade modules (Some names)) < List.length names.
Proof.
  intros Hnd Hin Hghost.
  rewrite <- (length_map name).
  apply Nat.le_lt_trans with (List.length (List.remove string_dec ghost names)).
  - apply NoDup_incl_length; [now apply NoDup_names_filter|].
    intros n Hn. apply in_map_iff in Hn. destruct Hn as (m & <- & Hm).
    apply in_in_remove.
    + intros E. apply Hghost. rewrite <- E. apply in_map.
      simpl in Hm. now apply filter_In in Hm.
    + simpl in Hm. apply filter_In in Hm. destruct Hm as [_ Hsel].
      apply existsb_exists in Hsel. destruct Hsel as (k & Hk & E).
      apply String.eqb_eq in E. now subst.
  - now apply remove_length_lt.
Qed.
End Selection.

(** C10. When the list given to [batchUpgrade] holds a name that matches
    no configured module, the list the call returns (in any of the three
    services) has no outcome for that name: the name is skipped in silence,
    and with distinct configured names the result is shorter than the
    request. [upgradeModule] called with the same name returns an explicit
    outcome with [success = false]. Repeating a name changes nothing: the
    call depends only on the set of requested names, the loop visits no
    more modules of a name than are configured under that name, and the
    result holds no more outcomes for it. *)
Theorem batchUpgrade_skips_unknown_names {W : Type} `{Host W}
    (modules : list ModuleConfig) (names : list string) (ghost : string) (s : State W) :
  In ghost names ->
  ~ In ghost (map name modules) ->
  (forall rs,
     snd (FsExtra.batchUpgrade modules (Some names) s) = Returned rs \/
     snd (NodeFs.batchUpgrade modules (Some names) s) = Returned rs \/
     snd (Draft.batchUpgrade modules (Some names) s) = Returned rs ->
     ~ In ghost (map module rs) /\
     (NoDup (map name modules) -> List.length rs < List.length names) /\
     (forall n, count_occ string_dec (map module rs) n
                <= count_occ string_dec (map name modules) n)) /\
  (exists r,
     FsExtra.upgradeModule modules ghost s = (s, Returned r) /\
     NodeFs.upgradeModule modules ghost s = (s, Returned r) /\
     Draft.upgradeModule modules ghost s = (s, Returned r) /\
     success r = false /\ module r = ghost) /\
  (let visited := FsExtra.modulesToUpgrade modules (Some names) in
   NodeFs.modulesToUpgrade modules (Some names) = visited /\
   Draft.modulesToUpgrade modules (Some names) = visited /\
   forall n, count_occ string_dec (map name visited) n
             <= count_occ string_dec (map name modules) n) /\
  (forall names',
     (forall n, In n names <-> In n names') ->
     FsExtra.batchUpgrade modules (Some names') s = FsExtra.batchUpgrade modules (Some names) s /\
     NodeFs.batchUpgrade modules (Some names') s = NodeFs.batchUpgrade modules (Some names) s /\
     Draft.batchUpgrade modules (Some names') s = Draft.batchUpgrade modules (Some names) s).
Proof.
  intros Hin Hghost. split; [|split; [|split]].
  - intros rs Hrs.
    pose proof (batchUpgrade_returned_names modules (Some names) s rs Hrs) as Hnames.
    split; [|split].
    + rewrite Hnames. intros Hg. apply Hghost.
      apply in_map_iff in Hg. destruct Hg as (m & <- & Hm).
      apply in_map. eapply modulesToUpgrade_incl; eauto.
    + intros Hnd. rewrite <- (length_map module), Hnames, length_map.
      now apply modulesToUpgrade_shorter with ghost.
    + intros n. rewrite Hnames. apply count_occ_names_filter.
  - destruct (unknown_name_refused modules ghost s Hghost)
      as (Ea & Eb & Ec).
    eexists. repeat split; eauto.
  - repeat split. intros n. apply count_occ_names_filter.
  - intros names' Hsame.
    unfold FsExtra.batchUpgrade, NodeFs.batchUpgrade, Draft.batchUpgrade.
    change (NodeFs.modulesToUpgrade modules) with (FsExtra.modulesToUpgrade modules).
    change (Draft.modulesToUpgrade modules) with (FsExtra.modulesToUpgrade modules).
    rewrite (modulesToUpgrade_same_names modules names names' Hsame).
    repeat split.
Qed.

Lemma batchUpgrade_skips_unknown_names_witness :
  In "ghost" ["a"; "ghost"; "a"] /\
  ~ In "ghost" (map name Scenario.three) /\
  forall rs,
    snd (FsExtra.batchUpgrade Scenario.three (Some ["a"; "ghost"; "a"])
           (Toy.boot Scenario.unreachable_b)) = Returned rs ->
    ~ In "ghost" (map module rs).
Proof.
  assert (Hin : In "ghost" ["a"; "ghost"; "a"]) by (simpl; auto).
  assert (Hghost : ~ In "ghost" (map name Scenario.three)).
  { simpl. intros [E|[E|[E|[]]]]; discriminate E. }
  split; [exact Hin|]. split; [exact Hghost|].
  intros rs Hrs.
  exact (proj1 (proj1 (batchUpgrade_skips_unknown_names Scenario.three
                         ["a"; "ghost"; "a"] "ghost" (Toy.boot Scenario.unreachable_b)
                         Hin Hghost) rs (or_introl Hrs))).
Defined.

(** ** The status report *)

Section Status.
Context {W : Type} `{Host W}.

Lemma getGitLatestVersion_returns repo (s : State W) :
  exists s' v, FsExtra.getGitLatestVersion repo s = (s', Returned v).
Proof.
  unfold FsExtra.getGitLatestVersion. apply tryCatch_total.
  intros e s1. now exists s1, "unknown".
Qed.

(** A host that gives no listing gives the latest version ["unknown"],
    whether its command lines reject or resolve with nothing. *)
Lemma getGitLatestVersion_unlisted repo (s : State W) :
  unlisted repo (world s) ->
  snd (FsExtra.getGitLatestVersion repo s) = Returned "unknown".
Proof.
  unfold unlisted, FsExtra.getGitLatestVersion, tryCatch, bind, execAsync, effect, ret,
    tagsCommand, headCommand.
  destruct (h_exec _ defaultMaxBuffer (world s)) as [w1 [tags|e]];
    cbn [world fst snd is_returned]; [|reflexivity].
  intros [Hnone Hhead].
  replace (if tags =? "" then None else match_refs_tags tags) with (@None string)
    by (now destruct (tags =? "")).
  cbn [world].
  destruct (h_exec _ defaultMaxBuffer w1) as [w2 [head|e]];
    cbn [world fst snd is_returned]; [|reflexivity].
  now rewrite Hhead.
Qed.

Lemma getGitLatestVersion_listsHead repo (s : State W) head :
  listsHead repo (world s) head ->
  snd (FsExtra.getGitLatestVersion repo s)
  = Returned (or_else (substring 0 7 (trim head)) "unknown").
Proof.
  intros (w1 & tags & w2 & Ht & Hnone & Hh).
  unfold FsExtra.getGitLatestVersion, tryCatch, bind, execAsync, effect, ret.
  unfold tagsCommand in Ht. unfold headCommand in Hh.
  rewrite Ht. cbn [world fst snd is_returned].
  replace (if tags =? "" then None else match_refs_tags tags) with (@None string)
    by (now destruct (tags =? "")).
  cbn [world]. now rewrite Hh.
Qed.

Lemma getLastModifiedTime_returns dir (s : State W) :
  exists s' t, FsExtra.getLastModifiedTime dir s = (s', Returned t).
Proof.
  unfold FsExtra.getLastModifiedTime. apply tryCatch_total.
  intros e s1. now exists s1, None.
Qed.

(** [getCurrentVersion] of the fs-extra service, by what the host holds:
    it throws exactly the error of reading a manifest that exists, and never
    changes the host. *)
Lemma getCurrentVersion_FsExtra_cases deployPath (s : State W) :
  FsExtra.getCurrentVersion deployPath s =
  if h_exists (path_join deployPath "package.json") (world s) then
    match h_readJson (path_join deployPath "package.json") (world s) with
    | Returned pkg =>
        (mkState (world s)
                 (trace s ++ [Sys (Probe (path_join deployPath "package.json")) true;
                              Sys (ReadJson (path_join deployPath "package.json")) true]),
         Returned (opt_or_else (pkg_version pkg) "unknown"))
    | Thrown e =>
        (mkState (world s)
                 (trace s ++ [Sys (Probe (path_join deployPath "package.json")) true;
                              Sys (ReadJson (path_join deployPath "package.json")) false]),
         Thrown e)
    end
  else
    (mkState (world s)
             (trace s ++ [Sys (Probe (path_join deployPath "package.json")) false]),
     Returned "unknown").
Proof.
  unfold FsExtra.getCurrentVersion, bind, pathExists, readJson, observe, ret, emit.
  destruct (h_exists _ (world s)); cbn [world trace]; [|reflexivity].
  destruct (h_readJson _ (world s)) as [pkg|e]; cbn [is_returned];
    now rewrite <- app_assoc.
Qed.

Lemma getCurrentVersion_FsExtra_thrown deployPath (s s' : State W) e :
  FsExtra.getCurrentVersion deployPath s = (s', Thrown e) ->
  h_exists (path_join deployPath "package.json") (world s) = true /\
  h_readJson (path_join deployPath "package.json") (world s) = Thrown e.
Proof.
  rewrite getCurrentVersion_FsExtra_cases.
  destruct (h_exists _ (world s)); [|discriminate].
  destruct (h_readJson _ (world s)) as [pkg|e']; intros E; inversion E; auto.
Qed.

(** [getCurrentVersion] of the node:fs service never throws; a manifest
    that is missing or cannot be read gives ["unknown"]. *)
Lemma getCurrentVersion_NodeFs_cases deployPath (s : State W) :
  exists s1,
    world s1 = world s /\
    NodeFs.getCurrentVersion deployPath s =
    (s1,
     Returned
       (if h_exists (path_join deployPath "package.json") (world s) then
          match h_readJson (path_join deployPath "package.json") (world s) with
          | Returned pkg => opt_or_else (pkg_version pkg) "unknown"
          | Thrown _ => "unknown"
          end
        else "unknown")).
Proof.
  unfold NodeFs.getCurrentVersion, tryCatch, bind, access, readJson, observe, ret, emit.
  destruct (h_exists _ (world s)); cbn [world trace];
    [|eexists; split; [|reflexivity]; reflexivity].
  destruct (h_readJson _ (world s)) as [pkg|e];
    eexists; (split; [|reflexivity]); reflexivity.
Qed.

(** The rest of the body of the loop, once the deployed version is
    known, always returns an entry without [error]. *)
Lemma status_tail_entry module cur (s : State W) :
  exists s' latest t,
    (latestVersion <- FsExtra.getGitLatestVersion (repo module) ;;
     lastUpdated <- FsExtra.getLastModifiedTime (deployPath module) ;;
     ret {| s_name := name module;
            s_type := type module;
            currentVersion := cur;
            latestVersion := latestVersion;
            s_deployPath := deployPath module;
            status := if cur =? latestVersion then "up-to-date" else "outdated";
            lastUpdated := lastUpdated;
            error := None |}) s = (s', Returned (entry module cur latest t))
    /\ snd (FsExtra.getGitLatestVersion (repo module) s) = Returned latest.
Proof.
  destruct (getGitLatestVersion_returns (repo module) s) as (s1 & v & E1).
  destruct (getLastModifiedTime_returns (deployPath module) s1) as (s2 & t & E2).
  unfold bind. rewrite E1, E2. unfold ret. exists s2, v, t. split; reflexivity.
Qed.

Lemma entry_resolvedOn module cur latest t (s : State W) :
  snd (FsExtra.getGitLatestVersion (repo module) s) = Returned latest ->
  (h_exists (deployedManifest module) (world s) = false -> cur = "unknown") ->
  resolvedOn module (world s) (entry module cur latest t).
Proof.
  intros El Hc. unfold resolvedOn, entry.
  cbn [s_name error status currentVersion latestVersion].
  split; [reflexivity|]. split; [reflexivity|]. split; [reflexivity|].
  split; [exact Hc|]. split.
  - intros Hu. rewrite (getGitLatestVersion_unlisted _ _ Hu) in El. now inversion El.
  - intros head Hl. rewrite (getGitLatestVersion_listsHead _ _ _ Hl) in El.
    now inversion El.
Qed.

(** The body of the loop of the fs-extra service: the failed read of a
    manifest that exists is logged and thrown again. *)
Lemma moduleStatus_FsExtra_unreadable module (s : State W) e :
  manifestUnreadable module (world s) e ->
  FsExtra.moduleStatus module s
  = (mkState (world s)
             (trace s ++ failedRead module
              ++ [Log ConsoleError "getModulesStatus" (Some e)]),
     Thrown e).
Proof.
  intros [He Hr]. unfold deployedManifest in He, Hr.
  unfold FsExtra.moduleStatus, tryCatch. unfold bind at 1.
  rewrite getCurrentVersion_FsExtra_cases, He, Hr.
  unfold bind, logger, throw, emit, failedRead, deployedManifest. cbn [world trace].
  now rewrite <- app_assoc.
Qed.

Lemma moduleStatus_FsExtra_cases module (s : State W) :
  match FsExtra.moduleStatus module s with
  | (_, Returned st) => resolvedOn module (world s) st
  | (_, Thrown e) => manifestUnreadable module (world s) e
  end.
Proof.
  unfold FsExtra.moduleStatus, tryCatch. unfold bind at 1.
  destruct (FsExtra.getCurrentVersion (deployPath module) s) as [s1 [v|e]] eqn:E.
  - destruct (status_tail_entry module v s1) as (s' & latest & t & E' & El).
    rewrite E'.
    rewrite getCurrentVersion_FsExtra_cases in E.
    assert (Hw : world s1 = world s /\
                 (h_exists (deployedManifest module) (world s) = false -> v = "unknown")).
    { unfold deployedManifest.
      destruct (h_exists _ (world s)).
      - destruct (h_readJson _ (world s)); inversion E; subst.
        split; [reflexivity | discriminate].
      - inversion E; subst. split; reflexivity. }
    destruct Hw as [Hw Hv]. rewrite <- Hw in *. now apply entry_resolvedOn.
  - unfold bind, logger, throw. simpl.
    eapply getCurrentVersion_FsExtra_thrown; eauto.
Qed.

(** The body of the loop of the node:fs service always returns an entry. *)
Lemma moduleStatus_NodeFs_resolved module (s : State W) :
  exists s' st,
    NodeFs.moduleStatus module s = (s', Returned st) /\
    resolvedOn module (world s) st /\
    (forall e, h_readJson (deployedManifest module) (world s) = Thrown e ->
               currentVersion st = "unknown").
Proof.
  unfold NodeFs.moduleStatus, tryCatch. unfold bind at 1.
  destruct (getCurrentVersion_NodeFs_cases (deployPath module) s) as (s1 & Hw & E).
  rewrite E.
  match type of E with
  | _ = (_, Returned ?v) =>
      destruct (status_tail_entry module v s1) as (s' & latest & t & E' & El)
  end.
  unfold NodeFs.getGitLatestVersion, NodeFs.getLastModifiedTime.
  rewrite E'. eexists s', _. split; [reflexivity|].
  rewrite <- Hw. split.
  - apply entry_resolvedOn; [exact El|]. rewrite Hw.
    unfold deployedManifest. now intros ->.
  - rewrite Hw. unfold deployedManifest. intros e Hr.
    cbn [currentVersion entry]. rewrite Hr. now destruct (h_exists _ (world s)).
Qed.

(** The body of the loop of the design note's service always returns an
    entry: the error entry exactly when the manifest is there and cannot be
    read. *)
Lemma moduleStatus_Draft_resolved module (s : State W) :
  exists s' st,
    Draft.moduleStatus module s = (s', Returned st) /\
    s_name st = name module /\
    (forall e, manifestUnreadable module (world s) e -> st = errorEntry module e) /\
    ((forall e, ~ manifestUnreadable module (world s) e) ->
     resolvedOn module (world s) st) /\
    (unlisted (repo module) (world s) -> latestVersion st = "unknown").
Proof.
  pose proof (moduleStatus_FsExtra_cases module s) as C.
  unfold FsExtra.moduleStatus, tryCatch in C. unfold bind at 1 in C.
  unfold Draft.moduleStatus, tryCatch. unfold bind at 1.
  destruct (FsExtra.getCurrentVersion (deployPath module) s) as [s1 [v|e]] eqn:E.
  - destruct (status_tail_entry module v s1) as (s' & latest & t & E' & El).
    rewrite E' in C |- *. exists s', (entry module v latest t).
    split; [reflexivity|]. split; [reflexivity|].
    rewrite getCurrentVersion_FsExtra_cases in E. split; [|split].
    + intros e [He Hr]. unfold deployedManifest in He, Hr. rewrite He, Hr in E.
      discriminate.
    + intros _. exact C.
    + apply C.
  - unfold bind, logger, throw in C. simpl in C. destruct C as [He Hr].
    unfold ret. exists s1, (errorEntry module e).
    split; [reflexivity|]. split; [reflexivity|]. split; [|split].
    + intros e' [_ Hr']. rewrite Hr in Hr'. now inversion Hr'.
    + intros Hno. exfalso. apply (Hno e). now split.
    + reflexivity.
Qed.

Lemma Forall2_map_Forall {A B C} (f : A -> C) (g : B -> C) (P : B -> Prop) xs ys :
  Forall2 (fun x y => g y = f x /\ P y) xs ys ->
  map g ys = map f xs /\ Forall P ys.
Proof.
  induction 1 as [|x y xs ys [E Py] _ [IHm IHp]]; simpl.
  - split; constructor.
  - split; [congruence | now constructor].
Qed.
End Status.

(** C3, as stated, fails: the deployed manifest of the second of three
    modules is not valid JSON, and [getModulesStatus] of the fs-extra
    service throws the parse error instead of returning a list. *)
Lemma getModulesStatus_aborts_on_corrupt_manifest :
  snd (FsExtra.getModulesStatus Scenario.three (Toy.boot Scenario.corrupt_manifest))
  = Thrown "Unexpected token } in JSON at position 17" /\
  (forall l,
     snd (FsExtra.getModulesStatus Scenario.three (Toy.boot Scenario.corrupt_manifest))
     <> Returned l).
Proof.
  split; [vm_compute; reflexivity|].
  intros l. vm_compute. discriminate.
Qed.

(** C3, amended. The three services differ.

    In the fs-extra service, when the loop comes to a module whose deployed
    manifest is there and cannot be read, the failure is logged and thrown
    again: the whole call throws it, in the state that module left, and
    returns no list. That is the only way the call throws; otherwise it
    returns one entry per configured module, in order, none with [error].

    In the node:fs service nothing is thrown: the call always returns one
    entry per configured module, in order, none with [error], and the entry
    of a module whose manifest cannot be read has the current version
    ["unknown"].

    In the service of the design note nothing is thrown either: the call
    always returns one entry per configured module, in order, and the entry
    of a module is the error entry (status ["error"], both versions
    ["unknown"], the message of the failure) exactly when its manifest is
    there and cannot be read.

    In all three, a remote that gives no listing (the command lines reject,
    or resolve with nothing as a pipeline does when [git] fails) is no
    failure of the call: the entry of that module has the latest version
    ["unknown"]. *)
Theorem getModulesStatus_outcomes {W : Type} `{Host W}
    (modules : list ModuleConfig) (s : State W) :
  ((forall before m s0 e,
      comesTo FsExtra.moduleStatus modules s before m s0 ->
      manifestUnreadable m (world s0) e ->
      FsExtra.getModulesStatus modules s
      = (mkState (world s0)
                 (trace s0 ++ failedRead m
                  ++ [Log ConsoleError "getModulesStatus" (Some e)]),
         Thrown e)) /\
   match FsExtra.getModulesStatus modules s with
   | (_, Returned l) =>
       map s_name l = map name modules /\ Forall (fun st => error st = None) l
   | (_, Thrown e) =>
       exists before m s0,
         comesTo FsExtra.moduleStatus modules s before m s0 /\
         manifestUnreadable m (world s0) e
   end /\
   (forall before m s0 s' l,
      comesTo FsExtra.moduleStatus modules s before m s0 ->
      FsExtra.getModulesStatus modules s = (s', Returned l) ->
      exists st,
        entryOf before l = Some st /\ s_name st = name m /\
        (unlisted (repo m) (world s0) -> latestVersion st = "unknown"))) /\
  (exists s' l,
     NodeFs.getModulesStatus modules s = (s', Returned l) /\
     map s_name l = map name modules /\ Forall (fun st => error st = None) l /\
     forall before m s0,
       comesTo NodeFs.moduleStatus modules s before m s0 ->
       exists st,
         entryOf before l = Some st /\ s_name st = name m /\
         (forall e, h_readJson (deployedManifest m) (world s0) = Thrown e ->
                    currentVersion st = "unknown") /\
         (unlisted (repo m) (world s0) -> latestVersion st = "unknown")) /\
  (exists s' l,
     Draft.getModulesStatus modules s = (s', Returned l) /\
     map s_name l = map name modules /\
     forall before m s0,
       comesTo Draft.moduleStatus modules s before m s0 ->
       exists st,
         entryOf before l = Some st /\ s_name st = name m /\
         (forall e, manifestUnreadable m (world s0) e -> st = errorEntry m e) /\
         ((forall e, ~ manifestUnreadable m (world s0) e) -> error st = None) /\
         (unlisted (repo m) (world s0) -> latestVersion st = "unknown")).
Proof.
  split; [split; [|split] | split].
  - intros before m s0 e (after & rs & -> & Eb) Hu.
    unfold FsExtra.getModulesStatus.
    rewrite (forEachPush_at FsExtra.moduleStatus before m after s s0 rs Eb).
    now rewrite (moduleStatus_FsExtra_unreadable m s0 e Hu).
  - unfold FsExtra.getModulesStatus.
    assert (Hret : forall x s0 s1 st,
               FsExtra.moduleStatus x s0 = (s1, Returned st) ->
               s_name st = name x /\ error st = None).
    { intros x s0 s1 st E. pose proof (moduleStatus_FsExtra_cases x s0) as Cx.
      rewrite E in Cx. destruct Cx as (Hn & He & _). now split. }
    pose proof (forEachPush_cases FsExtra.moduleStatus
                  (fun m st => s_name st = name m /\ error st = None) modules Hret s) as C.
    destruct (forEachPush FsExtra.moduleStatus modules s) as [s' [l|e]].
    + now apply Forall2_map_Forall.
    + destruct C as (before & m & after & s0 & rs & -> & Eb & Em).
      pose proof (moduleStatus_FsExtra_cases m s0) as Cm. rewrite Em in Cm.
      exists before, m, s0. split; [|exact Cm]. now exists after, rs.
  - intros before m s0 s' l (after & rs & -> & Eb) E.
    unfold FsExtra.getModulesStatus in E.
    destruct (forEachPush_entry FsExtra.moduleStatus before m after s s0 rs s' l Eb E)
      as (s1 & st & Em & En).
    pose proof (moduleStatus_FsExtra_cases m s0) as Cm. rewrite Em in Cm.
    destruct Cm as (Hn & _ & _ & _ & Hl & _).
    exists st. split; [exact En|]. now split.
  - destruct (forEachPush_total NodeFs.moduleStatus
                (fun m st => s_name st = name m /\ error st = None) modules)
      with (s := s) as (s' & l & E & F).
    + intros x s0.
      destruct (moduleStatus_NodeFs_resolved x s0) as (s1 & st & E & (Hn & He & _) & _).
      eauto.
    + exists s', l. split; [exact E|].
      destruct (Forall2_map_Forall name s_name (fun st => error st = None) modules l F)
        as [Hm Hf].
      split; [exact Hm|]. split; [exact Hf|].
      intros before m s0 (after & rs & -> & Eb).
      unfold NodeFs.getModulesStatus in E.
      destruct (forEachPush_entry NodeFs.moduleStatus before m after s s0 rs s' l Eb E)
        as (s1 & st & Em & En).
      destruct (moduleStatus_NodeFs_resolved m s0)
        as (s1' & st' & Em' & (Hn & _ & _ & _ & Hl & _) & Hc).
      rewrite Em in Em'. inversion Em'; subst st'.
      exists st. split; [exact En|]. split; [exact Hn|]. now split.
  - destruct (forEachPush_total Draft.moduleStatus
                (fun m st => s_name st = name m /\ True) modules)
      with (s := s) as (s' & l & E & F).
    + intros x s0.
      destruct (moduleStatus_Draft_resolved x s0) as (s1 & st & E & Hn & _).
      eauto.
    + exists s', l. split; [exact E|].
      destruct (Forall2_map_Forall name s_name (fun _ => True) modules l F) as [Hm _].
      split; [exact Hm|].
      intros before m s0 (after & rs & -> & Eb).
      unfold Draft.getModulesStatus in E.
      destruct (forEachPush_entry Draft.moduleStatus before m after s s0 rs s' l Eb E)
        as (s1 & st & Em & En).
      destruct (moduleStatus_Draft_resolved m s0)
        as (s1' & st' & Em' & Hn & Herr & Hok & Hl).
      rewrite Em in Em'. inversion Em'; subst st'.
      exists st. split; [exact En|]. split; [exact Hn|]. split; [exact Herr|].
      split; [|exact Hl].
      intros Hno. now destruct (Hok Hno) as (_ & He & _).
Qed.

Lemma getModulesStatus_outcomes_witness :
  let a := Scenario.backendModule "a" in
  let b := Scenario.backendModule "b" in
  let s := Toy.boot Scenario.corrupt_manifest in
  let s0 := fst (FsExtra.moduleStatus a s) in
  let failure := "Unexpected token } in JSON at position 17" in
  manifestUnreadable b (world s0) failure /\
  unlisted (repo b) (world s0) /\
  snd (FsExtra.getModulesStatus Scenario.three s) = Thrown failure /\
  (exists l st,
     snd (NodeFs.getModulesStatus Scenario.three s) = Returned l /\
     nth_error l 1 = Some st /\
     currentVersion st = "unknown" /\ latestVersion st = "unknown") /\
  (exists l st,
     snd (Draft.getModulesStatus Scenario.three s) = Returned l /\
     nth_error l 0 = Some st /\ error st = None /\
     nth_error l 1 = Some (errorEntry b failure)) /\
  (exists l st,
     snd (FsExtra.getModulesStatus Scenario.three (Toy.boot Scenario.offline))
     = Returned l /\
     nth_error l 0 = Some st /\ s_name st = "a" /\ latestVersion st = "unknown").
Proof.
  intros a b s s0 failure.
  assert (Hu : manifestUnreadable b (world s0) failure) by (split; reflexivity).
  assert (Hl : unlisted (repo b) (world s0)) by (split; reflexivity).
  destruct (getModulesStatus_outcomes Scenario.three s)
    as ((Habort & _ & _) & (s1 & l1 & E1 & _ & _ & Hn) & (s2 & l2 & E2 & _ & Hd)).
  split; [exact Hu|]. split; [exact Hl|]. split; [|split; [|split]].
  - assert (Hc : comesTo FsExtra.moduleStatus Scenario.three s [a] b s0)
      by (eexists [Scenario.backendModule "c"], _; split; reflexivity).
    exact (f_equal snd (Habort [a] b s0 failure Hc Hu)).
  - assert (Hc : comesTo NodeFs.moduleStatus Scenario.three s [a] b s0)
      by (eexists [Scenario.backendModule "c"], _; split; reflexivity).
    destruct (Hn [a] b s0 Hc) as (st & En & _ & Hcur & Hlat).
    exists l1, st. split; [exact (f_equal snd E1)|]. split; [exact En|].
    split; [exact (Hcur failure (proj2 Hu)) | exact (Hlat Hl)].
  - assert (Hc : comesTo Draft.moduleStatus Scenario.three s [a] b s0)
      by (eexists [Scenario.backendModule "c"], _; split; reflexivity).
    assert (Hc0 : comesTo Draft.moduleStatus Scenario.three s [] a s)
      by (eexists [b; Scenario.backendModule "c"], _; split; reflexivity).
    assert (Hreadable : forall e, ~ manifestUnreadable a (world s) e)
      by (intros e [He _]; discriminate He).
    destruct (Hd [a] b s0 Hc) as (st & En & _ & Herr & _).
    destruct (Hd [] a s Hc0) as (st0 & En0 & _ & _ & Hok & _).
    exists l2, st0. split; [exact (f_equal snd E2)|]. split; [exact En0|].
    split; [exact (Hok Hreadable)|].
    rewrite <- (Herr failure Hu). exact En.
  - destruct (getModulesStatus_outcomes Scenario.three (Toy.boot Scenario.offline))
      as ((_ & _ & Hremote) & _).
    assert (Hc : comesTo FsExtra.moduleStatus Scenario.three
                   (Toy.boot Scenario.offline) [] a (Toy.boot Scenario.offline))
      by (eexists [b; Scenario.backendModule "c"], _; split; reflexivity).
    assert (Hoff : unlisted (repo a) Scenario.offline) by (split; reflexivity).
    destruct (FsExtra.getModulesStatus Scenario.three (Toy.boot Scenario.offline))
      as [s' [l|e]] eqn:E; [|vm_compute in E; discriminate E].
    destruct (Hremote [] a (Toy.boot Scenario.offline) s' l Hc eq_refl)
      as (st & En & Hname & Hlat).
    exists l, st. split; [reflexivity|]. split; [exact En|].
    split; [exact Hname | exact (Hlat Hoff)].
Defined.

(** * Further properties of the service *)

(** ** Rules of the logic of traces *)

Section TraceLogic.
Context {W : Type} `{Host W}.

Lemma grows_refl (P : Event -> Prop) (s : State W) : grows P s s.
Proof. exists []. split; [now rewrite app_nil_r | constructor]. Qed.

Lemma grows_trans (P : Event -> Prop) (s1 s2 s3 : State W) :
  grows P s1 s2 -> grows P s2 s3 -> grows P s1 s3.
Proof.
  intros (e1 & E1 & F1) (e2 & E2 & F2). exists (e1 ++ e2)%list. split.
  - now rewrite E2, E1, app_assoc.
  - apply Forall_app. now split.
Qed.

Lemma grows_emit (P : Event -> Prop) (s : State W) e : P e -> grows P s (emit e s).
Proof. intros Pe. exists [e]. split; [reflexivity | now constructor]. Qed.

Lemma ensures_grows {A} (P : Event -> Prop) (Q : A -> Prop) (m : M W A) (s : State W) :
  ensures P Q m -> grows P s (fst (m s)).
Proof. intros Hm. apply (Hm s). Qed.

Lemma ensures_weaken {A} (P P' : Event -> Prop) (Q Q' : A -> Prop) (m : M W A) :
  (forall e, P e -> P' e) -> (forall a, Q a -> Q' a) ->
  ensures P Q m -> ensures P' Q' m.
Proof.
  intros HP HQ Hm s. destruct (Hm s) as [(evs & E & F) Hq]. split.
  - exists evs. split; [exact E|]. eapply Forall_impl; eauto.
  - intros a Ea. auto.
Qed.

Lemma ensures_ret {A} (P : Event -> Prop) (Q : A -> Prop) (a : A) :
  Q a -> ensures P Q (ret (W:=W) a).
Proof.
  intros Qa s. split; [apply grows_refl|].
  intros a' E. simpl in E. now inversion E; subst.
Qed.

Lemma ensures_throw {A} (P : Event -> Prop) (Q : A -> Prop) e :
  ensures P Q (throw (W:=W) e).
Proof. intros s. split; [apply grows_refl|]. intros a E. discriminate E. Qed.

Lemma ensures_bind {A B} (P : Event -> Prop) (R : A -> Prop) (Q : B -> Prop)
      (m : M W A) (k : A -> M W B) :
  ensures P R m -> (forall a, R a -> ensures P Q (k a)) -> ensures P Q (bind m k).
Proof.
  intros Hm Hk s. unfold bind. destruct (Hm s) as [G Hr].
  destruct (m s) as [s1 [a|e]]; simpl in *.
  - destruct (Hk a (Hr a eq_refl) s1) as [G1 Hq]. split; [|exact Hq].
    eapply grows_trans; eauto.
  - split; [exact G|]. intros b E. discriminate E.
Qed.

Lemma ensures_seq {A B} (P : Event -> Prop) (Q : B -> Prop)
      (m : M W A) (k : A -> M W B) :
  ensures P anything m -> (forall a, ensures P Q (k a)) -> ensures P Q (bind m k).
Proof. intros Hm Hk. apply ensures_bind with (R := anything); auto. Qed.

Lemma ensures_tryCatch {A} (P : Event -> Prop) (Q : A -> Prop)
      (m : M W A) (h : Error -> M W A) :
  ensures P Q m -> (forall e, ensures P Q (h e)) -> ensures P Q (tryCatch m h).
Proof.
  intros Hm Hh s. unfold tryCatch. destruct (Hm s) as [G Hq].
  destruct (m s) as [s1 [a|e]]; simpl in *.
  - now split.
  - destruct (Hh e s1) as [G1 Hq1]. split; [|exact Hq1].
    eapply grows_trans; eauto.
Qed.

Lemma ensures_tryFinally {A} (P : Event -> Prop) (Q : A -> Prop)
      (m : M W A) (fin : M W unit) :
  ensures P Q m -> ensures P anything fin -> ensures P Q (tryFinally m fin).
Proof.
  intros Hm Hf s. unfold tryFinally. destruct (Hm s) as [G Hq].
  destruct (m s) as [s1 c]; simpl in *.
  destruct (Hf s1) as [G1 _]. destruct (fin s1) as [s2 [[]|e]]; simpl in *.
  - split; [eapply grows_trans; eauto | exact Hq].
  - split; [eapply grows_trans; eauto |]. intros a E. discriminate E.
Qed.

Lemma ensures_forEachPush {A B} (P : Event -> Prop) (Q : A -> B -> Prop)
      (f : A -> M W B) (xs : list A) :
  (forall x, In x xs -> ensures P (Q x) (f x)) ->
  ensures P (fun rs => Forall2 Q xs rs) (forEachPush f xs).
Proof.
  induction xs as [|x xs IH]; intros Hf; simpl.
  - apply ensures_ret. constructor.
  - apply ensures_bind with (R := Q x); [apply Hf; now left|].
    intros r Qr. apply ensures_bind with (R := fun rs => Forall2 Q xs rs).
    + apply IH. intros y Hy. apply Hf. now right.
    + intros rs Qrs. apply ensures_ret. now constructor.
Qed.

Lemma ensures_effect {A} (P : Event -> Prop) (c : Call) (op : W -> W * Completion A) :
  P (Sys c true) -> P (Sys c false) -> ensures P anything (effect c op).
Proof.
  intros Pt Pf s. unfold effect. destruct (op (world s)) as [w r]. simpl.
  split; [|intros; exact I].
  exists [Sys c (is_returned r)]. split; [reflexivity|].
  constructor; [|constructor]. now destruct r.
Qed.

Lemma ensures_observe {A} (P : Event -> Prop) (c : Call) (op : W -> Completion A) :
  P (Sys c true) -> P (Sys c false) -> ensures P anything (observe c op).
Proof.
  intros Pt Pf s. unfold observe. simpl. split; [|intros; exact I].
  apply grows_emit. now destruct (op (world s)).
Qed.

Lemma ensures_pathExists (P : Event -> Prop) p :
  P (Sys (Probe p) true) -> P (Sys (Probe p) false) -> ensures P anything (pathExists p).
Proof.
  intros Pt Pf s. unfold pathExists. simpl. split; [|intros; exact I].
  apply grows_emit. now destruct (h_exists p (world s)).
Qed.

Lemma ensures_access (P : Event -> Prop) p :
  P (Sys (Probe p) true) -> P (Sys (Probe p) false) -> ensures P anything (access p).
Proof.
  intros Pt Pf s. unfold access. simpl. split; [|intros; exact I].
  apply grows_emit. now destruct (h_exists p (world s)).
Qed.

Lemma ensures_logger (P : Event -> Prop) l msg err :
  P (Log l msg err) -> ensures P anything (logger (W:=W) l msg err).
Proof.
  intros Pl s. unfold logger. simpl. split; [|intros; exact I].
  now apply grows_emit.
Qed.

Lemma ensures_date_now (P : Event -> Prop) : ensures P anything (date_now (W:=W)).
Proof. intros s. split; [apply grows_refl | intros; exact I]. Qed.

Lemma ensures_new_Date (P : Event -> Prop) :
  ensures P anything (new_Date_toISOString (W:=W)).
Proof. intros s. split; [apply grows_refl | intros; exact I]. Qed.
End TraceLogic.

(** Splits a computation into its awaited steps and closes the steps that
    are library calls. *)
Ltac trace_step :=
  first
    [ apply ensures_ret
    | apply ensures_throw
    | apply ensures_pathExists
    | apply ensures_access
    | apply ensures_logger
    | apply ensures_date_now
    | apply ensures_new_Date
    | apply ensures_effect
    | apply ensures_observe
    | apply ensures_tryCatch; [|intros ?]
    | apply ensures_seq; [|intros ?] ].

Ltac trace_auto :=
  repeat (trace_step; simpl);
  try exact I; try (unfold anything; exact I).

(** ** The status report: what it reads and how it compares *)

Section StatusReport.
Context {W : Type} `{Host W}.

Lemma getCurrentVersion_FsExtra_reads deployPath :
  ensures readOnly anything (FsExtra.getCurrentVersion (W:=W) deployPath).
Proof.
  unfold FsExtra.getCurrentVersion. apply ensures_seq; [trace_auto|].
  intros b. destruct b; trace_auto.
Qed.

Lemma getCurrentVersion_NodeFs_reads deployPath :
  ensures readOnly anything (NodeFs.getCurrentVersion (W:=W) deployPath).
Proof.
  unfold NodeFs.getCurrentVersion, readJson. trace_auto.
Qed.

Lemma getGitLatestVersion_reads repo :
  ensures readOnly anything (FsExtra.getGitLatestVersion (W:=W) repo).
Proof.
  unfold FsExtra.getGitLatestVersion, execAsync.
  apply ensures_tryCatch; [|intros e; trace_auto].
  apply ensures_seq; [apply ensures_effect; reflexivity|].
  intros stdout.
  destruct (if stdout =? "" then None else match_refs_tags stdout) as [tag|].
  - trace_auto.
  - apply ensures_seq; [apply ensures_effect; reflexivity|].
    intros out. trace_auto.
Qed.

Lemma getLastModifiedTime_reads dir :
  ensures readOnly anything (FsExtra.getLastModifiedTime (W:=W) dir).
Proof.
  unfold FsExtra.getLastModifiedTime, stat_mtime. trace_auto.
Qed.

(** The entry the [try] block of the loop pushes obeys the rule. *)
Lemma status_entry_rule module (cur latest : string) lastUpdated :
  statusRule {| s_name := name module;
                s_type := type module;
                currentVersion := cur;
                latestVersion := latest;
                s_deployPath := deployPath module;
                status := if cur =? latest then "up-to-date" else "outdated";
                lastUpdated := lastUpdated;
                error := None |}.
Proof.
  intros _. simpl. destruct (String.eqb_spec cur latest); [left | right]; auto.
Qed.

Lemma status_tail_ensures module cur :
  ensures readOnly statusRule
    (latestVersion <- FsExtra.getGitLatestVersion (W:=W) (repo module) ;;
     lastUpdated <- FsExtra.getLastModifiedTime (deployPath module) ;;
     ret {| s_name := name module;
            s_type := type module;
            currentVersion := cur;
            latestVersion := latestVersion;
            s_deployPath := deployPath module;
            status := if cur =? latestVersion then "up-to-date" else "outdated";
            lastUpdated := lastUpdated;
            error := None |}).
Proof.
  apply ensures_seq; [apply getGitLatestVersion_reads|]. intros latest.
  apply ensures_seq; [apply getLastModifiedTime_reads|]. intros lastUpdated.
  apply ensures_ret. apply status_entry_rule.
Qed.

Lemma moduleStatus_FsExtra_ensures module :
  ensures readOnly statusRule (FsExtra.moduleStatus (W:=W) module).
Proof.
  unfold FsExtra.moduleStatus. apply ensures_tryCatch.
  - apply ensures_seq; [apply getCurrentVersion_FsExtra_reads|].
    intros cur. apply status_tail_ensures.
  - intros e. trace_auto.
Qed.

Lemma moduleStatus_NodeFs_ensures module :
  ensures readOnly statusRule (NodeFs.moduleStatus (W:=W) module).
Proof.
  unfold NodeFs.moduleStatus. apply ensures_tryCatch.
  - apply ensures_seq; [apply getCurrentVersion_NodeFs_reads|].
    intros cur. apply status_tail_ensures.
  - intros e. trace_auto.
Qed.

Lemma moduleStatus_Draft_ensures module :
  ensures readOnly statusRule (Draft.moduleStatus (W:=W) module).
Proof.
  unfold Draft.moduleStatus. apply ensures_tryCatch.
  - apply ensures_seq; [apply getCurrentVersion_FsExtra_reads|].
    intros cur. apply status_tail_ensures.
  - intros e. apply ensures_ret. intros E. discriminate E.
Qed.

Lemma Forall2_right {A B} (Q : B -> Prop) (xs : list A) (ys : list B) :
  Forall2 (fun _ y => Q y) xs ys -> Forall Q ys.
Proof. induction 1; constructor; auto. Qed.

Lemma getModulesStatus_ensures (modules : list ModuleConfig) :
  ensures readOnly (Forall statusRule) (FsExtra.getModulesStatus (W:=W) modules) /\
  ensures readOnly (Forall statusRule) (NodeFs.getModulesStatus (W:=W) modules) /\
  ensures readOnly (Forall statusRule) (Draft.getModulesStatus (W:=W) modules).
Proof.
  unfold FsExtra.getModulesStatus, NodeFs.getModulesStatus, Draft.getModulesStatus.
  split; [|split].
  - apply (ensures_weaken readOnly readOnly
             (fun rs => Forall2 (fun _ st => statusRule st) modules rs)
             (Forall statusRule)).
    + auto.
    + intros l. apply Forall2_right.
    + apply (ensures_forEachPush readOnly (fun _ st => statusRule st)).
      intros x _. apply moduleStatus_FsExtra_ensures.
  - apply (ensures_weaken readOnly readOnly
             (fun rs => Forall2 (fun _ st => statusRule st) modules rs)
             (Forall statusRule)).
    + auto.
    + intros l. apply Forall2_right.
    + apply (ensures_forEachPush readOnly (fun _ st => statusRule st)).
      intros x _. apply moduleStatus_NodeFs_ensures.
  - apply (ensures_weaken readOnly readOnly
             (fun rs => Forall2 (fun _ st => statusRule st) modules rs)
             (Forall statusRule)).
    + auto.
    + intros l. apply Forall2_right.
    + apply (ensures_forEachPush readOnly (fun _ st => statusRule st)).
      intros x _. apply moduleStatus_Draft_ensures.
Qed.
End StatusReport.

(** X1. Every entry [getModulesStatus] returns, in each of the three
    services, is ["up-to-date"] exactly when its current and latest
    versions are the same string, and ["outdated"] otherwise; only the
    error entries of the design note are exempt. *)
Theorem getModulesStatus_exact_match {W : Type} `{Host W}
    (modules : list ModuleConfig) (s : State W) :
  match snd (FsExtra.getModulesStatus modules s) with
  | Returned l => Forall statusRule l
  | Thrown _ => True
  end /\
  match snd (NodeFs.getModulesStatus modules s) with
  | Returned l => Forall statusRule l
  | Thrown _ => True
  end /\
  match snd (Draft.getModulesStatus modules s) with
  | Returned l => Forall statusRule l
  | Thrown _ => True
  end.
Proof.
  destruct (getModulesStatus_ensures (W:=W) modules) as (Ha & Hb & Hc).
  split; [|split].
  - destruct (Ha s) as [_ Q].
    destruct (snd (FsExtra.getModulesStatus modules s)); [now apply Q | exact I].
  - destruct (Hb s) as [_ Q].
    destruct (snd (NodeFs.getModulesStatus modules s)); [now apply Q | exact I].
  - destruct (Hc s) as [_ Q].
    destruct (snd (Draft.getModulesStatus modules s)); [now apply Q | exact I].
Qed.

(** X2. [getModulesStatus], in each of the three services and whether it
    returns or throws, only probes paths, reads manifests, stats
    directories, runs [git ls-remote] and logs: it never creates, copies,
    empties or removes anything, and runs no other command. *)
Theorem getModulesStatus_only_reads {W : Type} `{Host W}
    (modules : list ModuleConfig) (s : State W) :
  grows readOnly s (fst (FsExtra.getModulesStatus modules s)) /\
  grows readOnly s (fst (NodeFs.getModulesStatus modules s)) /\
  grows readOnly s (fst (Draft.getModulesStatus modules s)).
Proof.
  destruct (getModulesStatus_ensures (W:=W) modules) as (Ha & Hb & Hc).
  split; [apply (Ha s) | split; [apply (Hb s) | apply (Hc s)]].
Qed.

(** X3. A module that is not deployed (no manifest under its deploy path)
    and whose remote gives no listing is reported ["up-to-date"] by each of
    the three services, wherever it stands in the configured list: both
    versions resolve to ["unknown"], and the two are the same string. The
    remote gives no listing when the command line of the tags rejects, and
    also when it resolves with nothing, as a pipeline does when [git]
    fails, and the command line of the head rejects or prints nothing. When
    instead the head is listed, the same module carries the first seven
    characters of the revision and is reported ["outdated"]. The node:fs
    and the design note's service always return that entry; the fs-extra
    service returns it whenever its call returns. *)
Theorem undeployed_unreachable_is_up_to_date {W : Type} `{Host W}
    (modules : list ModuleConfig) (s : State W)
    (before : list ModuleConfig) (m : ModuleConfig) (s0 : State W) :
  h_exists (deployedManifest m) (world s0) = false ->
  let reported (latest verdict : string) (l : list ModuleStatus) :=
    exists st, entryOf before l = Some st /\
               s_name st = name m /\
               currentVersion st = "unknown" /\ latestVersion st = latest /\
               status st = verdict /\ error st = None in
  let report (l : list ModuleStatus) :=
    (unlisted (repo m) (world s0) -> reported "unknown" "up-to-date" l) /\
    (forall head,
       listsHead (repo m) (world s0) head ->
       substring 0 7 (trim head) <> "" ->
       substring 0 7 (trim head) <> "unknown" ->
       reported (substring 0 7 (trim head)) "outdated" l) in
  (comesTo FsExtra.moduleStatus modules s before m s0 ->
   forall s' l, FsExtra.getModulesStatus modules s = (s', Returned l) -> report l) /\
  (comesTo NodeFs.moduleStatus modules s before m s0 ->
   exists s' l, NodeFs.getModulesStatus modules s = (s', Returned l) /\ report l) /\
  (comesTo Draft.moduleStatus modules s before m s0 ->
   exists s' l, Draft.getModulesStatus modules s = (s', Returned l) /\ report l).
Proof.
  intros Habsent reported report.
  assert (Hreport : forall l st,
             entryOf before l = Some st -> resolvedOn m (world s0) st -> report l).
  { intros l st En (Hn & He & Hs & Hc & Hl & Hh). specialize (Hc Habsent). split.
    - intros Hu. exists st. rewrite Hs, Hc, (Hl Hu). repeat split; assumption.
    - intros head Hlist Hne Hrev. exists st. rewrite Hs, Hc, (Hh head Hlist).
      unfold or_else. apply String.eqb_neq in Hne. rewrite Hne.
      assert (Hd : ("unknown" =? substring 0 7 (trim head)) = false)
        by (apply String.eqb_neq; congruence).
      rewrite Hd. repeat split; assumption. }
  split; [|split].
  - intros (after & rs & -> & Eb) s' l E.
    unfold FsExtra.getModulesStatus in E.
    destruct (forEachPush_entry FsExtra.moduleStatus before m after s s0 rs s' l Eb E)
      as (s1 & st & Em & En).
    pose proof (moduleStatus_FsExtra_cases m s0) as Cm. rewrite Em in Cm.
    exact (Hreport l st En Cm).
  - intros (after & rs & -> & Eb).
    destruct (forEachPush_total NodeFs.moduleStatus (fun _ _ => True)
                (before ++ m :: after)%list) with (s := s) as (s' & l & E & _).
    { intros x s1. destruct (moduleStatus_NodeFs_resolved x s1) as (s2 & st & E & _).
      eauto. }
    exists s', l. split; [exact E|].
    destruct (forEachPush_entry NodeFs.moduleStatus before m after s s0 rs s' l Eb E)
      as (s1 & st & Em & En).
    destruct (moduleStatus_NodeFs_resolved m s0) as (s1' & st' & Em' & Hres & _).
    rewrite Em in Em'. inversion Em'; subst st'.
    exact (Hreport l st En Hres).
  - intros (after & rs & -> & Eb).
    destruct (forEachPush_total Draft.moduleStatus (fun _ _ => True)
                (before ++ m :: after)%list) with (s := s) as (s' & l & E & _).
    { intros x s1. destruct (moduleStatus_Draft_resolved x s1) as (s2 & st & E & _).
      eauto. }
    exists s', l. split; [exact E|].
    destruct (forEachPush_entry Draft.moduleStatus before m after s s0 rs s' l Eb E)
      as (s1 & st & Em & En).
    destruct (moduleStatus_Draft_resolved m s0) as (s1' & st' & Em' & _ & _ & Hres & _).
    rewrite Em in Em'. inversion Em'; subst st'.
    apply (Hreport l st En). apply Hres.
    intros e [He _]. rewrite Habsent in He. discriminate.
Qed.

Lemma undeployed_unreachable_witness :
  let a := Scenario.backendModule "a" in
  let b := Scenario.backendModule "b" in
  let s := Toy.boot Scenario.offline in
  let s0 := fst (FsExtra.moduleStatus a s) in
  h_exists (deployedManifest b) (world s0) = false /\
  unlisted (repo b) (world s0) /\
  comesTo FsExtra.moduleStatus Scenario.three s [a] b s0 /\
  (exists l st,
     snd (FsExtra.getModulesStatus Scenario.three s) = Returned l /\
     nth_error l 1 = Some st /\
     s_name st = "b" /\
     currentVersion st = "unknown" /\ latestVersion st = "unknown" /\
     status st = "up-to-date" /\ error st = None) /\
  (exists l st,
     snd (FsExtra.getModulesStatus [a] (Toy.boot Scenario.head_only)) = Returned l /\
     nth_error l 0 = Some st /\
     currentVersion st = "unknown" /\ latestVersion st = "4b825dc" /\
     status st = "outdated").
Proof.
  intros a b s s0.
  assert (Habsent : h_exists (deployedManifest b) (world s0) = false) by reflexivity.
  assert (Hu : unlisted (repo b) (world s0)) by (split; reflexivity).
  assert (Hc : comesTo FsExtra.moduleStatus Scenario.three s [a] b s0)
    by (eexists [Scenario.backendModule "c"], _; split; reflexivity).
  split; [exact Habsent|]. split; [exact Hu|]. split; [exact Hc|]. split.
  - destruct (FsExtra.getModulesStatus Scenario.three s) as [s' [l|e]] eqn:E;
      [|vm_compute in E; discriminate E].
    destruct (proj1 (proj1 (undeployed_unreachable_is_up_to_date
                              Scenario.three s [a] b s0 Habsent) Hc s' l E) Hu)
      as (st & En & Hn & Hcur & Hlat & Hs & He).
    exists l, st. repeat split; assumption.
  - assert (Hc0 : comesTo FsExtra.moduleStatus [a] (Toy.boot Scenario.head_only) [] a
                    (Toy.boot Scenario.head_only))
      by (eexists [], _; split; reflexivity).
    assert (Hl : listsHead (repo a) Scenario.head_only
                   ("4b825dc642cb6eb9a060e54bf8d69288fbee4904" ++ String "010" ""))
      by (eexists _, _, _; repeat split; reflexivity).
    destruct (FsExtra.getModulesStatus [a] (Toy.boot Scenario.head_only))
      as [s' [l|e]] eqn:E; [|vm_compute in E; discriminate E].
    assert (Habsent0 : h_exists (deployedManifest a) Scenario.head_only = false)
      by reflexivity.
    destruct (proj2 (proj1 (undeployed_unreachable_is_up_to_date
                              [a] (Toy.boot Scenario.head_only) [] a
                              (Toy.boot Scenario.head_only) Habsent0) Hc0 s' l E)
                _ Hl ltac:(discriminate) ltac:(discriminate))
      as (st & En & Hn & Hcur & Hlat & Hs & He).
    exists l, st. repeat split; assumption.
Defined.

(** ** Resolution of versions *)

Section Strings.

Lemma substring_within (n : nat) (s : string) : String.length (substring 0 n s) <= n.
Proof.
  revert s. induction n as [|n IH]; intros [|c s]; simpl; try lia.
  specialize (IH s). lia.
Qed.

Lemma substring_whole (s : string) : substring 0 (String.length s) s = s.
Proof. induction s as [|c s IH]; simpl; [reflexivity | now rewrite IH]. Qed.

Lemma or_else_nonempty (s d : string) : d <> "" -> or_else s d <> "".
Proof.
  intros Hd. unfold or_else. destruct (String.eqb_spec s ""); auto.
Qed.

Lemma opt_or_else_nonempty (v : option string) (d : string) :
  d <> "" -> opt_or_else v d <> "".
Proof. intros Hd. destruct v; simpl; [now apply or_else_nonempty | exact Hd]. Qed.

Lemma length_append (a b : string) :
  String.length (a ++ b) = String.length a + String.length b.
Proof. induction a as [|c a IH]; simpl; [reflexivity | now rewrite IH]. Qed.

(** The capture of [(.+)] on a line is the line. *)
Lemma dot_plus_line (tag rest : string) :
  one_line tag = true -> dot_plus (tag ++ String "010" rest) = tag.
Proof.
  induction tag as [|c tag IH]; simpl; intros Hl; [reflexivity|].
  apply andb_prop in Hl. destruct Hl as [Hc Hl].
  apply negb_true_iff in Hc. rewrite Hc. now rewrite IH.
Qed.

(** The expression finds the tag of a line of [git ls-remote --tags]. *)
Lemma match_refs_tags_line (pre tag rest : string) :
  lacks "r" pre = true -> one_line tag = true -> tag <> "" ->
  match_refs_tags (pre ++ "refs/tags/" ++ tag ++ String "010" rest) = Some tag.
Proof.
  intros Hpre Hline Hne. induction pre as [|c pre IH].
  - cbn -[dot_plus]. rewrite Nat.sub_0_r, substring_whole, dot_plus_line by assumption.
    destruct tag; [contradiction | reflexivity].
  - simpl in Hpre. apply andb_prop in Hpre. destruct Hpre as [Hc Hpre].
    apply negb_true_iff, Ascii.eqb_neq in Hc.
    change ((String c pre ++ "refs/tags/" ++ tag ++ String "010" rest))
      with (String c (pre ++ "refs/tags/" ++ tag ++ String "010" rest)).
    cbn [match_refs_tags prefix].
    destruct (ascii_dec "r" c) as [E|_]; [congruence | now apply IH].
Qed.

(** Removing the peel mark undoes appending it. *)
Lemma strip_peel_append (tag : string) : strip_peel (tag ++ "^{}") = tag.
Proof.
  induction tag as [|c tag IH].
  - reflexivity.
  - change (String c tag ++ "^{}") with (String c (tag ++ "^{}")).
    cbn [strip_peel]. rewrite IH.
    destruct (String.eqb_spec (String c (tag ++ "^{}")) "^{}") as [E|_]; [|reflexivity].
    apply (f_equal String.length) in E. simpl in E. rewrite length_append in E.
    simpl in E. lia.
Qed.
End Strings.

(** X4. When the listing of the remote's tags shows no tag,
    [getGitLatestVersion] falls back to the head of the remote: it returns
    the first 7 characters of the trimmed output of the second command, or
    ["unknown"] when that output is blank or the command fails. The result
    is never empty and never longer than 7 characters. *)
Theorem getGitLatestVersion_without_tags {W : Type} `{Host W}
    (repo : string) (s : State W) (w1 : W) (tags : string) :
  h_exec (tagsCommand repo) defaultMaxBuffer (world s) = (w1, Returned tags) ->
  match_refs_tags tags = None ->
  let resolved :=
    match snd (h_exec (headCommand repo) defaultMaxBuffer w1) with
    | Returned out => or_else (substring 0 7 (trim out)) "unknown"
    | Thrown _ => "unknown"
    end in
  snd (FsExtra.getGitLatestVersion repo s) = Returned resolved /\
  snd (NodeFs.getGitLatestVersion repo s) = Returned resolved /\
  resolved <> "" /\ String.length resolved <= 7.
Proof.
  intros Htags Hnone resolved.
  assert (E : snd (FsExtra.getGitLatestVersion repo s) = Returned resolved).
  { unfold FsExtra.getGitLatestVersion, tryCatch, bind, execAsync, effect, ret.
    unfold tagsCommand in Htags. rewrite Htags. cbn [world fst snd is_returned].
    replace (if tags =? "" then None else match_refs_tags tags) with (@None string)
      by (now destruct (tags =? "")).
    cbn [world]. subst resolved. unfold headCommand.
    destruct (h_exec _ defaultMaxBuffer w1) as [w2 [out|e]]; reflexivity. }
  split; [exact E|]. split; [exact E|]. subst resolved.
  destruct (snd (h_exec (headCommand repo) defaultMaxBuffer w1)) as [out|e].
  - split; [apply or_else_nonempty; discriminate|].
    unfold or_else. destruct (substring 0 7 (trim out) =? "").
    + simpl. lia.
    + apply substring_within.
  - split; [discriminate | simpl; lia].
Qed.

Lemma getGitLatestVersion_without_tags_witness :
  h_exec (tagsCommand "org/a") defaultMaxBuffer Scenario.head_only
  = (Toy.tick Scenario.head_only (Toy.files Scenario.head_only), Returned "") /\
  match_refs_tags "" = None /\
  snd (FsExtra.getGitLatestVersion "org/a" (Toy.boot Scenario.head_only))
  = Returned "4b825dc".
Proof.
  split; [reflexivity|]. split; [reflexivity|].
  exact (proj1 (getGitLatestVersion_without_tags "org/a" (Toy.boot Scenario.head_only)
                  _ "" eq_refl eq_refl)).
Defined.

(** X5. When the last line of the listing names a tag (the revision, a
    tab, [refs/tags/] and the tag), [getGitLatestVersion] returns that tag
    with the peel mark [^{}] removed from its end, and does not run the
    second command. Removing the mark undoes appending it. *)
Theorem getGitLatestVersion_with_tag {W : Type} `{Host W}
    (repo : string) (s : State W) (w1 : W) (pre tag rest : string) :
  h_exec (tagsCommand repo) defaultMaxBuffer (world s)
  = (w1, Returned (pre ++ "refs/tags/" ++ tag ++ String "010" rest)) ->
  lacks "r" pre = true -> one_line tag = true -> tag <> "" ->
  let s1 := mkState w1 (trace s ++ [Sys (Exec (tagsCommand repo)) true]) in
  FsExtra.getGitLatestVersion repo s = (s1, Returned (strip_peel tag)) /\
  NodeFs.getGitLatestVersion repo s = (s1, Returned (strip_peel tag)) /\
  (forall plain, tag = plain ++ "^{}" -> strip_peel tag = plain).
Proof.
  intros Htags Hpre Hline Hne s1.
  assert (E : FsExtra.getGitLatestVersion repo s = (s1, Returned (strip_peel tag))).
  { unfold FsExtra.getGitLatestVersion, tryCatch, bind, execAsync, effect, ret.
    unfold tagsCommand in Htags. rewrite Htags. cbn [world fst snd is_returned].
    rewrite (match_refs_tags_line pre tag rest Hpre Hline Hne).
    destruct (String.eqb_spec (pre ++ "refs/tags/" ++ tag ++ String "010" rest) "")
      as [E|_]; [|reflexivity].
    apply (f_equal String.length) in E. rewrite length_append in E. simpl in E. lia. }
  split; [exact E|]. split; [exact E|].
  intros plain ->. apply strip_peel_append.
Qed.

Lemma getGitLatestVersion_with_tag_witness :
  lacks "r" ("1a2b3c4d5e6f7a8b9c0d1e2f3a4b5c6d7e8f9a0b" ++ String "009" "") = true /\
  one_line "v2.1.0^{}" = true /\
  FsExtra.getGitLatestVersion "org/a" (Toy.boot Scenario.tagged_remote)
  = (mkState (Toy.tick Scenario.tagged_remote (Toy.files Scenario.tagged_remote))
             [Sys (Exec (tagsCommand "org/a")) true],
     Returned "v2.1.0").
Proof.
  split; [reflexivity|]. split; [reflexivity|].
  exact (proj1 (getGitLatestVersion_with_tag "org/a" (Toy.boot Scenario.tagged_remote)
                  _ ("1a2b3c4d5e6f7a8b9c0d1e2f3a4b5c6d7e8f9a0b" ++ String "009" "") "v2.1.0^{}" "" eq_refl
                  eq_refl eq_refl ltac:(discriminate))).
Defined.

(** X6. When the workspace holds a manifest, [getVersion] runs no command
    if the manifest can be read: both services return its [version], or
    ["unknown"] when the field is absent or empty, so never the empty
    string. When the manifest cannot be read the services part: the
    fs-extra service returns ["unknown"] at once, the node:fs service falls
    back to the git command. *)
Theorem getVersion_with_manifest {W : Type} `{Host W} (dir : string) (s : State W) :
  h_exists (path_join dir "package.json") (world s) = true ->
  let packageJson := path_join dir "package.json" in
  let read ok :=
    mkState (world s)
            (trace s ++ [Sys (Probe packageJson) true; Sys (ReadJson packageJson) ok]) in
  match h_readJson packageJson (world s) with
  | Returned pkg =>
      let resolved := opt_or_else (pkg_version pkg) "unknown" in
      FsExtra.getVersion dir s = (read true, Returned resolved) /\
      NodeFs.getVersion dir s = (read true, Returned resolved) /\
      resolved <> ""
  | Thrown _ =>
      FsExtra.getVersion dir s = (read false, Returned "unknown") /\
      NodeFs.getVersion dir s
      = match h_exec (versionCommand dir) defaultMaxBuffer (world s) with
        | (w, Returned stdout) =>
            (mkState w (trace (read false) ++ [Sys (Exec (versionCommand dir)) true]),
             Returned (trim stdout))
        | (w, Thrown _) =>
            (mkState w (trace (read false) ++ [Sys (Exec (versionCommand dir)) false]),
             Returned "unknown")
        end
  end.
Proof.
  intros Hpresent packageJson read. subst packageJson.
  unfold FsExtra.getVersion, NodeFs.getVersion, tryCatch, bind, pathExists, access,
    readJson, observe, execAsync, effect, ret, emit, versionCommand.
  rewrite Hpresent. cbn [world trace].
  destruct (h_readJson (path_join dir "package.json") (world s)) as [pkg|e];
    cbn [is_returned world trace fst snd].
  - unfold read. rewrite <- !app_assoc. cbn [app].
    repeat split. apply opt_or_else_nonempty. discriminate.
  - unfold read. rewrite <- !app_assoc. cbn [app]. split; [reflexivity|].
    destruct (h_exec _ defaultMaxBuffer (world s)) as [w [out|e']];
      cbn [is_returned trace]; rewrite <- ?app_assoc; reflexivity.
Qed.

Lemma getVersion_with_manifest_witness :
  h_exists (path_join "/tmp/upgrade/a" "package.json")
           (world Scenario.npm_fails_cloned) = true /\
  FsExtra.getVersion "/tmp/upgrade/a" Scenario.npm_fails_cloned
  = (mkState (world Scenario.npm_fails_cloned)
             (trace Scenario.npm_fails_cloned
              ++ [Sys (Probe "/tmp/upgrade/a/package.json") true;
                  Sys (ReadJson "/tmp/upgrade/a/package.json") true]),
     Returned "1.4.2").
Proof.
  split; [reflexivity|].
  exact (proj1 (getVersion_with_manifest "/tmp/upgrade/a" Scenario.npm_fails_cloned
                  eq_refl)).
Defined.

(** ** Selection of the modules of a batch *)

Section Requests.
Context {W : Type} `{Host W}.

Lemma modulesToUpgrade_every_name (modules : list ModuleConfig) :
  FsExtra.modulesToUpgrade modules (Some (map name modules)) = modules.
Proof.
  simpl. apply forallb_filter_id. apply forallb_forall. intros m Hm.
  apply existsb_exists. exists (name m). split; [now apply in_map|].
  apply String.eqb_refl.
Qed.

Lemma forEachPush_pair {A B} (f : A -> M W B) (x y : A) (s : State W) :
  forEachPush f [x; y] s = (r1 <- f x ;; r2 <- f y ;; ret [r1; r2]) s.
Proof.
  simpl. unfold bind, ret. destruct (f x s) as [s1 [r1|e]]; [|reflexivity].
  destruct (f y s1) as [s2 [r2|e]]; reflexivity.
Qed.

Lemma find_first_entry (modules others : list ModuleConfig) moduleName module :
  find (fun m => name m =? moduleName) modules = Some module ->
  find (fun m => name m =? moduleName) (modules ++ others) = Some module /\
  find (fun m => name m =? moduleName) [module] = Some module.
Proof.
  intros Hfind. split.
  - induction modules as [|x ms IH]; simpl in *; [discriminate|].
    destruct (name x =? moduleName); [exact Hfind | now apply IH].
  - apply find_some in Hfind. destruct Hfind as [_ E]. simpl. now rewrite E.
Qed.
End Requests.

(** X7. Leaving the list of names out is the same as naming every
    configured module, while an empty list selects nothing: the call then
    returns the empty list in the state it was called in, without a single
    call to the host. This holds in the three services. *)
Theorem batchUpgrade_all_or_nothing {W : Type} `{Host W}
    (modules : list ModuleConfig) (s : State W) :
  (FsExtra.batchUpgrade modules None s
   = FsExtra.batchUpgrade modules (Some (map name modules)) s /\
   NodeFs.batchUpgrade modules None s
   = NodeFs.batchUpgrade modules (Some (map name modules)) s /\
   Draft.batchUpgrade modules None s
   = Draft.batchUpgrade modules (Some (map name modules)) s) /\
  (FsExtra.batchUpgrade modules (Some []) s = (s, Returned []) /\
   NodeFs.batchUpgrade modules (Some []) s = (s, Returned []) /\
   Draft.batchUpgrade modules (Some []) s = (s, Returned [])).
Proof.
  split.
  - unfold FsExtra.batchUpgrade, NodeFs.batchUpgrade, Draft.batchUpgrade.
    change (NodeFs.modulesToUpgrade modules) with (FsExtra.modulesToUpgrade modules).
    change (Draft.modulesToUpgrade modules) with (FsExtra.modulesToUpgrade modules).
    rewrite modulesToUpgrade_every_name. repeat split.
  - assert (E : FsExtra.modulesToUpgrade modules (Some []) = []).
    { simpl. induction modules as [|m ms IH]; simpl; auto. }
    unfold FsExtra.batchUpgrade, NodeFs.batchUpgrade, Draft.batchUpgrade.
    change (NodeFs.modulesToUpgrade modules) with (FsExtra.modulesToUpgrade modules).
    change (Draft.modulesToUpgrade modules) with (FsExtra.modulesToUpgrade modules).
    rewrite E. repeat split.
Qed.

(** X8. [upgradeModule] looks the module up by name and takes the first
    match: the call behaves as if that entry alone were configured, and
    entries after it, of the same name or not, change nothing. So when two
    configured modules share a name, a batch over both runs the pipeline of
    the first one twice and never deploys the second. This holds in the
    three services. *)
Theorem upgradeModule_first_entry_wins {W : Type} `{Host W}
    (modules others : list ModuleConfig) (moduleName : string) (module : ModuleConfig)
    (s : State W) :
  find (fun m => name m =? moduleName) modules = Some module ->
  (FsExtra.upgradeModule (modules ++ others) moduleName s
   = FsExtra.upgradeModule [module] moduleName s /\
   NodeFs.upgradeModule (modules ++ others) moduleName s
   = NodeFs.upgradeModule [module] moduleName s /\
   Draft.upgradeModule (modules ++ others) moduleName s
   = Draft.upgradeModule [module] moduleName s) /\
  (forall twin, name twin = name module ->
     FsExtra.batchUpgrade [module; twin] None s
     = (r1 <- FsExtra.upgradeModule [module] (name module) ;;
        r2 <- FsExtra.upgradeModule [module] (name module) ;;
        ret [r1; r2]) s /\
     NodeFs.batchUpgrade [module; twin] None s
     = (r1 <- NodeFs.upgradeModule [module] (name module) ;;
        r2 <- NodeFs.upgradeModule [module] (name module) ;;
        ret [r1; r2]) s /\
     Draft.batchUpgrade [module; twin] None s
     = (r1 <- Draft.upgradeModule [module] (name module) ;;
        r2 <- Draft.upgradeModule [module] (name module) ;;
        ret [r1; r2]) s).
Proof.
  intros Hfind.
  destruct (find_first_entry modules others moduleName module Hfind) as [Happ Hone].
  split.
  - unfold FsExtra.upgradeModule, NodeFs.upgradeModule, Draft.upgradeModule.
    rewrite Happ, Hone. repeat split.
  - intros twin Htwin.
    assert (Hpair : forall n, n = name module ->
              find (fun m => name m =? n) [module; twin]
              = find (fun m => name m =? n) [module]).
    { intros n ->. simpl. now rewrite String.eqb_refl. }
    unfold FsExtra.batchUpgrade, NodeFs.batchUpgrade, Draft.batchUpgrade.
    cbn [FsExtra.modulesToUpgrade NodeFs.modulesToUpgrade Draft.modulesToUpgrade].
    rewrite !forEachPush_pair, Htwin.
    unfold FsExtra.upgradeModule, NodeFs.upgradeModule, Draft.upgradeModule.
    rewrite (Hpair (name module) eq_refl).
    repeat split.
Qed.

Lemma upgradeModule_first_entry_wins_witness :
  find (fun m => name m =? "a") Scenario.three = Some (Scenario.backendModule "a") /\
  FsExtra.upgradeModule (Scenario.three ++ [Scenario.backendModule "a"]) "a"
    (Toy.boot Scenario.unreachable_b)
  = FsExtra.upgradeModule [Scenario.backendModule "a"] "a"
      (Toy.boot Scenario.unreachable_b).
Proof.
  split; [reflexivity|].
  exact (proj1 (proj1 (upgradeModule_first_entry_wins Scenario.three
                         [Scenario.backendModule "a"] "a" (Scenario.backendModule "a")
                         (Toy.boot Scenario.unreachable_b) eq_refl))).
Defined.

(** ** The controller *)

(** X9. [POST upgrade] with an empty [module] and no [modules] upgrades
    every configured module: the empty name is falsy, so the request falls
    through to [batchUpgrade()], although [upgradeModule] itself refuses
    the empty name when no module is configured under it. A [module] that
    is not empty is upgraded alone, whatever [modules] holds. *)
Theorem upgrade_empty_module_name {W : Type} `{Host W}
    (modules : list ModuleConfig) (s : State W) :
  ~ In "" (map name modules) ->
  let everything := {| body_module := Some ""; body_modules := None |} in
  (exists r, FsExtra.upgradeModule modules "" s = (s, Returned r) /\ success r = false) /\
  UpgradeController.upgrade (FsExtra_service modules) everything s
  = (rs <- FsExtra.batchUpgrade modules (Some (map name modules)) ;; ret (Many rs)) s /\
  UpgradeController.upgrade (NodeFs_service modules) everything s
  = (rs <- NodeFs.batchUpgrade modules (Some (map name modules)) ;; ret (Many rs)) s /\
  UpgradeController.upgrade (Draft_service modules) everything s
  = (rs <- Draft.batchUpgrade modules (Some (map name modules)) ;; ret (Many rs)) s /\
  (forall (service : UpgradeService W) moduleName requested,
     moduleName <> "" ->
     UpgradeController.upgrade service
       {| body_module := Some moduleName; body_modules := requested |} s
     = (r <- svc_upgradeModule moduleName ;; ret (Single r)) s).
Proof.
  intros Hnone everything.
  split; [|split; [|split; [|split]]].
  - destruct (unknown_name_refused modules "" s Hnone) as [E _].
    eexists. split; [exact E | reflexivity].
  - unfold UpgradeController.upgrade, bind. simpl.
    unfold FsExtra.batchUpgrade. now rewrite modulesToUpgrade_every_name.
  - unfold UpgradeController.upgrade, bind. simpl.
    unfold NodeFs.batchUpgrade.
    change (NodeFs.modulesToUpgrade modules) with (FsExtra.modulesToUpgrade modules).
    now rewrite modulesToUpgrade_every_name.
  - unfold UpgradeController.upgrade, bind. simpl.
    unfold Draft.batchUpgrade.
    change (Draft.modulesToUpgrade modules) with (FsExtra.modulesToUpgrade modules).
    now rewrite modulesToUpgrade_every_name.
  - intros service moduleName requested Hne.
    unfold UpgradeController.upgrade. simpl.
    apply String.eqb_neq in Hne. now rewrite Hne.
Qed.

Lemma upgrade_empty_module_name_witness :
  ~ In "" (map name Scenario.three) /\
  UpgradeController.upgrade (Draft_service Scenario.three)
    {| body_module := Some ""; body_modules := None |} (Toy.boot Scenario.unreachable_b)
  = (rs <- Draft.batchUpgrade Scenario.three (Some ["a"; "b"; "c"]) ;; ret (Many rs))
      (Toy.boot Scenario.unreachable_b).
Proof.
  assert (Hnone : ~ In "" (map name Scenario.three)).
  { simpl. intros [E|[E|[E|[]]]]; discriminate E. }
  split; [exact Hnone|].
  exact (proj1 (proj2 (proj2 (proj2
           (upgrade_empty_module_name Scenario.three (Toy.boot Scenario.unreachable_b)
              Hnone))))).
Defined.

(** ** Where an upgrade writes *)

Ltac confine_step :=
  first
    [ trace_step
    | match goal with
      | |- ensures _ _ (if ?b then _ else _) => destruct b
      end ].

Ltac confine :=
  repeat (confine_step; cbn [confined_FsExtra confined_NodeFs quiet]);
  try exact I; eauto 6.

Section Confinement.
Context {W : Type} `{Host W}.

Lemma harmless_confined_FsExtra module moduleName :
  harmless (confined_FsExtra module moduleName).
Proof. repeat split. Qed.

Lemma harmless_confined_NodeFs module moduleName :
  harmless (confined_NodeFs module moduleName).
Proof. repeat split. Qed.

Lemma harmless_quiet : harmless quiet.
Proof. repeat split. Qed.

Section Harmless.
Variable P : Event -> Prop.
Hypothesis HP : harmless P.

Let Hprobe : forall p ok, P (Sys (Probe p) ok) := proj1 HP.
Let Hread : forall p ok, P (Sys (ReadJson p) ok) := proj1 (proj2 HP).
Let Hexec : forall cmd ok, P (Sys (Exec cmd) ok) := proj1 (proj2 (proj2 HP)).
Let Hlog : forall l msg err, P (Log l msg err) := proj2 (proj2 (proj2 HP)).

Lemma gitCloneOrPull_harmless module targetDir :
  ensures P anything (FsExtra.gitCloneOrPull (W:=W) module targetDir).
Proof. unfold FsExtra.gitCloneOrPull, execAsync. confine. Qed.

Lemma npmInstall_FsExtra_harmless dir :
  ensures P anything (FsExtra.npmInstall (W:=W) dir).
Proof. unfold FsExtra.npmInstall, execAsync. confine. Qed.

Lemma npmInstall_NodeFs_harmless dir :
  ensures P anything (NodeFs.npmInstall (W:=W) dir).
Proof. unfold NodeFs.npmInstall, execAsync. confine. Qed.

Lemma buildProject_harmless dir buildCommand :
  ensures P anything (FsExtra.buildProject (W:=W) dir buildCommand).
Proof. unfold FsExtra.buildProject, execAsync. confine. Qed.

Lemma getVersion_FsExtra_harmless dir :
  ensures P anything (FsExtra.getVersion (W:=W) dir).
Proof. unfold FsExtra.getVersion, execAsync, readJson. confine. Qed.

Lemma getVersion_NodeFs_harmless dir :
  ensures P anything (NodeFs.getVersion (W:=W) dir).
Proof. unfold NodeFs.getVersion, execAsync, readJson. confine. Qed.

Lemma probeDirs_harmless sourceDir dirs buildOutput :
  ensures P (fun out => out = buildOutput \/
                        exists dir, In dir dirs /\ out = path_join sourceDir dir)
          (FsExtra.probeDirs (W:=W) sourceDir dirs buildOutput).
Proof.
  induction dirs as [|dir rest IH]; simpl.
  - apply ensures_ret. now left.
  - apply ensures_seq; [now apply ensures_pathExists|].
    intros b. destruct b.
    + apply ensures_ret. right. exists dir. split; [now left | reflexivity].
    + eapply ensures_weaken; [| |exact IH]; [auto|].
      intros out [E|(d & Hd & E)]; [now left|]. right. exists d. split; [now right|exact E].
Qed.

Lemma findBuildOutput_FsExtra_harmless moduleName type :
  ensures P (fun out => out = "" \/ isBuildOutput moduleName out)
          (FsExtra.findBuildOutput (W:=W) (workspaceOf moduleName) type).
Proof.
  assert (Front : ensures P (fun out => out = "" \/ isBuildOutput moduleName out)
                    (FsExtra.probeDirs (W:=W) (workspaceOf moduleName) possibleDirs "")).
  { eapply ensures_weaken; [| |apply probeDirs_harmless]; [auto|].
    intros out [E|(d & Hd & E)]; [now left|]. right. right. eauto. }
  destruct type; try exact Front.
  unfold FsExtra.findBuildOutput.
  apply ensures_seq; [now apply ensures_pathExists|].
  intros b. apply ensures_ret. right. destruct b.
  - right. exists "dist". split; [now left | reflexivity].
  - now left.
Qed.

Lemma findBuildOutput_NodeFs_harmless moduleName type :
  ensures P (fun out => out = "" \/ isBuildOutput moduleName out)
          (NodeFs.findBuildOutput (W:=W) (workspaceOf moduleName) type).
Proof.
  assert (Front : ensures P (fun out => out = "" \/ isBuildOutput moduleName out)
                    (NodeFs.probeDirs (W:=W) (workspaceOf moduleName) possibleDirs "")).
  { intros s. rewrite probeDirs_NodeFs.
    revert s. eapply ensures_weaken; [| |apply probeDirs_harmless]; [auto|].
    intros out [E|(d & Hd & E)]; [now left|]. right. right. eauto. }
  destruct type; try exact Front.
  unfold NodeFs.findBuildOutput.
  apply ensures_tryCatch.
  - apply ensures_seq; [now apply ensures_access|].
    intros _. apply ensures_ret. right. right. exists "dist".
    split; [now left | reflexivity].
  - intros e. apply ensures_ret. right. now left.
Qed.
End Harmless.

(** The steps of the fs-extra service stay within the module. *)
Lemma backupCurrent_FsExtra_confined module moduleName :
  ensures (confined_FsExtra module moduleName) anything
          (FsExtra.backupCurrent (W:=W) (deployPath module) moduleName).
Proof. unfold FsExtra.backupCurrent, copy. confine. Qed.

Lemma deployBuild_FsExtra_confined module moduleName :
  ensures (confined_FsExtra module moduleName) anything
          (FsExtra.deployBuild (W:=W) (workspaceOf moduleName) (deployPath module)
                               (type module)).
Proof.
  unfold FsExtra.deployBuild.
  eapply ensures_bind;
    [apply findBuildOutput_FsExtra_harmless, harmless_confined_FsExtra|].
  intros out [->|Hout]; [simpl; apply ensures_throw|].
  destruct (out =? ""); [apply ensures_throw|].
  unfold FsExtra.replaceTarget, emptyDir, ensureDir, copy. confine.
Qed.

Lemma cleanupTemp_confined_FsExtra module moduleName :
  ensures (confined_FsExtra module moduleName) anything
          (FsExtra.cleanupTemp (W:=W) (workspaceOf moduleName)).
Proof. unfold FsExtra.cleanupTemp, remove. confine. Qed.

Lemma upgradeSteps_FsExtra_confined module moduleName startTime :
  ensures (confined_FsExtra module moduleName) anything
          (FsExtra.upgradeSteps (W:=W) module moduleName (workspaceOf moduleName) startTime).
Proof.
  pose proof (harmless_confined_FsExtra module moduleName) as HP.
  unfold FsExtra.upgradeSteps.
  apply ensures_seq; [confine|]. intros _.
  apply ensures_seq; [unfold ensureDir; confine|]. intros _.
  apply ensures_seq; [now apply gitCloneOrPull_harmless|]. intros _.
  apply ensures_seq; [now apply npmInstall_FsExtra_harmless|]. intros _.
  apply ensures_seq; [now apply buildProject_harmless|]. intros _.
  apply ensures_seq; [apply backupCurrent_FsExtra_confined|]. intros _.
  apply ensures_seq; [apply deployBuild_FsExtra_confined|]. intros _.
  apply ensures_seq; [now apply getVersion_FsExtra_harmless|]. intros v.
  confine.
Qed.

(** The steps of the node:fs service. *)
Lemma backupCurrent_NodeFs_confined module moduleName :
  ensures (confined_NodeFs module moduleName) anything
          (NodeFs.backupCurrent (W:=W) (deployPath module) moduleName).
Proof.
  unfold NodeFs.backupCurrent, NodeFs.mkdir_recursive, NodeFs.cp_recursive,
    ensureDir, copy.
  confine.
Qed.

Lemma deployBuild_NodeFs_confined module moduleName :
  ensures (confined_NodeFs module moduleName) anything
          (NodeFs.deployBuild (W:=W) (workspaceOf moduleName) (deployPath module)
                              (type module)).
Proof.
  unfold NodeFs.deployBuild.
  eapply ensures_bind;
    [apply findBuildOutput_NodeFs_harmless, harmless_confined_NodeFs|].
  intros out [->|Hout]; [simpl; apply ensures_throw|].
  destruct (out =? ""); [apply ensures_throw|].
  unfold NodeFs.replaceTarget, NodeFs.mkdir_recursive, NodeFs.cp_recursive,
    NodeFs.rm_recursive_force, remove, ensureDir, copy.
  confine.
Qed.

Lemma cleanupTemp_confined_NodeFs module moduleName :
  ensures (confined_NodeFs module moduleName) anything
          (NodeFs.cleanupTemp (W:=W) (workspaceOf moduleName)).
Proof. unfold NodeFs.cleanupTemp, NodeFs.rm_recursive_force, remove. confine. Qed.

Lemma upgradeSteps_NodeFs_confined module moduleName startTime :
  ensures (confined_NodeFs module moduleName) anything
          (NodeFs.upgradeSteps (W:=W) module moduleName (workspaceOf moduleName) startTime).
Proof.
  pose proof (harmless_confined_NodeFs module moduleName) as HP.
  unfold NodeFs.upgradeSteps.
  apply ensures_seq; [confine|]. intros _.
  apply ensures_seq; [unfold NodeFs.mkdir_recursive, ensureDir; confine|]. intros _.
  apply ensures_seq; [now apply gitCloneOrPull_harmless|]. intros _.
  apply ensures_seq; [now apply npmInstall_NodeFs_harmless|]. intros _.
  apply ensures_seq; [now apply buildProject_harmless|]. intros _.
  apply ensures_seq; [apply backupCurrent_NodeFs_confined|]. intros _.
  apply ensures_seq; [apply deployBuild_NodeFs_confined|]. intros _.
  apply ensures_seq; [now apply getVersion_NodeFs_harmless|]. intros v.
  confine.
Qed.
End Confinement.

Section ConfinedRuns.
Context {W : Type} `{Host W}.
Variable modules : list ModuleConfig.

Lemma upgradeModule_FsExtra_run moduleName module :
  find (fun m => name m =? moduleName) modules = Some module ->
  ensures (confined_FsExtra module moduleName) anything
          (FsExtra.upgradeModule (W:=W) modules moduleName).
Proof.
  intros Hfind. unfold FsExtra.upgradeModule. rewrite Hfind.
  change (path_join "/tmp/upgrade" moduleName) with (workspaceOf moduleName).
  apply ensures_seq; [apply ensures_date_now|]. intros startTime.
  apply ensures_tryFinally; [|apply cleanupTemp_confined_FsExtra].
  apply ensures_tryCatch; [apply upgradeSteps_FsExtra_confined|].
  intros e. unfold FsExtra.upgradeFailed. confine.
Qed.

Lemma upgradeModule_NodeFs_run moduleName module :
  find (fun m => name m =? moduleName) modules = Some module ->
  ensures (confined_NodeFs module moduleName) anything
          (NodeFs.upgradeModule (W:=W) modules moduleName).
Proof.
  intros Hfind. unfold NodeFs.upgradeModule. rewrite Hfind.
  change (path_join "/tmp/upgrade" moduleName) with (workspaceOf moduleName).
  apply ensures_seq; [apply ensures_date_now|]. intros startTime.
  apply ensures_tryFinally; [|apply cleanupTemp_confined_NodeFs].
  apply ensures_tryCatch; [apply upgradeSteps_NodeFs_confined|].
  intros e. unfold NodeFs.upgradeFailed. confine.
Qed.

Lemma upgradeModule_Draft_run moduleName module :
  find (fun m => name m =? moduleName) modules = Some module ->
  ensures (confined_FsExtra module moduleName) anything
          (Draft.upgradeModule (W:=W) modules moduleName).
Proof.
  intros Hfind. unfold Draft.upgradeModule. rewrite Hfind.
  change (path_join "/tmp/upgrade" moduleName) with (workspaceOf moduleName).
  apply ensures_seq; [apply ensures_date_now|]. intros startTime.
  apply ensures_tryFinally; [|apply cleanupTemp_confined_FsExtra].
  apply ensures_tryCatch; [apply upgradeSteps_FsExtra_confined|].
  intros e. unfold Draft.upgradeFailed. confine.
Qed.

(** Whatever the name, a run stays within some configured module; for an
    unknown name it does nothing at all. *)
Lemma confined_some (confined : ModuleConfig -> string -> Event -> Prop)
      moduleName module e :
  find (fun m => name m =? moduleName) modules = Some module ->
  confined module moduleName e -> confinedToSome confined modules e.
Proof.
  intros Hfind He. apply find_some in Hfind. destruct Hfind as [Hin Hname].
  apply String.eqb_eq in Hname. subst moduleName. now exists module.
Qed.

Lemma upgradeModule_FsExtra_some moduleName :
  ensures (confinedToSome confined_FsExtra modules) anything
          (FsExtra.upgradeModule (W:=W) modules moduleName).
Proof.
  destruct (find (fun m => name m =? moduleName) modules) as [module|] eqn:Hfind.
  - eapply ensures_weaken; [| |apply (upgradeModule_FsExtra_run _ _ Hfind)]; auto.
    intros e. now apply confined_some.
  - unfold FsExtra.upgradeModule. rewrite Hfind. trace_auto.
Qed.

Lemma upgradeModule_NodeFs_some moduleName :
  ensures (confinedToSome confined_NodeFs modules) anything
          (NodeFs.upgradeModule (W:=W) modules moduleName).
Proof.
  destruct (find (fun m => name m =? moduleName) modules) as [module|] eqn:Hfind.
  - eapply ensures_weaken; [| |apply (upgradeModule_NodeFs_run _ _ Hfind)]; auto.
    intros e. now apply confined_some.
  - unfold NodeFs.upgradeModule. rewrite Hfind. trace_auto.
Qed.

Lemma upgradeModule_Draft_some moduleName :
  ensures (confinedToSome confined_FsExtra modules) anything
          (Draft.upgradeModule (W:=W) modules moduleName).
Proof.
  destruct (find (fun m => name m =? moduleName) modules) as [module|] eqn:Hfind.
  - eapply ensures_weaken; [| |apply (upgradeModule_Draft_run _ _ Hfind)]; auto.
    intros e. now apply confined_some.
  - unfold Draft.upgradeModule. rewrite Hfind. trace_auto.
Qed.
End ConfinedRuns.

(** X10. Upgrading a configured module writes only where the module
    lives. In the fs-extra service and in the service of the design note
    every directory created is the workspace or the deploy path, every copy
    goes from the deploy path to a backup directory of the module or from a
    build output in the workspace to the deploy path, only the deploy path
    is emptied, and only the workspace is removed. The node:fs service also
    creates the parent of the backup directory and removes the deploy path,
    and empties nothing. *)
Theorem upgradeModule_writes_confined {W : Type} `{Host W}
    (modules : list ModuleConfig) (moduleName : string) (s : State W) :
  match find (fun m => name m =? moduleName) modules with
  | Some module =>
      grows (confined_FsExtra module moduleName) s
            (fst (FsExtra.upgradeModule modules moduleName s)) /\
      grows (confined_NodeFs module moduleName) s
            (fst (NodeFs.upgradeModule modules moduleName s)) /\
      grows (confined_FsExtra module moduleName) s
            (fst (Draft.upgradeModule modules moduleName s))
  | None => True
  end.
Proof.
  destruct (find (fun m => name m =? moduleName) modules) as [module|] eqn:Hfind;
    [|exact I].
  split; [|split].
  - now apply (ensures_grows _ anything), upgradeModule_FsExtra_run.
  - now apply (ensures_grows _ anything), upgradeModule_NodeFs_run.
  - now apply (ensures_grows _ anything), upgradeModule_Draft_run.
Qed.

(** X15. A batch writes only where the configured modules live: every
    directory created, copied to, emptied or removed by [batchUpgrade] is
    the workspace, the deploy path or a backup directory of some configured
    module, as for a single upgrade. This holds in the three services,
    whether the batch returns or throws. *)
Theorem batchUpgrade_writes_confined {W : Type} `{Host W}
    (modules : list ModuleConfig) (moduleNames : option (list string)) (s : State W) :
  grows (confinedToSome confined_FsExtra modules) s
        (fst (FsExtra.batchUpgrade modules moduleNames s)) /\
  grows (confinedToSome confined_NodeFs modules) s
        (fst (NodeFs.batchUpgrade modules moduleNames s)) /\
  grows (confinedToSome confined_FsExtra modules) s
        (fst (Draft.batchUpgrade modules moduleNames s)).
Proof.
  unfold FsExtra.batchUpgrade, NodeFs.batchUpgrade, Draft.batchUpgrade.
  split; [|split].
  - apply (ensures_grows (confinedToSome confined_FsExtra modules)
             (fun rs => Forall2 (fun (_ : ModuleConfig) (_ : UpgradeResult) => True)
                                (FsExtra.modulesToUpgrade modules moduleNames) rs)).
    apply (ensures_forEachPush _ (fun _ _ => True)). intros x _.
    apply (upgradeModule_FsExtra_some modules (name x)).
  - apply (ensures_grows (confinedToSome confined_NodeFs modules)
             (fun rs => Forall2 (fun (_ : ModuleConfig) (_ : UpgradeResult) => True)
                                (NodeFs.modulesToUpgrade modules moduleNames) rs)).
    apply (ensures_forEachPush _ (fun _ _ => True)). intros x _.
    apply (upgradeModule_NodeFs_some modules (name x)).
  - apply (ensures_grows (confinedToSome confined_FsExtra modules)
             (fun rs => Forall2 (fun (_ : ModuleConfig) (_ : UpgradeResult) => True)
                                (Draft.modulesToUpgrade modules moduleNames) rs)).
    apply (ensures_forEachPush _ (fun _ _ => True)). intros x _.
    apply (upgradeModule_Draft_some modules (name x)).
Qed.

(** ** The build comes first *)

Section Gate.
Context {W : Type} `{Host W}.

Lemma gatedBy_prepend gate (quietOnes evs : list Event) :
  Forall quiet quietOnes -> gatedBy gate evs -> gatedBy gate (quietOnes ++ evs).
Proof.
  intros Hq [Hall|(before & after & -> & Hb)].
  - left. apply Forall_app. now split.
  - right. exists (quietOnes ++ before)%list, after. split.
    + now rewrite <- app_assoc.
    + apply Forall_app. now split.
Qed.

Lemma gatedBy_append gate (evs quietOnes : list Event) :
  gatedBy gate evs -> Forall quiet quietOnes -> gatedBy gate (evs ++ quietOnes).
Proof.
  intros [Hall|(before & after & -> & Hb)] Hq.
  - left. apply Forall_app. now split.
  - right. exists before, (after ++ quietOnes)%list. split; [|exact Hb].
    now rewrite <- app_assoc.
Qed.

Lemma gated_seq {A B} gate (m : M W A) (k : A -> M W B) :
  ensures quiet anything m ->
  (forall a s, exists evs, trace (fst (k a s)) = (trace s ++ evs)%list /\ gatedBy gate evs) ->
  forall s, exists evs,
    trace (fst (bind m k s)) = (trace s ++ evs)%list /\ gatedBy gate evs.
Proof.
  intros Hm Hk s. unfold bind. destruct (Hm s) as [(e1 & E1 & Q1) _].
  destruct (m s) as [s1 [a|e]]; simpl in *.
  - destruct (Hk a s1) as (e2 & E2 & G2). exists (e1 ++ e2)%list. split.
    + now rewrite E2, E1, app_assoc.
    + now apply gatedBy_prepend.
  - exists e1. split; [exact E1 | now left].
Qed.

Lemma gated_build {B} dir buildCommand (rest : M W B) :
  ensures (fun _ => True) anything rest ->
  forall s, exists evs,
    trace (fst ((FsExtra.buildProject dir buildCommand ;; rest) s))
    = (trace s ++ evs)%list /\
    gatedBy (Sys (Exec (buildCommandLine dir buildCommand)) true) evs.
Proof.
  intros Hrest s.
  unfold FsExtra.buildProject, bind, execAsync, effect, ret, buildCommandLine.
  destruct (h_exec _ _ (world s)) as [w [out|e]]; cbn [is_returned fst].
  - match goal with
    | |- context [rest ?s1] => destruct (Hrest s1) as [(e2 & E2 & _) _]
    end.
    eexists (_ :: e2). split.
    + rewrite E2. cbn [trace]. rewrite <- app_assoc. reflexivity.
    + right. exists [], e2. split; [reflexivity | constructor].
  - eexists [_]. split; [reflexivity|]. left. constructor; [exact I | constructor].
Qed.

Lemma gated_tryCatch {A} gate (m : M W A) (h : Error -> M W A) :
  (forall s, exists evs, trace (fst (m s)) = (trace s ++ evs)%list /\ gatedBy gate evs) ->
  (forall e, ensures quiet anything (h e)) ->
  forall s, exists evs,
    trace (fst (tryCatch m h s)) = (trace s ++ evs)%list /\ gatedBy gate evs.
Proof.
  intros Hm Hh s. unfold tryCatch. destruct (Hm s) as (e1 & E1 & G1).
  destruct (m s) as [s1 [a|e]]; simpl in *.
  - now exists e1.
  - destruct (Hh e s1) as [(e2 & E2 & Q2) _]. exists (e1 ++ e2)%list. split.
    + now rewrite E2, E1, app_assoc.
    + now apply gatedBy_append.
Qed.

Lemma finally_cleanup {A} gate (m : M W A) workspace :
  (forall s, exists evs, trace (fst (m s)) = (trace s ++ evs)%list /\ gatedBy gate evs) ->
  forall s, exists evs tail,
    trace (fst (tryFinally m (FsExtra.cleanupTemp workspace) s))
    = (trace s ++ evs ++ tail)%list /\
    gatedBy gate evs /\ cleanupEvents workspace tail.
Proof.
  intros Hm s.
  rewrite tryFinally_quiet by (intros; apply cleanupTemp_returns).
  destruct (Hm s) as (evs & E & G). cbn [fst].
  rewrite cleanupTemp_cases.
  destruct (h_remove workspace (world (fst (m s)))) as [w [[]|err]]; cbn [fst trace].
  - exists evs, [Sys (RemoveTree workspace) true]. rewrite E, <- app_assoc.
    split; [reflexivity|]. split; [exact G | now left].
  - eexists evs, _. rewrite E, <- app_assoc.
    split; [reflexivity|]. split; [exact G|]. right. now exists err.
Qed.

Lemma anything_goes {A} (P : Event -> Prop) (Q : A -> Prop) (m : M W A) :
  ensures P Q m -> ensures (fun _ => True) anything m.
Proof. apply ensures_weaken; intros; exact I. Qed.

Lemma upgradeSteps_FsExtra_gated module moduleName startTime (s : State W) :
  exists evs,
    trace (fst (FsExtra.upgradeSteps module moduleName (workspaceOf moduleName)
                  startTime s))
    = (trace s ++ evs)%list /\
    gatedBy (Sys (Exec (buildCommandLine (workspaceOf moduleName)
                          (buildCommand module))) true) evs.
Proof.
  revert s. unfold FsExtra.upgradeSteps.
  apply gated_seq; [confine|]. intros _.
  apply gated_seq; [unfold ensureDir; confine|]. intros _.
  apply gated_seq; [apply gitCloneOrPull_harmless, harmless_quiet|]. intros _.
  apply gated_seq; [apply npmInstall_FsExtra_harmless, harmless_quiet|]. intros _.
  apply gated_build.
  pose proof (harmless_confined_FsExtra module moduleName) as HP.
  apply (anything_goes (confined_FsExtra module moduleName) anything).
  apply ensures_seq; [apply backupCurrent_FsExtra_confined|]. intros _.
  apply ensures_seq; [apply deployBuild_FsExtra_confined|]. intros _.
  apply ensures_seq; [now apply getVersion_FsExtra_harmless|]. intros v.
  confine.
Qed.

Lemma upgradeSteps_NodeFs_gated module moduleName startTime (s : State W) :
  exists evs,
    trace (fst (NodeFs.upgradeSteps module moduleName (workspaceOf moduleName)
                  startTime s))
    = (trace s ++ evs)%list /\
    gatedBy (Sys (Exec (buildCommandLine (workspaceOf moduleName)
                          (buildCommand module))) true) evs.
Proof.
  revert s. unfold NodeFs.upgradeSteps.
  apply gated_seq; [confine|]. intros _.
  apply gated_seq; [unfold NodeFs.mkdir_recursive, ensureDir; confine|]. intros _.
  apply gated_seq; [apply gitCloneOrPull_harmless, harmless_quiet|]. intros _.
  apply gated_seq; [apply npmInstall_NodeFs_harmless, harmless_quiet|]. intros _.
  apply (gated_build (workspaceOf moduleName) (buildCommand module)).
  pose proof (harmless_confined_NodeFs module moduleName) as HP.
  apply (anything_goes (confined_NodeFs module moduleName) anything).
  apply ensures_seq; [apply backupCurrent_NodeFs_confined|]. intros _.
  apply ensures_seq; [apply deployBuild_NodeFs_confined|]. intros _.
  apply ensures_seq; [now apply getVersion_NodeFs_harmless|]. intros v.
  confine.
Qed.
End Gate.

(** X11. In a run of [upgradeModule] for a configured module, nothing is
    copied, emptied or removed before the build command has succeeded: up
    to the final cleanup, either no event of the run copies, empties or
    removes anything, or the successful run of the build command precedes
    the first one that does. The run ends with the removal of the
    workspace. This holds in the three services. *)
Theorem build_precedes_file_changes {W : Type} `{Host W}
    (modules : list ModuleConfig) (moduleName : string) (s : State W) :
  match find (fun m => name m =? moduleName) modules with
  | Some module =>
      let gate :=
        Sys (Exec (buildCommandLine (workspaceOf moduleName) (buildCommand module))) true in
      let gated (s' : State W) :=
        exists evs tail,
          trace s' = (trace s ++ evs ++ tail)%list /\
          gatedBy gate evs /\ cleanupEvents (workspaceOf moduleName) tail in
      gated (fst (FsExtra.upgradeModule modules moduleName s)) /\
      gated (fst (NodeFs.upgradeModule modules moduleName s)) /\
      gated (fst (Draft.upgradeModule modules moduleName s))
  | None => True
  end.
Proof.
  unfold FsExtra.upgradeModule, NodeFs.upgradeModule, Draft.upgradeModule.
  destruct (find (fun m => name m =? moduleName) modules) as [module|]; [|exact I].
  change (path_join "/tmp/upgrade" moduleName) with (workspaceOf moduleName).
  cbv zeta.
  split; [|split]; unfold bind at 1, date_now.
  - apply finally_cleanup. apply gated_tryCatch.
    + intros s0. apply upgradeSteps_FsExtra_gated.
    + intros e. unfold FsExtra.upgradeFailed. confine.
  - apply (finally_cleanup _ _ (workspaceOf moduleName)). apply gated_tryCatch.
    + intros s0. apply upgradeSteps_NodeFs_gated.
    + intros e. unfold NodeFs.upgradeFailed. confine.
  - apply finally_cleanup. apply gated_tryCatch.
    + intros s0. apply upgradeSteps_FsExtra_gated.
    + intros e. unfold Draft.upgradeFailed. confine.
Qed.

(** ** Replacing the deployment *)

(** X12. When the deploy path exists and cannot be cleared, the services
    part. The fs-extra service stops at the failure of [emptyDir] and
    copies nothing. The node:fs service swallows the failure of the
    removal: it creates the directory again and copies the build output
    into the deployment that is still there, and the step succeeds. *)
Theorem uncleared_target {W : Type} `{Host W}
    (buildOutput targetDir : string) (s : State W) :
  h_exists targetDir (world s) = true ->
  (forall w1 e,
     h_emptyDir targetDir (world s) = (w1, Thrown e) ->
     FsExtra.replaceTarget buildOutput targetDir s
     = (mkState w1 (trace s ++ [Sys (Probe targetDir) true;
                                Sys (EmptyDir targetDir) false]),
        Thrown e)) /\
  (forall w1 e w2 w3,
     h_remove targetDir (world s) = (w1, Thrown e) ->
     h_mkdirp targetDir w1 = (w2, Returned tt) ->
     h_copy buildOutput targetDir w2 = (w3, Returned tt) ->
     NodeFs.replaceTarget buildOutput targetDir s
     = (mkState w3 (trace s ++ [Sys (Probe targetDir) true;
                                Sys (RemoveTree targetDir) false;
                                Sys (MkdirP targetDir) true;
                                Sys (CopyTree buildOutput targetDir) true]),
        Returned tt)).
Proof.
  intros Hpresent. split.
  - intros w1 e Hfail.
    unfold FsExtra.replaceTarget, bind, pathExists, emptyDir, effect, emit.
    rewrite Hpresent. cbn [world trace]. rewrite Hfail. cbn [is_returned].
    now rewrite <- app_assoc.
  - intros w1 e w2 w3 Hrm Hmk Hcp.
    unfold NodeFs.replaceTarget, NodeFs.rm_recursive_force, NodeFs.mkdir_recursive,
      NodeFs.cp_recursive, tryCatch, bind, access, remove, ensureDir, copy, effect,
      ret, emit.
    rewrite Hpresent. cbn [world trace]. rewrite Hrm. cbn [world trace is_returned].
    rewrite Hmk. cbn [world trace is_returned]. rewrite Hcp. cbn [is_returned].
    now rewrite <- !app_assoc.
Qed.

Lemma uncleared_target_witness :
  h_exists "/var/www/deployments/a" Scenario.busy_deployment = true /\
  snd (NodeFs.replaceTarget "/tmp/upgrade/a/dist" "/var/www/deployments/a"
         (Toy.boot Scenario.busy_deployment)) = Returned tt /\
  Toy.files (world (fst (NodeFs.replaceTarget "/tmp/upgrade/a/dist"
                           "/var/www/deployments/a"
                           (Toy.boot Scenario.busy_deployment))))
  = ["/var/www/deployments/a"; "/var/www/deployments/a/old.js";
     "/tmp/upgrade/a"; "/tmp/upgrade/a/dist"; "/tmp/upgrade/a/dist/new.js";
     "/var/www/deployments/a/new.js"].
Proof.
  split; [reflexivity|].
  pose proof (proj2 (uncleared_target "/tmp/upgrade/a/dist" "/var/www/deployments/a"
                       (Toy.boot Scenario.busy_deployment) eq_refl)
                _ _ _ _ eq_refl eq_refl eq_refl) as E.
  split; [exact (f_equal snd E) | exact (f_equal (fun r => Toy.files (world (fst r))) E)].
Defined.

(** ** Where the backup goes *)

Section BackupPath.

Lemma lacks_colon_replaced (t : string) : lacks ":" (replace_colons t) = true.
Proof.
  induction t as [|c t IH]; simpl; [reflexivity|]. rewrite IH, andb_true_r.
  destruct (Ascii.eqb_spec c ":") as [->|Hc]; [reflexivity|].
  apply negb_true_iff. now apply Ascii.eqb_neq.
Qed.

Lemma has_slash_replaced (t : string) : has_slash (replace_colons t) = has_slash t.
Proof.
  induction t as [|c t IH]; simpl; [reflexivity|]. rewrite IH.
  destruct (Ascii.eqb_spec c ":") as [->|_]; reflexivity.
Qed.

Lemma replace_colons_nonempty (t : string) : t <> "" -> replace_colons t <> "".
Proof. destruct t; [contradiction | discriminate]. Qed.

Lemma has_slash_append (a b : string) : has_slash (a ++ "/" ++ b) = true.
Proof.
  induction a as [|c a IH]; [reflexivity|].
  change (has_slash (String c (a ++ "/" ++ b)) = true).
  cbn [has_slash]. rewrite IH. apply orb_true_r.
Qed.

Lemma path_dirname_aux_join (a b : string) :
  has_slash b = false -> path_dirname_aux (a ++ "/" ++ b) = a.
Proof.
  intros Hb. induction a as [|c a IH].
  - change (path_dirname_aux (String "/" b) = ""). cbn [path_dirname_aux].
    now rewrite Hb.
  - change (path_dirname_aux (String c (a ++ "/" ++ b)) = String c a).
    cbn [path_dirname_aux]. now rewrite has_slash_append, IH.
Qed.

(** [path.dirname] undoes [path.join] with one segment. *)
Lemma path_dirname_join (a b : string) :
  a <> "" -> b <> "" -> has_slash b = false -> path_dirname (path_join a b) = a.
Proof.
  intros Ha Hb Hs. unfold path_join.
  apply String.eqb_neq in Ha. apply String.eqb_neq in Hb. rewrite Ha, Hb.
  change (path_dirname (a ++ "/" ++ b) = a). unfold path_dirname. rewrite has_slash_append, path_dirname_aux_join by exact Hs.
  destruct a; [discriminate | reflexivity].
Qed.
(** A plain segment is not empty and holds no separator. *)
Lemma plainSegment_plain (s : string) :
  plainSegment s = true -> s <> "" /\ has_slash s = false.
Proof.
  unfold plainSegment. intros Hp.
  apply andb_prop in Hp. destruct Hp as [Hp _].
  apply andb_prop in Hp. destruct Hp as [Hp _].
  apply andb_prop in Hp. destruct Hp as [Hne Hs].
  apply negb_true_iff in Hne, Hs. split; [now apply String.eqb_neq | exact Hs].
Qed.
End BackupPath.

(** X13. When the deploy path exists, the backup goes to
    [/var/www/backups/<name>/<stamp>], where the stamp is the time of the
    copy with every colon replaced, so that it holds none. The fs-extra
    service makes the copy directly, and the step ends as the copy ends.
    The node:fs service first creates [/var/www/backups/<name>], the parent
    of that directory; when the creation succeeds it always goes on to the
    copy, when it fails it copies nothing, and either way the step returns.
    The name of the module and the time stamp are plain segments (not
    empty, without separator, neither [.] nor [..]), which [path.join] only
    appends after a separator. *)
Theorem backup_destination {W : Type} `{Host W}
    (deployPath moduleName : string) (s : State W) :
  h_exists deployPath (world s) = true ->
  plainSegment moduleName = true ->
  plainSegment (h_iso (h_now (world s))) = true ->
  let stamp := replace_colons (h_iso (h_now (world s))) in
  let backupRoot := "/var/www/backups/" ++ moduleName in
  let backupDir := backupRoot ++ "/" ++ stamp in
  lacks ":" stamp = true /\
  FsExtra.backupCurrent deployPath moduleName s
  = (let (w, r) := h_copy deployPath backupDir (world s) in
     (mkState w (trace s ++ [Sys (Probe deployPath) true;
                             Sys (CopyTree deployPath backupDir) (is_returned r)]),
      r)) /\
  NodeFs.backupCurrent deployPath moduleName s
  = match h_mkdirp backupRoot (world s) with
    | (w1, Returned _) =>
        let (w2, r) := h_copy deployPath backupDir w1 in
        (mkState w2 (trace s ++ [Sys (Probe deployPath) true;
                                 Sys (MkdirP backupRoot) true;
                                 Sys (CopyTree deployPath backupDir) (is_returned r)]),
         Returned tt)
    | (w1, Thrown _) =>
        (mkState w1 (trace s ++ [Sys (Probe deployPath) true;
                                 Sys (MkdirP backupRoot) false]),
         Returned tt)
    end.
Proof.
  intros Hpresent Hname Hstamp stamp backupRoot backupDir.
  destruct (plainSegment_plain _ Hname) as [Hn _].
  destruct (plainSegment_plain _ Hstamp) as [Hne Hslash].
  assert (Hroot : path_join "/var/www/backups" moduleName = backupRoot).
  { unfold path_join. apply String.eqb_neq in Hn. now rewrite Hn. }
  assert (Hdir : path_join backupRoot stamp = backupDir).
  { unfold path_join.
    assert (Hs : (stamp =? "") = false)
      by (apply String.eqb_neq; now apply replace_colons_nonempty).
    now rewrite Hs. }
  assert (Hparent : path_dirname backupDir = backupRoot).
  { rewrite <- Hdir. apply path_dirname_join.
    - discriminate.
    - now apply replace_colons_nonempty.
    - unfold stamp. now rewrite has_slash_replaced. }
  split; [apply lacks_colon_replaced|]. split.
  - unfold FsExtra.backupCurrent, bind, pathExists, new_Date_toISOString, copy, effect, emit.
    rewrite Hpresent. cbn [world trace].
    fold stamp. rewrite Hroot, Hdir.
    destruct (h_copy deployPath backupDir (world s)) as [w r].
    now rewrite <- app_assoc.
  - unfold NodeFs.backupCurrent, NodeFs.mkdir_recursive, NodeFs.cp_recursive,
      tryCatch, bind, access, new_Date_toISOString, ensureDir, copy, effect, ret, emit.
    rewrite Hpresent. cbn [world trace].
    fold stamp. rewrite Hroot, Hdir, Hparent.
    destruct (h_mkdirp backupRoot (world s)) as [w1 [[]|e1]];
      cbn [world trace is_returned fst].
    + destruct (h_copy deployPath backupDir w1) as [w2 [[]|e2]];
        cbn [world trace is_returned]; now rewrite <- !app_assoc.
    + now rewrite <- !app_assoc.
Qed.

Lemma backup_destination_witness :
  let s := Toy.boot Scenario.backup_no_space in
  h_exists "/var/www/deployments/a" (world s) = true /\
  plainSegment "a" = true /\
  plainSegment (h_iso (h_now (world s))) = true /\
  FsExtra.backupCurrent "/var/www/deployments/a" "a" s
  = (mkState Scenario.backup_no_space
       [Sys (Probe "/var/www/deployments/a") true;
        Sys (CopyTree "/var/www/deployments/a" "/var/www/backups/a/T+0ms") false],
     Thrown ("ENOSPC: no space left on device, copyfile '/var/www/deployments/a'"
             ++ " -> '/var/www/backups/a/T+0ms'")) /\
  NodeFs.backupCurrent "/var/www/deployments/a" "a" s
  = (mkState (fst (h_mkdirp "/var/www/backups/a" Scenario.backup_no_space))
       [Sys (Probe "/var/www/deployments/a") true;
        Sys (MkdirP "/var/www/backups/a") true;
        Sys (CopyTree "/var/www/deployments/a" "/var/www/backups/a/T+0ms") false],
     Returned tt).
Proof.
  intros s.
  assert (Hpresent : h_exists "/var/www/deployments/a" (world s) = true) by reflexivity.
  assert (Hname : plainSegment "a" = true) by reflexivity.
  assert (Hstamp : plainSegment (h_iso (h_now (world s))) = true) by reflexivity.
  destruct (backup_destination "/var/www/deployments/a" "a" s Hpresent Hname Hstamp)
    as (_ & Ea & Eb).
  split; [exact Hpresent|]. split; [exact Hname|]. split; [exact Hstamp|].
  split; [exact Ea | exact Eb].
Defined.

(** ** No deployment is emptied without a backup *)

Section BackupFirst.
Context {W : Type} `{Host W}.

Lemma harmless_emptiesNothing : harmless emptiesNothing.
Proof. repeat split. Qed.

(** Discovery of the build output leaves the host as it is. *)
Lemma findBuildOutput_FsExtra_world sourceDir type (s : State W) :
  world (fst (FsExtra.findBuildOutput sourceDir type s)) = world s.
Proof.
  assert (Front : world (fst (FsExtra.probeDirs sourceDir possibleDirs "" s)) = world s)
    by (now rewrite probeDirs_FsExtra).
  destruct type; try exact Front. reflexivity.
Qed.

Lemma findBuildOutput_FsExtra_probes (P : Event -> Prop) sourceDir type :
  harmless P -> ensures P anything (FsExtra.findBuildOutput (W:=W) sourceDir type).
Proof.
  intros HP.
  assert (Front : ensures P anything
                    (FsExtra.probeDirs (W:=W) sourceDir possibleDirs "")).
  { eapply ensures_weaken; [| |apply (probeDirs_harmless P HP)];
      [auto | intros; exact I]. }
  destruct type; try exact Front.
  unfold FsExtra.findBuildOutput.
  apply ensures_seq; [apply ensures_pathExists; apply HP|].
  intros b. now apply ensures_ret.
Qed.

Lemma backedUpFirst_prepend module moduleName (safe evs : list Event) :
  Forall emptiesNothing safe -> backedUpFirst module moduleName evs ->
  backedUpFirst module moduleName (safe ++ evs).
Proof.
  intros Hs [Hall|(before & b & after & -> & Hb & Hbefore)].
  - left. apply Forall_app. now split.
  - right. exists (safe ++ before)%list, b, after. split; [now rewrite <- app_assoc|].
    split; [exact Hb | apply Forall_app; now split].
Qed.

Lemma backedUpFirst_append module moduleName (evs safe : list Event) :
  backedUpFirst module moduleName evs -> Forall emptiesNothing safe ->
  backedUpFirst module moduleName (evs ++ safe).
Proof.
  intros [Hall|(before & b & after & -> & Hb & Hbefore)] Hs.
  - left. apply Forall_app. now split.
  - right. exists before, b, (after ++ safe)%list. split; [now rewrite <- app_assoc|].
    now split.
Qed.

(** The backup and the deployment, one after the other. When there is no
    deployment to back up, the deploy step finds none to empty either. *)
Lemma backup_then_deploy {B} module moduleName sourceDir (rest : M W B) (s : State W) :
  ensures emptiesNothing anything rest ->
  exists evs,
    trace (fst ((FsExtra.backupCurrent (deployPath module) moduleName ;;
                 FsExtra.deployBuild sourceDir (deployPath module) (type module) ;;
                 rest) s))
    = (trace s ++ evs)%list /\
    backedUpFirst module moduleName evs.
Proof.
  intros Hrest.
  pose proof harmless_emptiesNothing as HP.
  destruct (h_exists (deployPath module) (world s)) eqn:Hpresent.
  - (* a deployment exists: the copy is the first write *)
    assert (Hafter : ensures (fun _ => True) anything
                       (FsExtra.deployBuild (W:=W) sourceDir (deployPath module)
                          (type module) ;; rest)).
    { apply ensures_seq; [|intros _; eapply anything_goes; exact Hrest].
      unfold FsExtra.deployBuild, FsExtra.replaceTarget, emptyDir, ensureDir, copy.
      apply ensures_seq.
      - apply findBuildOutput_FsExtra_probes. repeat split.
      - intros out. destruct (out =? ""); [apply ensures_throw|].
        apply ensures_seq; [trace_auto|]. intros b.
        apply ensures_seq; [destruct b; trace_auto|]. intros _. trace_auto. }
    set (backupDir := path_join (backupRootOf moduleName)
                                (replace_colons (h_iso (h_now (world s))))).
    assert (E : FsExtra.backupCurrent (deployPath module) moduleName s
                = (mkState (fst (h_copy (deployPath module) backupDir (world s)))
                           (trace s ++ [Sys (Probe (deployPath module)) true;
                                        Sys (CopyTree (deployPath module) backupDir)
                                            (is_returned
                                               (snd (h_copy (deployPath module) backupDir
                                                       (world s))))]),
                   snd (h_copy (deployPath module) backupDir (world s)))).
    { unfold FsExtra.backupCurrent, bind, pathExists, new_Date_toISOString, copy,
        effect, emit.
      rewrite Hpresent. cbn [world trace]. fold backupDir.
      change (path_join (path_join "/var/www/backups" moduleName)
                        (replace_colons (h_iso (h_now (world s))))) with backupDir.
      destruct (h_copy (deployPath module) backupDir (world s)) as [w r].
      cbn [fst snd]. now rewrite <- app_assoc. }
    unfold bind at 1. rewrite E.
    destruct (h_copy (deployPath module) backupDir (world s)) as [w [[]|e]];
      cbn [is_returned fst snd].
    + match goal with
      | |- context [bind ?m ?k ?s1] => destruct (Hafter s1) as [(e2 & E2 & _) _]
      end.
      eexists (_ :: _ :: e2). split.
      * rewrite E2. cbn [trace]. rewrite <- !app_assoc. reflexivity.
      * right. eexists [_], _, e2. split; [reflexivity|].
        split; [eexists; reflexivity | constructor; [exact I | constructor]].
    + eexists [_; _]. split; [reflexivity|].
      left. repeat constructor.
  - (* no deployment: nothing is emptied *)
    assert (E : FsExtra.backupCurrent (deployPath module) moduleName s
                = (emit (Sys (Probe (deployPath module)) false) s, Returned tt)).
    { unfold FsExtra.backupCurrent, bind, pathExists, ret. now rewrite Hpresent. }
    unfold bind at 1. rewrite E.
    set (s1 := emit (Sys (Probe (deployPath module)) false) s).
    assert (Hw1 : world s1 = world s) by reflexivity.
    unfold bind at 1. unfold FsExtra.deployBuild at 1. unfold bind at 1.
    pose proof (findBuildOutput_FsExtra_world sourceDir (type module) s1) as Hw2.
    assert (Hprobes : ensures emptiesNothing anything
                        (FsExtra.findBuildOutput (W:=W) sourceDir (type module))).
    { now apply findBuildOutput_FsExtra_probes. }
    destruct (Hprobes s1) as [(e1 & E1 & Q1) _].
    destruct (FsExtra.findBuildOutput sourceDir (type module) s1) as [s2 [out|e]];
      cbn [fst] in *.
    + assert (Hdeploy : exists e2 s3 c,
                 (if out =? "" then throw "未找到构建输出目录"
                  else FsExtra.replaceTarget out (deployPath module)) s2 = (s3, c) /\
                 trace s3 = (trace s2 ++ e2)%list /\ Forall emptiesNothing e2).
      { destruct (out =? "").
        - exists [], s2, (Thrown "未找到构建输出目录"). split; [reflexivity|].
          split; [now rewrite app_nil_r | constructor].
        - unfold FsExtra.replaceTarget, bind, pathExists, ensureDir, copy, effect, emit.
          rewrite Hw2, Hw1, Hpresent. cbn [world trace].
          destruct (h_mkdirp (deployPath module) (world s)) as [w3 [[]|e3]];
            cbn [world trace is_returned].
          + destruct (h_copy out (deployPath module) w3) as [w4 r].
            eexists [_; _; _], _, _. split; [reflexivity|]. cbn [trace].
            rewrite <- !app_assoc. split; [reflexivity | repeat constructor].
          + eexists [_; _], _, _. split; [reflexivity|]. cbn [trace].
            rewrite <- !app_assoc. split; [reflexivity | repeat constructor]. }
      destruct Hdeploy as (e2 & s3 & c & Ed & E2 & Q2). rewrite Ed.
      destruct c as [[]|e]; cbn [fst].
      * destruct (Hrest s3) as [(e3 & E3 & Q3) _].
        exists (Sys (Probe (deployPath module)) false :: e1 ++ e2 ++ e3)%list. split.
        -- rewrite E3, E2, E1. unfold s1. cbn [emit trace].
           rewrite <- !app_assoc. reflexivity.
        -- left. constructor; [exact I|]. repeat (apply Forall_app; split); assumption.
      * exists (Sys (Probe (deployPath module)) false :: e1 ++ e2)%list. split.
        -- rewrite E2, E1. unfold s1. cbn [emit trace].
           rewrite <- !app_assoc. reflexivity.
        -- left. constructor; [exact I|]. apply Forall_app; split; assumption.
    + exists (Sys (Probe (deployPath module)) false :: e1)%list. split.
      * rewrite E1. unfold s1. cbn [emit trace]. rewrite <- !app_assoc. reflexivity.
      * left. now constructor.
Qed.

Lemma backedUp_seq {A B} module moduleName (m : M W A) (k : A -> M W B) :
  ensures emptiesNothing anything m ->
  (forall a s, exists evs, trace (fst (k a s)) = (trace s ++ evs)%list /\
                           backedUpFirst module moduleName evs) ->
  forall s, exists evs,
    trace (fst (bind m k s)) = (trace s ++ evs)%list /\
    backedUpFirst module moduleName evs.
Proof.
  intros Hm Hk s. unfold bind. destruct (Hm s) as [(e1 & E1 & Q1) _].
  destruct (m s) as [s1 [a|e]]; simpl in *.
  - destruct (Hk a s1) as (e2 & E2 & G2). exists (e1 ++ e2)%list. split.
    + now rewrite E2, E1, app_assoc.
    + now apply backedUpFirst_prepend.
  - exists e1. split; [exact E1 | now left].
Qed.

Lemma upgradeSteps_backedUp module moduleName tempDir startTime (s : State W) :
  exists evs,
    trace (fst (FsExtra.upgradeSteps module moduleName tempDir startTime s))
    = (trace s ++ evs)%list /\
    backedUpFirst module moduleName evs.
Proof.
  pose proof harmless_emptiesNothing as HP.
  revert s. unfold FsExtra.upgradeSteps.
  apply backedUp_seq; [trace_auto|]. intros _.
  apply backedUp_seq; [unfold ensureDir; trace_auto|]. intros _.
  apply backedUp_seq; [now apply gitCloneOrPull_harmless|]. intros _.
  apply backedUp_seq; [now apply npmInstall_FsExtra_harmless|]. intros _.
  apply backedUp_seq; [now apply buildProject_harmless|]. intros _.
  intros s. apply backup_then_deploy.
  apply ensures_seq; [now apply getVersion_FsExtra_harmless|]. intros v.
  trace_auto.
Qed.

Lemma backedUp_guarded_and_cleaned module moduleName tempDir
      (guarded : M W UpgradeResult) (s : State W) :
  (forall s0, exists evs, trace (fst (guarded s0)) = (trace s0 ++ evs)%list /\
                          backedUpFirst module moduleName evs) ->
  exists evs,
    trace (fst (tryFinally guarded (FsExtra.cleanupTemp tempDir) s))
    = (trace s ++ evs)%list /\
    backedUpFirst module moduleName evs.
Proof.
  intros Hg.
  rewrite tryFinally_quiet by (intros; apply cleanupTemp_returns).
  destruct (Hg s) as (evs & E & G). cbn [fst]. rewrite cleanupTemp_cases.
  destruct (h_remove tempDir (world (fst (guarded s)))) as [w [[]|err]]; cbn [fst trace].
  - eexists (evs ++ [_])%list. rewrite E, <- app_assoc. split; [reflexivity|].
    apply backedUpFirst_append; [exact G | repeat constructor].
  - eexists (evs ++ [_; _])%list. rewrite E, <- !app_assoc. split; [reflexivity|].
    apply backedUpFirst_append; [exact G | repeat constructor].
Qed.

Lemma backedUp_tryCatch module moduleName (m : M W UpgradeResult)
      (h : Error -> M W UpgradeResult) :
  (forall s, exists evs, trace (fst (m s)) = (trace s ++ evs)%list /\
                         backedUpFirst module moduleName evs) ->
  (forall e, ensures emptiesNothing anything (h e)) ->
  forall s, exists evs,
    trace (fst (tryCatch m h s)) = (trace s ++ evs)%list /\
    backedUpFirst module moduleName evs.
Proof.
  intros Hm Hh s. unfold tryCatch. destruct (Hm s) as (e1 & E1 & G1).
  destruct (m s) as [s1 [a|e]]; simpl in *.
  - now exists e1.
  - destruct (Hh e s1) as [(e2 & E2 & Q2) _]. exists (e1 ++ e2)%list. split.
    + now rewrite E2, E1, app_assoc.
    + now apply backedUpFirst_append.
Qed.
End BackupFirst.

(** X14. The fs-extra service and the service of the design note never
    empty a directory unless they have, earlier in the same run, copied the
    module's deployment to a backup directory with success: among the
    events of a run of [upgradeModule] for a configured module, either no
    directory is emptied, or a successful backup copy comes before the
    first one that is. *)
Theorem deployment_emptied_only_after_backup {W : Type} `{Host W}
    (modules : list ModuleConfig) (moduleName : string) (s : State W) :
  match find (fun m => name m =? moduleName) modules with
  | Some module =>
      (exists evs,
         trace (fst (FsExtra.upgradeModule modules moduleName s)) = (trace s ++ evs)%list /\
         backedUpFirst module moduleName evs) /\
      (exists evs,
         trace (fst (Draft.upgradeModule modules moduleName s)) = (trace s ++ evs)%list /\
         backedUpFirst module moduleName evs)
  | None => True
  end.
Proof.
  unfold FsExtra.upgradeModule, Draft.upgradeModule.
  destruct (find (fun m => name m =? moduleName) modules) as [module|]; [|exact I].
  split; unfold bind at 1, date_now.
  - apply backedUp_guarded_and_cleaned. apply backedUp_tryCatch.
    + intros s0. apply upgradeSteps_backedUp.
    + intros e. unfold FsExtra.upgradeFailed. trace_auto.
  - apply backedUp_guarded_and_cleaned. apply backedUp_tryCatch.
    + intros s0. apply upgradeSteps_backedUp.
    + intros e. unfold Draft.upgradeFailed. trace_auto.
Qed.
